(** * Maestro: the orchestration core, embedded and verified

    A shallow embedding of the parts of the Maestro repository that carry
    behaviour worth stating:

    - [orchestrator/write_qa.py]: the QA gate ([determine_status],
      [generate_next_actions]);
    - [src/maestro/orchestrator.py]: the stage runner and the sequencer
      ([_run_stage], [_validate_environment], [run_pipeline]);
    - [src/maestro/dashboard.py]: the status broadcaster
      ([send_to_all_clients], [handle_client_message]);
    - [src/maestro/git_agent.py], [src/maestro/ci_cd_agent.py]: the
      configuration merge ([merge_defaults], [_load_config]) and the
      deploy triggers ([deploy_staging], [trigger_production_deploy]).

    Python dictionaries keyed by strings are [gmap string _]; the stage
    records, which always carry the three keys status/progress/error, are
    records; [None] is [option]'s [None].  Code that raises is modelled in
    a state-and-exception monad in which the state survives a raise, as
    Python's mutations do. *)

From stdpp Require Import gmap strings list fin_maps.
From Stdlib Require Import Ascii ZArith.

Set Warnings "-register-all,-clear-no-such-hyp".
Set Default Proof Using "Type".

(* ===================================================================== *)
(** * Part I: the programs *)
(* ===================================================================== *)

(** ** orchestrator/write_qa.py *)

Module write_qa.

(** Python's [needle in hay] on [str]: [needle] occurs at some offset. *)
Fixpoint str_in (needle hay : string) : bool :=
  String.prefix needle hay ||
  match hay with
  | EmptyString => false
  | String _ hay' => str_in needle hay'
  end.

(** [a != b] on strings. *)
Definition str_ne (a b : string) : bool := negb (String.eqb a b).

(** [determine_status], lines 92-99. *)
Definition determine_status (lint_rc types_rc tests_rc : string) : string :=
  if String.eqb lint_rc "0" && String.eqb types_rc "0" && String.eqb tests_rc "0"
  then "pass"
  else if String.eqb lint_rc "0" && String.eqb types_rc "0"
  then "soft-fail"
  else "fail".

(** [actions.append(x)]. *)
Definition append (actions : list string) (x : string) : list string :=
  actions ++ [x].

(** [generate_next_actions], lines 102-127: the list [actions] is
    threaded through the three guarded blocks in program order. *)
Definition generate_next_actions
    (lint_rc types_rc tests_rc lint_out types_out tests_out : string)
    : list string :=
  let actions := [] in
  let actions :=
    if str_ne lint_rc "0" then
      let actions := append actions "Corrigir erros de linting" in
      let actions :=
        if str_in "unused import" lint_out
        then append actions "Remover imports não utilizados" else actions in
      if str_in "line too long" lint_out
      then append actions "Quebrar linhas muito longas" else actions
    else actions in
  let actions :=
    if str_ne types_rc "0" then
      let actions := append actions "Corrigir erros de type checking" in
      let actions :=
        if str_in "missing type annotation" types_out
        then append actions "Adicionar anotações de tipo" else actions in
      if str_in "incompatible types" types_out
      then append actions "Corrigir incompatibilidades de tipo" else actions
    else actions in
  let actions :=
    if str_ne tests_rc "0" then
      let actions := append actions "Corrigir testes falhando" in
      let actions :=
        if str_in "assertion error" tests_out
        then append actions "Verificar asserções dos testes" else actions in
      if str_in "import error" tests_out
      then append actions "Verificar imports dos testes" else actions
    else actions in
  actions.

(** The nine actions in the order the function can emit them. *)
Definition all_actions : list string :=
  [ "Corrigir erros de linting";
    "Remover imports não utilizados";
    "Quebrar linhas muito longas";
    "Corrigir erros de type checking";
    "Adicionar anotações de tipo";
    "Corrigir incompatibilidades de tipo";
    "Corrigir testes falhando";
    "Verificar asserções dos testes";
    "Verificar imports dos testes" ].

(** One guarded block of the function, as a list expression: the main
    action, then the hints whose needles occur in the block's output.
    [generate_next_actions] is the concatenation of three such blocks
    (lemma [generate_next_actions_blocks]). *)
Definition block (rc main n1 h1 n2 h2 out : string) : list string :=
  if str_ne rc "0"
  then (main :: (if str_in n1 out then [h1] else [])
             ++ (if str_in n2 out then [h2] else []))
  else [].

(** *** The specification's reading of a hint trigger

    The specification describes the triggers as case-insensitive
    substring matches.  [spec_trigger] is that reading, written from the
    specification's words so that it can be compared with [str_in]:
    both sides are lower-cased (ASCII letters) before the search. *)
Definition lower_ascii (a : ascii) : ascii :=
  let n := nat_of_ascii a in
  if (65 <=? n)%nat && (n <=? 90)%nat then ascii_of_nat (n + 32) else a.

Fixpoint lower (s : string) : string :=
  match s with
  | EmptyString => EmptyString
  | String a s' => String (lower_ascii a) (lower s')
  end.

Definition spec_trigger (needle out : string) : bool :=
  str_in (lower needle) (lower out).

End write_qa.

(** ** Python's effects: mutable state and exceptions *)

Module py.

(** What running a statement yields: it completes with a value or it
    raises. *)
Inductive result (E A : Type) : Type :=
| Ok (a : A)
| Raise (e : E).
Arguments Ok {E A} a.
Arguments Raise {E A} e.

(** A computation over a mutable state [S] that may raise an [E].  The
    state is returned in both cases: what was assigned before a raise
    stays assigned. *)
Definition M (S E A : Type) : Type := S → S * result E A.

Section monad.
Context {S E : Type}.

Definition ret {A} (a : A) : M S E A := λ s, (s, Ok a).

Definition raise {A} (e : E) : M S E A := λ s, (s, Raise e).

Definition bind {A B} (c : M S E A) (k : A → M S E B) : M S E B :=
  λ s, match c s with
       | (s', Ok a) => k a s'
       | (s', Raise e) => (s', Raise e)
       end.

Definition get : M S E S := λ s, (s, Ok s).

Definition modify (f : S → S) : M S E unit := λ s, (f s, Ok tt).

(** [try: body except <class> as e: handler e].  [catches e] tells
    whether the [except] clause names a class of [e]; an exception it
    does not name passes through. *)
Definition try_except {A} (body : M S E A) (catches : E → bool)
    (handler : E → M S E A) : M S E A :=
  λ s, match body s with
       | (s', Ok a) => (s', Ok a)
       | (s', Raise e) => if catches e then handler e s' else (s', Raise e)
       end.

(** [for x in l: body x]: the loop ends at the first raise. *)
Fixpoint for_each {A} (l : list A) (body : A → M S E unit) : M S E unit :=
  match l with
  | [] => ret tt
  | x :: l' => bind (body x) (λ _, for_each l' body)
  end.
End monad.

Module notations.
Notation "x <- c ;; k" := (bind c (λ x, k))
  (at level 20, c at level 99, k at level 200, only parsing).
Notation "c ;; k" := (bind c (λ _, k))
  (at level 100, k at level 200, right associativity, only parsing).
End notations.

End py.

(** ** JSON values, as [json.load] returns them *)

Module json.

(** A Python [float]: a finite binary fraction [mantissa * 2^exponent],
    an infinity or a NaN ([json.load] accepts the last two). *)
Inductive pyfloat : Type :=
| Finite (mantissa exponent : Z)
| Infinity (negative : bool)
| NaN.

Inductive value : Type :=
| JNull
| JBool (b : bool)
| JInt (z : Z)
| JFloat (x : pyfloat)
| JStr (s : string)
| JList (l : list value)
| JDict (d : gmap string value).

(** [isinstance(v, dict)]. *)
Definition is_dict (v : value) : bool :=
  match v with JDict _ => true | _ => false end.

(** Python's truth value of [v], as [if v:] tests it. *)
Definition truthy (v : value) : bool :=
  match v with
  | JNull => false
  | JBool b => b
  | JInt z => negb (Z.eqb z 0)
  | JFloat (Finite m _) => negb (Z.eqb m 0)
  | JFloat _ => true
  | JStr s => negb (String.eqb s "")
  | JList l => match l with [] => false | _ => true end
  | JDict d => match map_to_list d with [] => false | _ => true end
  end.

(** [None] for an absent optional string, the string otherwise. *)
Definition of_option (o : option string) : value :=
  match o with Some s => JStr s | None => JNull end.

End json.

(** ** src/maestro/orchestrator.py *)

Module orchestrator.
Import py py.notations.

(** One entry of [pipeline_status]: the dictionary
    [{"status": _, "progress": _, "error": _}]. *)
Record StageRecord : Type := mkStage {
  status : string;
  progress : option string;
  error : option string
}.

Definition set_status (v : string) (r : StageRecord) : StageRecord :=
  mkStage v (progress r) (error r).
Definition set_progress (v : option string) (r : StageRecord) : StageRecord :=
  mkStage (status r) v (error r).
Definition set_error (v : option string) (r : StageRecord) : StageRecord :=
  mkStage (status r) (progress r) v.

(** The record every stage starts with. *)
Definition waiting : StageRecord := mkStage "waiting" None None.

(** What the orchestrator takes from its surroundings: the file system
    and the PATH, as [_validate_environment] consults them ([joinpath]
    is pathlib's [/], [path_exists] is [Path.exists], [which] is
    [shutil.which]), and Python's [repr] of a string, with its choice
    of quotes and its escapes. *)
Record Env : Type := mkEnv {
  joinpath : string → string → string;
  path_exists : string → bool;
  which : string → option string;
  repr : string → string
}.

(** The exceptions that occur in this module, each with its message.
    [Exception msg] stands for whatever exception of class [Exception]
    a stage operation raises, and [BaseException msg] for one outside
    that class: [asyncio.CancelledError], [KeyboardInterrupt],
    [SystemExit]. *)
Inductive exn : Type :=
| FileNotFoundError (msg : string)
| RuntimeError (msg : string)
| KeyError (key : string)
| Exception (msg : string)
| BaseException (msg : string).

(** [isinstance(e, Exception)]: what [except Exception] tests. *)
Definition is_Exception (e : exn) : bool :=
  match e with
  | BaseException _ => false
  | _ => true
  end.

(** [str(e)]: the message; that of a [KeyError] is the [repr] of its
    key. *)
Definition str (env : Env) (e : exn) : string :=
  match e with
  | FileNotFoundError msg | RuntimeError msg | Exception msg
  | BaseException msg => msg
  | KeyError key => repr env key
  end.

(** The fields of an [Orchestrator] instance. *)
Record Orchestrator : Type := mkOrchestrator {
  project_root : string;
  current_task : string;
  pipeline_status : gmap string StageRecord;
  metrics : gmap string Z
}.

(** What the run leaves behind for an onlooker, in program order: each
    assignment to a field of a stage record (with the record as it is
    after the assignment) and each call of a stage operation.  The
    history is ghost state: the program never reads it. *)
Inductive event : Type :=
| Assigned (stage : string) (r : StageRecord)
| Invoked (stage : string).

Record World : Type := mkWorld {
  self : Orchestrator;
  history : list event
}.

Definition Py (A : Type) : Type := M World exn A.

(** [__init__], lines 20-36. *)
Definition __init__ (root : string) : Orchestrator :=
  mkOrchestrator root "demo"
    (<["planner" := waiting]> (<["coder" := waiting]> (<["integrator" := waiting]>
       (<["tester" := waiting]> (<["reporter" := waiting]> ∅)))))
    (<["totalTime" := 0%Z]> (<["testsPassed" := 0%Z]> (<["coverage" := 0%Z]>
       (<["filesTouched" := 0%Z]> ∅)))).

(** The world after [self.current_task = task]. *)
Definition started (task : string) (w : World) : World :=
  mkWorld (mkOrchestrator (project_root (self w)) task
             (pipeline_status (self w)) (metrics (self w)))
          (history w).

(** [self.current_task = task]. *)
Definition set_current_task (task : string) : Py unit :=
  modify (started task).

(** The instance with [pipeline_status] replaced. *)
Definition with_status (o : Orchestrator) (ps : gmap string StageRecord)
    : Orchestrator :=
  mkOrchestrator (project_root o) (current_task o) ps (metrics o).

(** [self.pipeline_status[stage_name][field] = v], with [upd] the
    assignment to the field.  The subscript [pipeline_status[stage_name]]
    raises [KeyError] when the stage has no entry. *)
Definition assign (stage_name : string) (upd : StageRecord → StageRecord)
    : Py unit :=
  λ w, match pipeline_status (self w) !! stage_name with
       | Some r =>
           (mkWorld (with_status (self w)
                       (<[stage_name := upd r]> (pipeline_status (self w))))
                    (history w ++ [Assigned stage_name (upd r)]),
            Ok tt)
       | None => (w, Raise (KeyError stage_name))
       end.

(** A stage operation, as the runner sees it: awaiting it completes or
    raises, an exception of class [Exception] or, as when the task is
    cancelled during the await, one outside it.  The operations of the
    source sleep and log; they touch no field of the orchestrator. *)
Definition stage_func : Type := result exn unit.

(** [await stage_func()]. *)
Definition await (stage_name : string) (f : stage_func) : Py unit :=
  λ w, (mkWorld (self w) (history w ++ [Invoked stage_name]), f).

(** [_run_stage], lines 86-104.  The [except Exception] clause lets
    an exception outside class [Exception] pass: nothing is assigned
    after it. *)
Definition _run_stage (env : Env) (stage_name : string) (f : stage_func)
    : Py unit :=
  try_except
    (assign stage_name (set_status "running") ;;
     assign stage_name (set_progress (Some "0%")) ;;
     await stage_name f ;;
     assign stage_name (set_status "completed") ;;
     assign stage_name (set_progress (Some "100%")))
    is_Exception
    (λ e,
     assign stage_name (set_status "failed") ;;
     assign stage_name (set_error (Some (str env e))) ;;
     raise e).

(** [_command_exists], lines 81-84. *)
Definition _command_exists (env : Env) (command : string) : bool :=
  match which env command with Some _ => true | None => false end.

Definition required_clis : list string := ["gemini"; "codex"; "cursor"].

(** [self.project_root / "issues" / f"{self.current_task}.md"]. *)
Definition issue_file (env : Env) (o : Orchestrator) : string :=
  joinpath env (joinpath env (project_root o) "issues")
           (current_task o +:+ ".md").

(** [_validate_environment], lines 66-79. *)
Definition _validate_environment (env : Env) : Py unit :=
  w <- get ;;
  let issue_file := issue_file env (self w) in
  (if negb (path_exists env issue_file)
   then raise (FileNotFoundError ("Issue file not found: " +:+ issue_file))
   else ret tt) ;;
  for_each required_clis (λ cli,
    if negb (_command_exists env cli)
    then raise (RuntimeError ("Required CLI not found: " +:+ cli))
    else ret tt).

(** The five stage operations of an instance ([self._run_planner] and
    so on); a subclass or a test double may replace them. *)
Record StageFuncs : Type := mkStageFuncs {
  _run_planner : stage_func;
  _run_coder : stage_func;
  _run_integrator : stage_func;
  _run_tester : stage_func;
  _run_reporter : stage_func
}.

(** The operations as the source defines them, lines 106-134: each
    sleeps, logs and returns. *)
Definition source_stage_funcs : StageFuncs :=
  mkStageFuncs (Ok tt) (Ok tt) (Ok tt) (Ok tt) (Ok tt).

(** The list [stages] of [run_pipeline], lines 48-54. *)
Definition stages (fs : StageFuncs) : list (string * stage_func) :=
  [ ("planner", _run_planner fs);
    ("coder", _run_coder fs);
    ("integrator", _run_integrator fs);
    ("tester", _run_tester fs);
    ("reporter", _run_reporter fs) ].

(** The loop of [run_pipeline], lines 56-57. *)
Definition run_stages (env : Env) (l : list (string * stage_func)) : Py unit :=
  for_each l (λ '(stage_name, f), _run_stage env stage_name f).

(** [run_pipeline], lines 38-64. *)
Definition run_pipeline (env : Env) (fs : StageFuncs) (task : string)
    : Py bool :=
  set_current_task task ;;
  try_except
    (_validate_environment env ;;
     run_stages env (stages fs) ;;
     ret true)
    is_Exception
    (λ e, ret false).

(** *** Reading a history *)

(** The status changes of one stage along a history, starting from
    status [s]: assignments that leave the status as it is are not
    changes. *)
Fixpoint transitions (stage : string) (s : string) (h : list event)
    : list (string * string) :=
  match h with
  | [] => []
  | Assigned n r :: h' =>
      if String.eqb n stage && negb (String.eqb s (status r))
      then (s, status r) :: transitions stage (status r) h'
      else transitions stage s h'
  | Invoked _ :: h' => transitions stage s h'
  end.

(** The stages a history touches. *)
Definition event_stage (ev : event) : string :=
  match ev with Assigned n _ | Invoked n => n end.

Definition stage_names : list string :=
  ["planner"; "coder"; "integrator"; "tester"; "reporter"].

(** Every stage has its record, as after [__init__]. *)
Definition has_all_stages (o : Orchestrator) : Prop :=
  Forall (λ n, is_Some (pipeline_status o !! n)) stage_names.

(** The status changes that a run of the stage writes before the
    operation is called, for a record whose status was [s]. *)
Definition entered (s : string) : list (string * string) :=
  if String.eqb s "running" then [] else [(s, "running")].

(** What running the stages [pre], whose operations all return, and then
    a stage [name] whose operation raises [e], makes of [w]. *)
Record halted_at (env : Env) (pre : list (string * stage_func)) (name : string)
    (e : exn) (w w' : World) : Prop := {
  halted_fields :
    project_root (self w') = project_root (self w) ∧
    current_task (self w') = current_task (self w) ∧
    metrics (self w') = metrics (self w);
  halted_completed :
    Forall (λ p, ∃ r0, pipeline_status (self w) !! p.1 = Some r0 ∧
              pipeline_status (self w') !! p.1
                = Some (mkStage "completed" (Some "100%") (error r0))) pre;
  halted_stage :
    ∃ r0, pipeline_status (self w) !! name = Some r0 ∧
          pipeline_status (self w') !! name
            = Some (if is_Exception e
                    then mkStage "failed" (Some "0%") (Some (str env e))
                    else mkStage "running" (Some "0%") (error r0));
  halted_frame :
    ∀ n, n ∉ pre.*1 → n ≠ name →
      pipeline_status (self w') !! n = pipeline_status (self w) !! n;
  halted_history :
    ∃ h, history w' = history w ++ h ∧
         Forall (λ ev, event_stage ev ∈ pre.*1 ++ [name]) h
}.

(** *** Sample runs *)

(** A fresh orchestrator rooted at the working directory. *)
Definition world0 : World := mkWorld (__init__ ".") [].

(** [repr] on the names of this module, which have no quote, no
    backslash and no control character: the name between apostrophes. *)
Definition repr_plain (s : string) : string := "'" +:+ s +:+ "'".

(** An environment with every file and every command, and one without
    the issue files. *)
Definition env_ok : Env :=
  mkEnv (λ a b, a +:+ "/" +:+ b) (λ _, true) (λ c, Some ("/usr/bin/" +:+ c))
        repr_plain.
Definition env_no_issue : Env :=
  mkEnv (λ a b, a +:+ "/" +:+ b) (λ _, false) (λ c, Some ("/usr/bin/" +:+ c))
        repr_plain.

(** Stage operations of which the coder's raises. *)
Definition coder_fails : StageFuncs :=
  mkStageFuncs (Ok tt) (Raise (Exception "codex exited with status 1"))
               (Ok tt) (Ok tt) (Ok tt).

(** Stage operations of which the coder's is cancelled during its
    await. *)
Definition coder_cancelled : StageFuncs :=
  mkStageFuncs (Ok tt) (Raise (BaseException "")) (Ok tt) (Ok tt) (Ok tt).

(** An orchestrator whose coder stage failed in an earlier run. *)
Definition world_failed : World :=
  mkWorld (with_status (__init__ ".")
             (<["coder" := mkStage "failed" (Some "0%")
                             (Some "codex exited with status 1")]>
                (pipeline_status (__init__ "."))))
          [].

End orchestrator.

(** ** src/maestro/dashboard.py *)

Module dashboard.
Import py py.notations json.

(** The stage records are the dictionaries of the orchestrator. *)
Abbreviation StageRecord := orchestrator.StageRecord.
Abbreviation mkStage := orchestrator.mkStage.
Abbreviation waiting := orchestrator.waiting.

(** A connected websocket, known by its identity. *)
Definition Client : Type := nat.

(** What [send] raises: [websockets.exceptions.ConnectionClosed], or an
    exception of another class. *)
Inductive exn : Type :=
| ConnectionClosed
| OtherException (msg : string).

Inductive send_outcome : Type :=
| Sent
| Fails (e : exn).

(** What the server takes from its surroundings: the serialiser, the
    clock ([isoformat_now n] is the n-th reading of
    [datetime.now().isoformat()]), the formatting of a value inside an
    f-string, and the network ([send_result n] is how the n-th [send]
    of the run ends, whichever websocket it is on). *)
Record Runtime : Type := mkRuntime {
  json_dumps : gmap string value → string;
  isoformat_now : nat → string;
  format : value → string;
  send_result : nat → send_outcome
}.

(** The fields of a [DashboardServer] instance ([host], [port] and
    [project_root] are never read by the methods below). *)
Record DashboardServer : Type := mkServer {
  connected_clients : list Client;
  current_task : value;
  pipeline_status : gmap string StageRecord;
  metrics : gmap string value;
  doc_status : option (gmap string value)
}.

(** The instance, the counters of the surroundings ([sends]: sends
    attempted, [clock]: clock readings, [dumps]: calls of [json.dumps])
    and two ghost logs: [delivered], the texts that reached a client,
    and [broadcasts], the messages handed to [send_to_all_clients]. *)
Record World : Type := mkWorld {
  self : DashboardServer;
  sends : nat;
  clock : nat;
  dumps : nat;
  delivered : list (Client * string);
  broadcasts : list (gmap string value)
}.

Definition Py (A : Type) : Type := M World exn A.

Definition on_self (f : DashboardServer → DashboardServer) (w : World) : World :=
  mkWorld (f (self w)) (sends w) (clock w) (dumps w) (delivered w) (broadcasts w).

Definition set_clients (cs : list Client) (o : DashboardServer) : DashboardServer :=
  mkServer cs (current_task o) (pipeline_status o) (metrics o) (doc_status o).
Definition set_task (t : value) (o : DashboardServer) : DashboardServer :=
  mkServer (connected_clients o) t (pipeline_status o) (metrics o) (doc_status o).
Definition set_pipeline (ps : gmap string StageRecord) (o : DashboardServer)
    : DashboardServer :=
  mkServer (connected_clients o) (current_task o) ps (metrics o) (doc_status o).
Definition set_metrics (m : gmap string value) (o : DashboardServer)
    : DashboardServer :=
  mkServer (connected_clients o) (current_task o) (pipeline_status o) m (doc_status o).
Definition set_doc (d : option (gmap string value)) (o : DashboardServer)
    : DashboardServer :=
  mkServer (connected_clients o) (current_task o) (pipeline_status o) (metrics o) d.

(** [__init__], lines 22-41. *)
Definition __init__ : DashboardServer :=
  mkServer [] (JStr "demo")
    (<["planner" := waiting]> (<["coder" := waiting]> (<["integrator" := waiting]>
       (<["tester" := waiting]> (<["reporter" := waiting]> ∅)))))
    (<["totalTime" := JInt 0]> (<["testsPassed" := JInt 0]> (<["coverage" := JInt 0]>
       (<["filesTouched" := JInt 0]> ∅))))
    None.

(** A dictionary display [{k1: v1, ...}] with distinct keys. *)
Definition dict (l : list (string * value)) : gmap string value := list_to_map l.

(** [datetime.now().isoformat()]. *)
Definition now (rt : Runtime) : Py string :=
  λ w, (mkWorld (self w) (sends w) (S (clock w)) (dumps w) (delivered w) (broadcasts w),
        Ok (isoformat_now rt (clock w))).

(** [json.dumps(message)]. *)
Definition dumps_message (rt : Runtime) (message : gmap string value) : Py string :=
  λ w, (mkWorld (self w) (sends w) (clock w) (S (dumps w)) (delivered w) (broadcasts w),
        Ok (json_dumps rt message)).

(** [await client.send(text)]. *)
Definition send (rt : Runtime) (client : Client) (text : string) : Py unit :=
  λ w, match send_result rt (sends w) with
       | Sent =>
           (mkWorld (self w) (S (sends w)) (clock w) (dumps w)
                    (delivered w ++ [(client, text)]) (broadcasts w), Ok tt)
       | Fails e =>
           (mkWorld (self w) (S (sends w)) (clock w) (dumps w)
                    (delivered w) (broadcasts w), Raise e)
       end.

(** [l.remove(x)] for an [x] that is in [l]: the first occurrence goes. *)
Fixpoint remove_first (x : Client) (l : list Client) : list Client :=
  match l with
  | [] => []
  | y :: l' => if decide (y = x) then l' else y :: remove_first x l'
  end.

(** [unregister_client], lines 51-55. *)
Definition unregister_client (websocket : Client) : Py unit :=
  modify (on_self (λ o,
    if bool_decide (websocket ∈ connected_clients o)
    then set_clients (remove_first websocket (connected_clients o)) o
    else o)).

(** [except websockets.exceptions.ConnectionClosed]. *)
Definition is_ConnectionClosed (e : exn) : bool :=
  match e with ConnectionClosed => true | OtherException _ => false end.

(** The first loop of [send_to_all_clients], lines 65-69, with the
    local list [disconnected] threaded through it. *)
Fixpoint send_loop (rt : Runtime) (clients : list Client) (message_str : string)
    (disconnected : list Client) : Py (list Client) :=
  match clients with
  | [] => ret disconnected
  | client :: clients' =>
      disconnected <-
        try_except (send rt client message_str ;; ret disconnected)
                   is_ConnectionClosed
                   (λ _, ret (disconnected ++ [client])) ;;
      send_loop rt clients' message_str disconnected
  end.

(** The call of [send_to_all_clients], noted in the ghost log. *)
Definition note_broadcast (message : gmap string value) : Py unit :=
  modify (λ w, mkWorld (self w) (sends w) (clock w) (dumps w) (delivered w)
                       (broadcasts w ++ [message])).

(** [send_to_all_clients], lines 57-73. *)
Definition send_to_all_clients (rt : Runtime) (message : gmap string value)
    : Py unit :=
  note_broadcast message ;;
  w <- get ;;
  match connected_clients (self w) with
  | [] => ret tt
  | _ :: _ =>
      message_str <- dumps_message rt message ;;
      disconnected <- send_loop rt (connected_clients (self w)) message_str [] ;;
      for_each disconnected unregister_client
  end.

(** The dictionary of a stage record and of [pipeline_status]. *)
Definition record_value (r : StageRecord) : value :=
  JDict (dict [ ("status", JStr (orchestrator.status r));
                ("progress", of_option (orchestrator.progress r));
                ("error", of_option (orchestrator.error r)) ]).

(** [send_status_update], lines 75-89. *)
Definition send_status_update (rt : Runtime) (websocket : option Client)
    : Py unit :=
  w <- get ;;
  timestamp <- now rt ;;
  let message :=
    dict [ ("type", JStr "status_update");
           ("task", current_task (self w));
           ("pipeline", JDict (record_value <$> pipeline_status (self w)));
           ("metrics", JDict (metrics (self w)));
           ("doc_status", match doc_status (self w) with
                          | Some d => JDict d | None => JNull end);
           ("timestamp", JStr timestamp) ] in
  match websocket with
  | Some ws => text <- dumps_message rt message ;; send rt ws text
  | None => send_to_all_clients rt message
  end.

(** [register_client], lines 43-49. *)
Definition register_client (rt : Runtime) (websocket : Client) : Py unit :=
  modify (on_self (λ o, set_clients (connected_clients o ++ [websocket]) o)) ;;
  send_status_update rt (Some websocket).

(** [update_node_status], lines 91-105. *)
Definition update_node_status (rt : Runtime) (node status : string)
    (progress error : option string) : Py unit :=
  w <- get ;;
  match pipeline_status (self w) !! node with
  | Some _ =>
      modify (on_self (λ o,
        set_pipeline (<[node := mkStage status progress error]> (pipeline_status o)) o)) ;;
      timestamp <- now rt ;;
      send_to_all_clients rt
        (dict [ ("type", JStr "node_update"); ("node", JStr node);
                ("status", JStr status); ("progress", of_option progress);
                ("error", of_option error); ("timestamp", JStr timestamp) ])
  | None => ret tt
  end.

(** [update_metrics], lines 107-115: [self.metrics.update(metrics)]
    lets the new entries win. *)
Definition update_metrics (rt : Runtime) (new_metrics : gmap string value)
    : Py unit :=
  modify (on_self (λ o, set_metrics (new_metrics ∪ metrics o) o)) ;;
  w <- get ;;
  timestamp <- now rt ;;
  send_to_all_clients rt
    (dict [ ("type", JStr "metrics_update");
            ("metrics", JDict (metrics (self w)));
            ("timestamp", JStr timestamp) ]).

(** [add_log], lines 117-124. *)
Definition add_log (rt : Runtime) (level message : string) : Py unit :=
  timestamp <- now rt ;;
  send_to_all_clients rt
    (dict [ ("type", JStr "log"); ("level", JStr level);
            ("message", JStr message); ("timestamp", JStr timestamp) ]).

(** [data.get(key)] and [data.get(key, default)]. *)
Definition dict_get (data : gmap string value) (key : string) : value :=
  default JNull (data !! key).
Definition dict_get_default (data : gmap string value) (key : string)
    (d : value) : value :=
  default d (data !! key).

(** [v == "s"] for a string literal. *)
Definition eq_str (v : value) (s : string) : bool :=
  match v with JStr s' => String.eqb s' s | _ => false end.

(** The loop [for node in self.pipeline_status:
    self.pipeline_status[node] = {...}] of lines 167-168. *)
Definition reset_pipeline (ps : gmap string StageRecord) : gmap string StageRecord :=
  foldr (λ node ps', <[node := waiting]> ps') ps (map_to_list ps).*1.

(** The [pipeline_start] message of lines 171-175. *)
Definition pipeline_start_message (task : value) (timestamp : string)
    : gmap string value :=
  dict [ ("type", JStr "pipeline_start"); ("task", task);
         ("timestamp", JStr timestamp) ].

(** The branch of [handle_client_message] for a "start_pipeline"
    message, lines 163-175. *)
Definition start_pipeline (rt : Runtime) (data : gmap string value) : Py unit :=
  modify (on_self (set_task (dict_get_default data "task" (JStr "demo")))) ;;
  modify (on_self (λ o, set_pipeline (reset_pipeline (pipeline_status o)) o)) ;;
  w <- get ;;
  add_log rt "INFO"
    ("Starting pipeline for task: " +:+ format rt (current_task (self w))) ;;
  w <- get ;;
  timestamp <- now rt ;;
  send_to_all_clients rt
    (pipeline_start_message (current_task (self w)) timestamp).

(** The branch for an "update_task" message, lines 177-179. *)
Definition update_task (rt : Runtime) (data : gmap string value) : Py unit :=
  modify (on_self (set_task (dict_get_default data "task" (JStr "demo")))) ;;
  w <- get ;;
  add_log rt "INFO" ("Switched to task: " +:+ format rt (current_task (self w))).

(** The branch for a "doc_update" message, lines 181-193.  The default
    of [data.get("timestamp", ...)] is evaluated whether it is used or
    not. *)
Definition doc_update (rt : Runtime) (data : gmap string value) : Py unit :=
  default_timestamp <- now rt ;;
  let doc :=
    dict [ ("task", dict_get data "task"); ("status", dict_get data "status");
           ("passed", dict_get data "passed"); ("failed", dict_get data "failed");
           ("coverage", dict_get data "coverage");
           ("lint_errors", dict_get data "lint_errors");
           ("type_errors", dict_get data "type_errors");
           ("timestamp",
            dict_get_default data "timestamp" (JStr default_timestamp)) ] in
  modify (on_self (set_doc (Some doc))) ;;
  send_to_all_clients rt (<["type" := JStr "doc_update"]> doc).

(** The world of a "start_pipeline" message for [task] once the task
    is stored and the records are reset, before anything is sent. *)
Definition reset_world (task : string) (w : World) : World :=
  mkWorld (mkServer (connected_clients (self w)) (JStr task)
             ((λ _, waiting) <$> pipeline_status (self w))
             (metrics (self w)) (doc_status (self w)))
          (sends w) (clock w) (dumps w) (delivered w) (broadcasts w).

(** The two events of the branch: the log line, then [pipeline_start]. *)
Definition announce (rt : Runtime) (task : string) : Py unit :=
  add_log rt "INFO" ("Starting pipeline for task: " +:+ format rt (JStr task)) ;;
  timestamp <- now rt ;;
  send_to_all_clients rt (pipeline_start_message (JStr task) timestamp).

(** [handle_client_message], lines 156-199. *)
Definition handle_client_message (rt : Runtime) (websocket : Client)
    (data : gmap string value) : Py unit :=
  let message_type := dict_get data "type" in
  if eq_str message_type "get_status" then
    send_status_update rt (Some websocket)
  else if eq_str message_type "start_pipeline" then
    start_pipeline rt data
  else if eq_str message_type "update_task" then
    update_task rt data
  else if eq_str message_type "doc_update" then
    doc_update rt data
  else
    text <- dumps_message rt
      (dict [ ("type", JStr "error");
              ("message",
               JStr ("Unknown message type: " +:+ format rt message_type)) ]) ;;
    send rt websocket text.

(** *** Reading a broadcast *)

(** Of the clients [cs], served in order from the [n]-th send on: those
    whose send succeeds, and those whose send finds the connection
    closed. *)
Fixpoint served (rt : Runtime) (n : nat) (cs : list Client) : list Client :=
  match cs with
  | [] => []
  | c :: cs' =>
      match send_result rt n with
      | Sent => c :: served rt (S n) cs'
      | Fails _ => served rt (S n) cs'
      end
  end.

Fixpoint closed (rt : Runtime) (n : nat) (cs : list Client) : list Client :=
  match cs with
  | [] => []
  | c :: cs' =>
      match send_result rt n with
      | Fails ConnectionClosed => c :: closed rt (S n) cs'
      | _ => closed rt (S n) cs'
      end
  end.

(** No send from the [n]-th on, [k] of them, raises anything but
    [ConnectionClosed]. *)
Definition closes_only (rt : Runtime) (n k : nat) : Prop :=
  ∀ j, j < k → send_result rt (n + j) = Sent
             ∨ send_result rt (n + j) = Fails ConnectionClosed.

Definition has_all_stages (o : DashboardServer) : Prop :=
  Forall (λ n, is_Some (pipeline_status o !! n)) orchestrator.stage_names.

(** What the second loop of [send_to_all_clients] leaves of the clients
    [cs] when [ds] is the list [disconnected]. *)
Definition pruned (cs ds : list Client) : list Client :=
  foldl (λ l c, if bool_decide (c ∈ l) then remove_first c l else l) cs ds.

(** *** Sample runs *)

(** A network on which the third send raises an exception that is not
    [ConnectionClosed], and one on which the second send finds the
    connection closed. *)
Definition rt_error : Runtime :=
  mkRuntime (λ _, "{}") (λ _, "2025-01-01T00:00:00") (λ _, "T-1")
            (λ n, if Nat.eqb n 2
                  then Fails (OtherException "RuntimeError: transport failure")
                  else Sent).
Definition rt_closed : Runtime :=
  mkRuntime (λ _, "{}") (λ _, "2025-01-01T00:00:00") (λ _, "T-1")
            (λ n, if Nat.eqb n 1 then Fails ConnectionClosed else Sent).

(** A server with three clients, whose coder stage has failed. *)
Definition world3 : World :=
  mkWorld (mkServer [1; 2; 3] (JStr "demo")
             (<["coder" := mkStage "failed" (Some "0%") (Some "boom")]>
                (<["planner" := mkStage "completed" (Some "100%") None]>
                   (pipeline_status __init__)))
             (metrics __init__) None)
          0 0 0 [] [].

Definition log_event : gmap string value :=
  dict [ ("type", JStr "log"); ("level", JStr "INFO");
         ("message", JStr "hello"); ("timestamp", JStr "2025-01-01T00:00:00") ].

Definition start_request : gmap string value :=
  dict [ ("type", JStr "start_pipeline"); ("task", JStr "T-1") ].

End dashboard.

(** ** Dictionary methods used by the configuration code *)

Module pydict.

Section methods.
Context {A : Type}.

(** [d.setdefault(k, v)], as a statement: [k] gets [v] unless it has
    a value. *)
Definition setdefault (d : gmap string A) (k : string) (v : A) : gmap string A :=
  match d !! k with
  | Some _ => d
  | None => <[k := v]> d
  end.

(** [for k, v in other.items(): d.setdefault(k, v)]; also the loop
    [for k in other.keys(): if k not in d: d[k] = other[k]]. *)
Definition fill_missing (d other : gmap string A) : gmap string A :=
  foldl (λ d' kv, setdefault d' kv.1 kv.2) d (map_to_list other).

(** [d.update(other)]: every entry of [other] is assigned into [d]. *)
Definition update (d other : gmap string A) : gmap string A :=
  foldl (λ d' kv, <[kv.1 := kv.2]> d') d (map_to_list other).
End methods.

End pydict.

(** ** src/maestro/git_agent.py and src/maestro/ci_cd_agent.py:
       the configuration *)

Module config.
Import py json pydict.

(** A [DEFAULT_CONFIG]: section name to section, each section a
    dictionary. *)
Abbreviation Defaults := (gmap string (gmap string value)).

(** [merge_defaults], git_agent.py lines 65-83 and ci_cd_agent.py lines
    67-82 (the two texts are the same).  The first loop builds one
    section per default section; the second adds the keys of [cfg] that
    are not yet in [merged]. *)
Definition merge_section (cfg : gmap string value) (key : string)
    (defaults : gmap string value) : value :=
  match cfg !! key with
  | Some (JDict val) =>
      let section := defaults in                        (* defaults.copy() *)
      let section := fill_missing section defaults in   (* setdefault loop *)
      let section := update section val in              (* section.update(val) *)
      JDict section
  | _ => JDict defaults                                 (* defaults.copy() *)
  end.

Definition merge_defaults (DEFAULT_CONFIG : Defaults) (cfg : gmap string value)
    : gmap string value :=
  let merged :=
    foldl (λ merged kd, <[kd.1 := merge_section cfg kd.1 kd.2]> merged)
          ∅ (map_to_list DEFAULT_CONFIG) in
  fill_missing merged cfg.

(** What opening and parsing the configuration file comes to. *)
Inductive file_read : Type :=
| NoSuchFile                      (* FileNotFoundError *)
| InvalidJSON                     (* json.JSONDecodeError *)
| Loaded (content : value)
| ReadError (msg : string).       (* any other exception, e.g. PermissionError *)

Inductive exn : Type :=
| FileNotFoundError
| KeyError (key : string)
| TypeError (msg : string)
| OtherException (msg : string).

(** [DEFAULT_CONFIG.copy()], seen as a configuration. *)
Definition copy_defaults (DEFAULT_CONFIG : Defaults) : gmap string value :=
  JDict <$> DEFAULT_CONFIG.

(** [_load_config], git_agent.py lines 63-94, ci_cd_agent.py lines
    65-93.  An exception that the [except] clause does not name leaves
    the function. *)
Definition _load_config (DEFAULT_CONFIG : Defaults) (f : file_read)
    : result exn (gmap string value) :=
  match f with
  | Loaded (JDict cfg) => Ok (merge_defaults DEFAULT_CONFIG cfg)
  | Loaded _ => Ok (copy_defaults DEFAULT_CONFIG)
  | NoSuchFile | InvalidJSON => Ok (copy_defaults DEFAULT_CONFIG)
  | ReadError msg => Raise (OtherException msg)
  end.

(** [cfg[section][key]]: [KeyError] for a missing key, [TypeError] when
    [cfg[section]] is not a dictionary. *)
Definition subscript2 (cfg : gmap string value) (section key : string)
    : result exn value :=
  match cfg !! section with
  | None => Raise (KeyError section)
  | Some (JDict d) =>
      match d !! key with
      | Some v => Ok v
      | None => Raise (KeyError key)
      end
  | Some _ => Raise (TypeError "value is not subscriptable by a string")
  end.

Definition strings (l : list string) : value := JList (JStr <$> l).

Definition section (l : list (string * value)) : gmap string value :=
  list_to_map l.

End config.

Module git_agent.
Import json config.

(** [DEFAULT_CONFIG], git_agent.py lines 29-51. *)
Definition DEFAULT_CONFIG : Defaults :=
  list_to_map
    [ ("git", section
         [ ("auto_commit", JBool true); ("auto_push", JBool true);
           ("auto_pr", JBool true); ("branch_prefix", JStr "feature/");
           ("commit_message_template", JStr "feat: {task_id} - {description}") ]);
      ("ci_cd", section
         [ ("auto_deploy_staging", JBool true);
           ("auto_deploy_production", JBool false);
           ("rollback_on_failure", JBool true);
           ("deploy_timeout", JInt 300);
           ("github_actions_workflow", JStr "maestro-automation.yml") ]);
      ("security", section
         [ ("exclude_patterns",
            strings ["*.env"; "secrets/*"; "*.key"; "*.log"; "*.tmp"]);
           ("max_diff_lines", JInt 1000) ]);
      ("logging", section
         [ ("log_file", JStr "logs/git-automation.log") ]) ].

Definition _load_config := config._load_config DEFAULT_CONFIG.

End git_agent.

(** ** src/maestro/ci_cd_agent.py *)

Module ci_cd_agent.
Import py py.notations json config.

(** [DEFAULT_CONFIG], ci_cd_agent.py lines 29-53. *)
Definition DEFAULT_CONFIG : Defaults :=
  list_to_map
    [ ("git", section
         [ ("auto_commit", JBool true); ("auto_push", JBool true);
           ("auto_pr", JBool true); ("branch_prefix", JStr "feature/");
           ("commit_message_template", JStr "feat: {task_id} - {description}") ]);
      ("ci_cd", section
         [ ("auto_deploy_staging", JBool true);
           ("auto_deploy_production", JBool false);
           ("rollback_on_failure", JBool true);
           ("deploy_timeout", JInt 300);
           ("github_actions_workflow", JStr "maestro-automation.yml") ]);
      ("security", section
         [ ("exclude_patterns",
            strings ["*.env"; "secrets/*"; "*.key"; "*.log"; "*.tmp"]);
           ("max_diff_lines", JInt 1000);
           ("require_manual_approval", JBool true);
           ("require_qa_pass", JBool true) ]);
      ("logging", section
         [ ("log_file", JStr "logs/ci-cd-automation.log") ]) ].

Definition _load_config := config._load_config DEFAULT_CONFIG.

(** How a [subprocess.run(argv, capture_output=True)] ends: the process
    completes with a return code and its stderr, the executable is not
    found, or another exception is raised. *)
Inductive run_outcome : Type :=
| Completed (returncode : Z) (stderr : string)
| NotFound
| RunError (msg : string).

(** The state is the ghost log of the command lines handed to
    [subprocess.run], in order. *)
Definition Py (A : Type) : Type := M (list (list string)) exn A.

(** [subprocess.run(argv, ...)] against the system [run]. *)
Definition subprocess_run (run : list string → run_outcome) (argv : list string)
    : Py (Z * string) :=
  λ calls,
    (calls ++ [argv],
     match run argv with
     | Completed returncode stderr => Ok (returncode, stderr)
     | NotFound => Raise FileNotFoundError
     | RunError msg => Raise (OtherException msg)
     end).

(** [self.config[section][key]]. *)
Definition config_get (cfg : gmap string value) (section key : string) : Py value :=
  λ calls, (calls, subscript2 cfg section key).

Definition is_FileNotFoundError (e : exn) : bool :=
  match e with FileNotFoundError => true | _ => false end.

(** [except Exception]. *)
Definition any_Exception (e : exn) : bool := true.

(** [_check_github_cli], lines 120-126. *)
Definition _check_github_cli (run : list string → run_outcome) : Py bool :=
  try_except
    (result <- subprocess_run run ["gh"; "--version"] ;;
     ret (Z.eqb result.1 0))
    is_FileNotFoundError
    (λ _, ret false).

(** The command line of a workflow trigger.  [subprocess.run] raises
    [TypeError] for an argument that is not a string. *)
Definition workflow_command (name task_id action : string) : list string :=
  [ "gh"; "workflow"; "run"; name;
    "--field"; "task_id=" +:+ task_id;
    "--field"; "action=" +:+ action ].

Definition workflow_argv (workflow_name : value) (task_id action : string)
    : Py (list string) :=
  match workflow_name with
  | JStr name => ret (workflow_command name task_id action)
  | _ => raise (TypeError "expected str, bytes or os.PathLike object")
  end.

(** [deploy_staging], lines 128-171.  A [return] inside [try] is the
    value of the [try] body; the handler returns [True]. *)
Definition deploy_staging (run : list string → run_outcome)
    (cfg : gmap string value) (task_id branch_name : string) : Py bool :=
  try_except
    (auto_deploy_staging <- config_get cfg "ci_cd" "auto_deploy_staging" ;;
     if negb (truthy auto_deploy_staging) then ret true else
     gh <- _check_github_cli run ;;
     if negb gh then ret true else
     workflow_name <- config_get cfg "ci_cd" "github_actions_workflow" ;;
     argv <- workflow_argv workflow_name task_id "deploy-staging" ;;
     result <- subprocess_run run argv ;;
     if Z.eqb result.1 0 then ret true else ret false)
    any_Exception
    (λ _, ret true).

(** [trigger_production_deploy], lines 272-313.  The first [if] only
    logs a warning, but it reads
    [self.config['ci_cd']['auto_deploy_production']]. *)
Definition trigger_production_deploy (run : list string → run_outcome)
    (cfg : gmap string value) (task_id : string) : Py bool :=
  try_except
    (auto_deploy_production <- config_get cfg "ci_cd" "auto_deploy_production" ;;
     require_manual_approval <- config_get cfg "security" "require_manual_approval" ;;
     if truthy require_manual_approval then ret true else
     gh <- _check_github_cli run ;;
     if negb gh then ret true else
     workflow_name <- config_get cfg "ci_cd" "github_actions_workflow" ;;
     argv <- workflow_argv workflow_name task_id "deploy-production" ;;
     result <- subprocess_run run argv ;;
     if Z.eqb result.1 0 then ret true else ret false)
    any_Exception
    (λ _, ret false).

(** *** Reading a deploy trigger *)

Definition gh_version : list string := ["gh"; "--version"].

(** What a trigger comes to once its gates are passed: the GitHub CLI
    is probed; when it answers with return code 0 the workflow is run
    for [action] and the outcome is whether that returned 0; a CLI that
    is absent or answers with another code ends the trigger with
    [True]; an exception ends it with [on_exception], the value the
    trigger's [except Exception] handler returns. *)
Definition triggered (run : list string → run_outcome) (cfg : gmap string value)
    (task_id action : string) (on_exception : bool) (calls : list (list string))
    : list (list string) * result exn bool :=
  match run gh_version with
  | Completed returncode _ =>
      if Z.eqb returncode 0 then
        match subscript2 cfg "ci_cd" "github_actions_workflow" with
        | Ok (JStr name) =>
            let argv := workflow_command name task_id action in
            (calls ++ [gh_version; argv],
             Ok match run argv with
                | Completed returncode' _ => Z.eqb returncode' 0
                | _ => on_exception
                end)
        | _ => (calls ++ [gh_version], Ok on_exception)
        end
      else (calls ++ [gh_version], Ok true)
  | NotFound => (calls ++ [gh_version], Ok true)
  | RunError _ => (calls ++ [gh_version], Ok on_exception)
  end.

(** *** Sample runs *)

(** A configuration file that turns manual approval off, and a system
    on which every command completes with return code 0. *)
Definition approval_off : file_read :=
  Loaded (JDict (section
    [ ("security", JDict (section [ ("require_manual_approval", JBool false) ])) ])).

Definition run_ok (argv : list string) : run_outcome := Completed 0 "".

(** A configuration file with a partial security section and a key the
    defaults do not know. *)
Definition sample_config : gmap string value :=
  section [ ("security", JDict (section [ ("max_diff_lines", JInt 50) ]));
            ("team", JStr "core") ].

End ci_cd_agent.

(** ** orchestrator/write_qa.py: the error counters *)

Module write_qa_counts.
Import write_qa.

(** The line feed, and [output.split('\n')]: the pieces between line
    feeds, one more than there are line feeds. *)
Definition LF : ascii := "010"%char.

Fixpoint split_lines (s : string) : list string :=
  match s with
  | EmptyString => [EmptyString]
  | String c s' =>
      if Ascii.eqb c LF then EmptyString :: split_lines s'
      else match split_lines s' with
           | line :: lines => String c line :: lines
           | [] => [String c EmptyString]
           end
  end.

(** [extract_lint_errors], lines 72-79.  [line.lower()] is [lower]: it
    maps the ASCII capitals; no other character lower-cases to a letter of
    "error". *)
Definition extract_lint_errors (output : string) : nat :=
  if String.eqb output "" then 0
  else length (filter (λ line, str_in "error" (lower line) = true)
                      (split_lines output)).

(** [extract_type_errors], lines 82-89. *)
Definition extract_type_errors (output : string) : nat :=
  if String.eqb output "" then 0
  else length (filter (λ line, str_in "error" (lower line) = true)
                      (split_lines output)).

(** A line that the counters count. *)
Definition counts (line : string) : Prop := str_in "error" (lower line) = true.

(** A string without line feed. *)
Fixpoint one_line (s : string) : bool :=
  match s with
  | EmptyString => true
  | String c s' => negb (Ascii.eqb c LF) && one_line s'
  end.

End write_qa_counts.

(** ** src/maestro/orchestrator.py: reading a whole run *)

Module orchestrator_runs.
Import py orchestrator.

(** The stage operations a history shows as awaited, in order. *)
Fixpoint invoked (h : list event) : list string :=
  match h with
  | [] => []
  | Invoked n :: h' => n :: invoked h'
  | Assigned _ _ :: h' => invoked h'
  end.

(** Whether an outcome is an exception that [except Exception] lets
    pass. *)
Definition passes {A : Type} (r : result exn A) : bool :=
  match r with
  | Raise e => negb (is_Exception e)
  | Ok _ => false
  end.

(** A record after a run, against the record [r] before it: untouched,
    or brought to a terminal status, or, when [passed] tells that an
    exception passed the handlers, left at "running". *)
Definition settled (passed : bool) (r r' : StageRecord) : Prop :=
  r' = r ∨ status r' = "completed" ∨ status r' = "failed" ∨
  (passed = true ∧ status r' = "running").

(** What a run keeps of the instance, whatever happens in it: the fields
    it never assigns, the set of stage names, and every record settled. *)
Record kept (passed : bool) (w w' : World) : Prop := {
  kept_root : project_root (self w') = project_root (self w);
  kept_task : current_task (self w') = current_task (self w);
  kept_metrics : metrics (self w') = metrics (self w);
  kept_records :
    ∀ n, match pipeline_status (self w) !! n with
         | Some r =>
             ∃ r', pipeline_status (self w') !! n = Some r' ∧ settled passed r r'
         | None => pipeline_status (self w') !! n = None
         end
}.

(** What running the stages [l], whose operations all return, makes of [w]. *)
Record completed_all (l : list (string * stage_func)) (w w' : World) : Prop := {
  completed_fields :
    project_root (self w') = project_root (self w) ∧
    current_task (self w') = current_task (self w) ∧
    metrics (self w') = metrics (self w);
  completed_frame :
    ∀ n, n ∉ l.*1 → pipeline_status (self w') !! n = pipeline_status (self w) !! n;
  completed_records :
    ∀ n r0, n ∈ l.*1 → pipeline_status (self w) !! n = Some r0 →
      pipeline_status (self w') !! n
        = Some (mkStage "completed" (Some "100%") (error r0));
  completed_history :
    ∃ h, history w' = history w ++ h ∧ invoked h = l.*1
}.

(** An environment in which only the command [codex] is missing. *)
Definition env_no_codex : Env :=
  mkEnv (λ a b, a +:+ "/" +:+ b) (λ _, true)
        (λ c, if String.eqb c "codex" then None else Some ("/usr/bin/" +:+ c))
        repr_plain.

End orchestrator_runs.

(** ** src/maestro/dashboard.py: a connection from start to end *)

Module dashboard_connection.
Import py py.notations json dashboard.

(** [try: body finally: cleanup].  The cleanup runs whatever the body
    did; an exception of the cleanup replaces the body's outcome. *)
Definition try_finally {S E A : Type} (body : M S E A) (cleanup : M S E unit)
    : M S E A :=
  λ s, match body s with
       | (s', r) =>
           match cleanup s' with
           | (s'', Ok _) => (s'', r)
           | (s'', Raise e) => (s'', Raise e)
           end
       end.

(** What the websocket yields for one incoming message, seen through
    [json.loads]: a text that is not JSON ([json.JSONDecodeError]), a
    payload on which [json.loads] raises another exception of class
    [Exception], or a value. *)
Inductive frame : Type :=
| NotJSON
| Undecodable
| Decoded (v : value).

(** The reply to a text that is not JSON, lines 144-147. *)
Definition invalid_json_message : gmap string value :=
  dict [ ("type", JStr "error"); ("message", JStr "Invalid JSON") ].

(** [except Exception].  [ConnectionClosed] is of class [Exception];
    of the exceptions that [OtherException] stands for, [of_class]
    tells which are (a cancellation of the handler's task is not). *)
Definition is_Exception (of_class : string → bool) (e : exn) : bool :=
  match e with
  | ConnectionClosed => true
  | OtherException msg => of_class msg
  end.

(** The body of the loop of [handle_client], lines 140-149.  A value
    that is not a dictionary has no [get]: the [AttributeError] ends in
    the [except Exception] clause, as every exception of that class
    from the message handler does.  The reply to invalid JSON is sent
    from inside the [except] clause: what it raises leaves the loop. *)
Definition handle_frame (rt : Runtime) (of_class : string → bool)
    (websocket : Client) (message : frame) : Py unit :=
  match message with
  | NotJSON =>
      text <- dumps_message rt invalid_json_message ;;
      send rt websocket text
  | Undecodable => ret tt
  | Decoded (JDict data) =>
      try_except (handle_client_message rt websocket data)
                 (is_Exception of_class) (λ _, ret tt)
  | Decoded _ => ret tt
  end.

(** [async for message in websocket]: the messages in order, then the
    iteration ends ([ending = None]) or raises. *)
Definition receive_all (rt : Runtime) (of_class : string → bool)
    (websocket : Client) (incoming : list frame) (ending : option exn)
    : Py unit :=
  for_each incoming (handle_frame rt of_class websocket) ;;
  match ending with
  | None => ret tt
  | Some e => raise e
  end.

(** [handle_client], lines 134-154. *)
Definition handle_client (rt : Runtime) (of_class : string → bool)
    (websocket : Client) (incoming : list frame) (ending : option exn)
    : Py unit :=
  register_client rt websocket ;;
  try_finally
    (try_except (receive_all rt of_class websocket incoming ending)
                is_ConnectionClosed (λ _, ret tt))
    (unregister_client websocket).

(** *** Reading a step of the server *)

(** What no method of the server undoes or invents: the stage names,
    and clients are only ever taken off the list.  The counters and the
    ghost logs only grow. *)
Record step (w w' : World) : Prop := {
  step_clients : sublist (connected_clients (self w')) (connected_clients (self w));
  step_stages :
    ∀ n, is_Some (pipeline_status (self w') !! n)
         ↔ is_Some (pipeline_status (self w) !! n);
  step_delivered : ∃ d, delivered w' = delivered w ++ d;
  step_broadcasts : ∃ b, broadcasts w' = broadcasts w ++ b
}.

(** A computation all of whose runs are steps. *)
Definition steps {A : Type} (c : Py A) : Prop := ∀ w, step w (c w).1.

(** The status snapshot of [send_status_update], lines 77-84. *)
Definition status_message (o : DashboardServer) (timestamp : string)
    : gmap string value :=
  dict [ ("type", JStr "status_update");
         ("task", current_task o);
         ("pipeline", JDict (record_value <$> pipeline_status o));
         ("metrics", JDict (metrics o));
         ("doc_status", match doc_status o with
                        | Some d => JDict d | None => JNull end);
         ("timestamp", JStr timestamp) ].

(** The [node_update] message of lines 98-105. *)
Definition node_update_message (node status : string)
    (progress error : option string) (timestamp : string) : gmap string value :=
  dict [ ("type", JStr "node_update"); ("node", JStr node);
         ("status", JStr status); ("progress", of_option progress);
         ("error", of_option error); ("timestamp", JStr timestamp) ].

(** *** Sample runs *)

(** A network on which every send succeeds, and one on which the first
    send finds the connection closed. *)
Definition rt_fine : Runtime :=
  mkRuntime (λ _, "{}") (λ _, "2025-01-01T00:00:00") (λ _, "T-1") (λ _, Sent).
Definition rt_first_closed : Runtime :=
  mkRuntime (λ _, "{}") (λ _, "2025-01-01T00:00:00") (λ _, "T-1")
            (λ n, if Nat.eqb n 0 then Fails ConnectionClosed else Sent).

(** A network on which the first send finds the connection closed and
    the second raises another exception. *)
Definition rt_closed_then_error : Runtime :=
  mkRuntime (λ _, "{}") (λ _, "2025-01-01T00:00:00") (λ _, "T-1")
            (λ n, match n with
                  | 0 => Fails ConnectionClosed
                  | 1 => Fails (OtherException "RuntimeError: transport failure")
                  | _ => Sent
                  end).

(** A server with two clients. *)
Definition world2 : World :=
  mkWorld (mkServer [1; 2] (JStr "demo") (pipeline_status __init__)
             (metrics __init__) None)
          0 0 0 [] [].

End dashboard_connection.

(** ** src/maestro/ci_cd_agent.py: rollback, status and monitoring *)

Module ci_cd_deploys.
Import py py.notations json config ci_cd_agent.

(** [rollback_deploy], lines 234-270. *)
Definition rollback_deploy (run : list string → run_outcome)
    (cfg : gmap string value) (task_id : string) : Py bool :=
  try_except
    (rollback_on_failure <- config_get cfg "ci_cd" "rollback_on_failure" ;;
     if negb (truthy rollback_on_failure) then ret true else
     gh <- _check_github_cli run ;;
     if negb gh then ret true else
     workflow_name <- config_get cfg "ci_cd" "github_actions_workflow" ;;
     argv <- workflow_argv workflow_name task_id "rollback" ;;
     result <- subprocess_run run argv ;;
     if Z.eqb result.1 0 then ret true else ret false)
    any_Exception
    (λ _, ret false).

(** [handle_qa_failure], lines 315-335. *)
Definition handle_qa_failure (run : list string → run_outcome)
    (cfg : gmap string value) (task_id : string) : Py bool :=
  try_except
    (rollback_success <- rollback_deploy run cfg task_id ;;
     if rollback_success then ret true else ret false)
    any_Exception
    (λ _, ret false).




(** [v == "s"] for a string literal. *)
Definition eq_str (v : value) (s : string) : bool :=
  match v with JStr s' => String.eqb s' s | _ => false end.





(** [auto_deploy_and_monitor], lines 337-366.  [wait_for_deploy] polls
    [check_deploy_status] against the wall clock; it is taken as it
    comes: any computation over the same state. *)
Definition auto_deploy_and_monitor (run : list string → run_outcome)
    (wait_for_deploy : string → value → Py string)
    (cfg : gmap string value) (task_id branch_name : string) : Py bool :=
  try_except
    (deploy_success <- deploy_staging run cfg task_id branch_name ;;
     if negb deploy_success then ret false else
     deploy_timeout <- config_get cfg "ci_cd" "deploy_timeout" ;;
     deploy_status <- wait_for_deploy task_id deploy_timeout ;;
     if String.eqb deploy_status "success" then ret true
     else if String.eqb deploy_status "failed" then
       handle_qa_failure run cfg task_id ;; ret false
     else ret false)
    any_Exception
    (λ _, ret false).

(** *** Reading the outcome of a trigger *)

(** GitHub answered the probe and then refused the workflow run for
    [action]: the only way a trigger past its gate reports a failure
    that is not an exception. *)
Definition refused (run : list string → run_outcome) (cfg : gmap string value)
    (task_id action : string) : Prop :=
  ∃ err name rc stderr,
    run ["gh"; "--version"] = Completed 0 err ∧
    subscript2 cfg "ci_cd" "github_actions_workflow" = Ok (JStr name) ∧
    run [ "gh"; "workflow"; "run"; name;
          "--field"; "task_id=" +:+ task_id;
          "--field"; "action=" +:+ action ] = Completed rc stderr ∧
    rc ≠ 0%Z.

End ci_cd_deploys.

(** ** src/maestro/git_agent.py: the git workflow *)

Module git_workflow.
Import py py.notations json config.

(** How a [subprocess.run(argv, ...)] ends: the process completes with
    a return code, the executable is not found, another exception of
    class [Exception] is raised, or one outside that class
    ([KeyboardInterrupt] while waiting for the process). *)
Inductive run_outcome : Type :=
| Completed (returncode : Z)
| NotFound
| RunError (msg : string)
| Interrupted (msg : string).

(** The exceptions of the workflow; [subprocess.CalledProcessError] is
    what [subprocess.run(..., check=True)] raises for a return code
    other than 0, and [BaseException] stands for an exception outside
    class [Exception]. *)
Inductive exn : Type :=
| CalledProcessError (returncode : Z)
| FileNotFoundError
| KeyError (key : string)
| TypeError (msg : string)
| AttributeError (msg : string)
| OtherException (msg : string)
| BaseException (msg : string).

(** The state is the ghost log of the command lines handed to
    [subprocess.run], in order. *)
Definition Py (A : Type) : Type := M (list (list string)) exn A.

(** What lines 124-136 find in [reports/qa.json]: no file, a text that
    is not JSON, a value, or an error of [open] or of the decoding. *)
Inductive qa_file : Type :=
| Missing
| NotJSON
| Report (content : value)
| Unreadable (msg : string).

(** What the agent takes from its surroundings: the system that runs
    the commands, [str] of a value inside an f-string, the stripped
    standard output of a command, [str.format] with the fields
    [task_id] and [description], [validate_changes] (its patterns and
    its parsing are not modelled: any computation over the same state)
    and the QA report. *)
Record Env : Type := mkEnv {
  run : list string → run_outcome;
  repr : value → string;
  stdout_strip : list string → string;
  str_format : string → string → string → result exn string;
  validate_changes : string → Py bool;
  qa_report : qa_file
}.

(** [subprocess.run(argv, ...)]: the return code. *)
Definition subprocess_run (env : Env) (argv : list string) : Py Z :=
  λ calls,
    (calls ++ [argv],
     match run env argv with
     | Completed returncode => Ok returncode
     | NotFound => Raise FileNotFoundError
     | RunError msg => Raise (OtherException msg)
     | Interrupted msg => Raise (BaseException msg)
     end).

(** [subprocess.run(argv, check=True)]. *)
Definition subprocess_check (env : Env) (argv : list string) : Py unit :=
  returncode <- subprocess_run env argv ;;
  if Z.eqb returncode 0 then ret tt else raise (CalledProcessError returncode).

Definition of_config_exn (e : config.exn) : exn :=
  match e with
  | config.FileNotFoundError => FileNotFoundError
  | config.KeyError key => KeyError key
  | config.TypeError msg => TypeError msg
  | config.OtherException msg => OtherException msg
  end.

(** [self.config[section][key]]. *)
Definition config_get (cfg : gmap string value) (section key : string) : Py value :=
  λ calls,
    (calls,
     match subscript2 cfg section key with
     | Ok v => Ok v
     | Raise e => Raise (of_config_exn e)
     end).

(** [except subprocess.CalledProcessError] and [except Exception]. *)
Definition is_CalledProcessError (e : exn) : bool :=
  match e with CalledProcessError _ => true | _ => false end.
Definition is_Exception (e : exn) : bool :=
  match e with BaseException _ => false | _ => true end.

(** [v == "s"] for a string literal. *)
Definition eq_str (v : value) (s : string) : bool :=
  match v with JStr s' => String.eqb s' s | _ => false end.

(** A value inside an f-string. *)
Definition fstr (env : Env) (v : value) : string :=
  match v with JStr s => s | _ => repr env v end.

(** [check_qa_status], lines 120-136.  [qa_data.get] of a value that is
    not a dictionary raises [AttributeError], which the [except] clause
    does not name. *)
Definition check_qa_status (env : Env) : Py value :=
  match qa_report env with
  | Missing => ret (JStr "unknown")
  | NotJSON => ret (JStr "unknown")
  | Report (JDict qa_data) => ret (default (JStr "unknown") (qa_data !! "status"))
  | Report _ => raise (AttributeError "object has no attribute 'get'")
  | Unreadable msg => raise (OtherException msg)
  end.

(** [create_feature_branch], lines 192-217.  The prefix is read before
    the [try]; the handler raises what it caught. *)
Definition create_feature_branch (env : Env) (cfg : gmap string value)
    (task_id : string) : Py string :=
  branch_prefix <- config_get cfg "git" "branch_prefix" ;;
  let branch_name := fstr env branch_prefix +:+ task_id in
  try_except
    (returncode <- subprocess_run env ["git"; "rev-parse"; "--verify"; branch_name] ;;
     (if Z.eqb returncode 0
      then subprocess_check env ["git"; "checkout"; branch_name]
      else subprocess_check env ["git"; "checkout"; "-b"; branch_name]) ;;
     ret branch_name)
    is_CalledProcessError
    (λ e, raise e).

(** [commit_changes], lines 219-254. *)
Definition commit_changes (env : Env) (task_id message : string) : Py bool :=
  try_except
    (subprocess_check env ["git"; "add"; "."] ;;
     returncode <- subprocess_run env ["git"; "diff"; "--cached"; "--quiet"] ;;
     if Z.eqb returncode 0 then ret true else
     subprocess_check env ["git"; "commit"; "-m"; message] ;;
     subprocess_run env ["git"; "rev-parse"; "HEAD"] ;;
     ret true)
    is_CalledProcessError
    (λ _, ret false).

(** [push_branch], lines 256-268. *)
Definition push_branch (env : Env) (branch_name : string) : Py bool :=
  try_except
    (subprocess_check env ["git"; "push"; "origin"; branch_name] ;;
     ret true)
    is_CalledProcessError
    (λ _, ret false).

(** The title and the body of the pull request, lines 280-289; the
    body is stripped of the line break and the indentation around it. *)
Definition pr_title (task_id : string) : string :=
  "feat: " +:+ task_id +:+ " - Automated PR from Maestro".

Definition pr_body (task_id branch_name : string) : string :=
  "Automated Pull Request created by Maestro Git Agent

**Task ID:** " +:+ task_id +:+ "
**Branch:** " +:+ branch_name +:+ "
**Status:** QA Passed ✅

This PR was automatically created after successful QA validation.".

Definition pr_create (task_id branch_name : string) : list string :=
  [ "gh"; "pr"; "create";
    "--title"; pr_title task_id;
    "--body"; pr_body task_id branch_name;
    "--base"; "main" ].

(** [create_pull_request], lines 270-311. *)
Definition create_pull_request (env : Env) (task_id branch_name : string)
    : Py (option string) :=
  try_except
    (returncode <- subprocess_run env ["gh"; "--version"] ;;
     if negb (Z.eqb returncode 0) then ret None else
     returncode <- subprocess_run env (pr_create task_id branch_name) ;;
     if Z.eqb returncode 0
     then ret (Some (stdout_strip env (pr_create task_id branch_name)))
     else ret None)
    is_Exception
    (λ _, ret None).

(** [rollback_changes], lines 313-330. *)
Definition rollback_changes (env : Env) (task_id : string) : Py bool :=
  try_except
    (subprocess_check env ["git"; "reset"; "--hard"; "HEAD"] ;;
     subprocess_check env ["git"; "clean"; "-fd"] ;;
     ret true)
    is_CalledProcessError
    (λ _, ret false).

(** [message_template.format(task_id=..., description=...)], lines
    351-355: only a string has [format]. *)
Definition format_message (env : Env) (message_template : value)
    (task_id : string) : Py string :=
  match message_template with
  | JStr template =>
      λ calls, (calls, str_format env template task_id
                         "Automated commit from Maestro pipeline")
  | _ => raise (AttributeError "object has no attribute 'format'")
  end.

(** [auto_commit_and_push], lines 332-374. *)
Definition auto_commit_and_push (env : Env) (cfg : gmap string value)
    (task_id : string) : Py bool :=
  try_except
    (qa_status <- check_qa_status env ;;
     if negb (eq_str qa_status "pass") then ret false else
     valid <- validate_changes env task_id ;;
     if negb valid then ret false else
     branch_name <- create_feature_branch env cfg task_id ;;
     message_template <- config_get cfg "git" "commit_message_template" ;;
     message <- format_message env message_template task_id ;;
     committed <- commit_changes env task_id message ;;
     if negb committed then ret false else
     pushed <- push_branch env branch_name ;;
     if negb pushed then ret false else
     auto_pr <- config_get cfg "git" "auto_pr" ;;
     (if truthy auto_pr
      then create_pull_request env task_id branch_name ;; ret tt
      else ret tt) ;;
     ret true)
    is_Exception
    (λ _, ret false).

(** *** Reading a run *)

(** The command [argv] completed with return code 0, with another
    return code, with any return code. *)
Definition succeeds (env : Env) (argv : list string) : Prop :=
  run env argv = Completed 0.

Definition fails (env : Env) (argv : list string) : Prop :=
  ∃ returncode, run env argv = Completed returncode ∧ returncode ≠ 0%Z.

Definition completes (env : Env) (argv : list string) : Prop :=
  ∃ returncode, run env argv = Completed returncode.

(** The command lines of the workflow. *)
Definition git_add : list string := ["git"; "add"; "."].
Definition git_staged : list string := ["git"; "diff"; "--cached"; "--quiet"].
Definition git_commit (message : string) : list string :=
  ["git"; "commit"; "-m"; message].
Definition git_head : list string := ["git"; "rev-parse"; "HEAD"].
Definition git_push (branch_name : string) : list string :=
  ["git"; "push"; "origin"; branch_name].
Definition git_verify (branch_name : string) : list string :=
  ["git"; "rev-parse"; "--verify"; branch_name].
Definition git_checkout (branch_name : string) : list string :=
  ["git"; "checkout"; branch_name].
Definition git_checkout_new (branch_name : string) : list string :=
  ["git"; "checkout"; "-b"; branch_name].
Definition git_reset : list string := ["git"; "reset"; "--hard"; "HEAD"].
Definition git_clean : list string := ["git"; "clean"; "-fd"].

(** The QA report says "pass". *)
Definition qa_passed (env : Env) : Prop :=
  ∃ qa_data, qa_report env = Report (JDict qa_data) ∧
             qa_data !! "status" = Some (JStr "pass").

(** *** Sample runs *)

(** A system on which every command completes with return code 0,
    with a QA report that says "fail", and one with a report that says
    "pass". *)
Definition env_qa_failed : Env :=
  mkEnv (λ _, Completed 0) (λ _, "None") (λ _, "https://example.test/pr/1")
        (λ template _ _, Ok template) (λ _, ret true)
        (Report (JDict (section [ ("status", JStr "fail") ]))).

(** The configuration of an agent without a configuration file. *)
Definition cfg_defaults : gmap string value := copy_defaults git_agent.DEFAULT_CONFIG.

Definition env_qa_passed : Env :=
  mkEnv (λ _, Completed 0) (λ _, "None") (λ _, "https://example.test/pr/1")
        (λ template _ _, Ok template) (λ _, ret true)
        (Report (JDict (section [ ("status", JStr "pass") ]))).

End git_workflow.

(* ===================================================================== *)
(** * Part II: the properties *)
(* ===================================================================== *)

(** ** The QA gate *)

Module write_qa_props.
Import write_qa.

Lemma eqb_zero_true (rc : string) : String.eqb rc "0" = true ↔ rc = "0".
Proof. apply String.eqb_eq. Qed.

Lemma eqb_zero_false (rc : string) : String.eqb rc "0" = false ↔ rc ≠ "0".
Proof. apply String.eqb_neq. Qed.

(** C1.  [determine_status] returns "pass" exactly when the three return
    codes are "0", "soft-fail" exactly when lint and types are "0" and
    tests is not, and "fail" exactly in the remaining cases; the four
    sample triples of the specification evaluate as listed. *)
Theorem determine_status_spec (lint_rc types_rc tests_rc : string) :
  (determine_status lint_rc types_rc tests_rc = "pass"
     ↔ lint_rc = "0" ∧ types_rc = "0" ∧ tests_rc = "0") ∧
  (determine_status lint_rc types_rc tests_rc = "soft-fail"
     ↔ lint_rc = "0" ∧ types_rc = "0" ∧ tests_rc ≠ "0") ∧
  (determine_status lint_rc types_rc tests_rc = "fail"
     ↔ ¬ (lint_rc = "0" ∧ types_rc = "0")) ∧
  determine_status "0" "0" "0" = "pass" ∧
  determine_status "0" "0" "1" = "soft-fail" ∧
  determine_status "1" "0" "1" = "fail" ∧
  determine_status "1" "1" "1" = "fail".
Proof.
  unfold determine_status.
  destruct (String.eqb lint_rc "0") eqn:Hl;
    destruct (String.eqb types_rc "0") eqn:Ht;
    destruct (String.eqb tests_rc "0") eqn:Hs; simpl;
    rewrite ?eqb_zero_true, ?eqb_zero_false in *;
    repeat split; try discriminate; try tauto; intros; try tauto.
Qed.


(** *** [generate_next_actions] *)

Lemma generate_next_actions_blocks
    (lint_rc types_rc tests_rc lint_out types_out tests_out : string) :
  generate_next_actions lint_rc types_rc tests_rc lint_out types_out tests_out =
    (block lint_rc "Corrigir erros de linting"
          "unused import" "Remover imports não utilizados"
          "line too long" "Quebrar linhas muito longas" lint_out
    ++ block types_rc "Corrigir erros de type checking"
          "missing type annotation" "Adicionar anotações de tipo"
          "incompatible types" "Corrigir incompatibilidades de tipo" types_out
    ++ block tests_rc "Corrigir testes falhando"
          "assertion error" "Verificar asserções dos testes"
          "import error" "Verificar imports dos testes" tests_out).
Proof.
  unfold generate_next_actions, block, append.
  destruct (str_ne lint_rc "0"), (str_ne types_rc "0"), (str_ne tests_rc "0"),
    (str_in "unused import" lint_out), (str_in "line too long" lint_out),
    (str_in "missing type annotation" types_out),
    (str_in "incompatible types" types_out),
    (str_in "assertion error" tests_out), (str_in "import error" tests_out);
    reflexivity.
Qed.

Lemma str_ne_zero (rc : string) : str_ne rc "0" = true ↔ rc ≠ "0".
Proof.
  unfold str_ne. rewrite negb_true_iff. apply eqb_zero_false.
Qed.

Lemma in_block (x rc main n1 h1 n2 h2 out : string) :
  In x (block rc main n1 h1 n2 h2 out) ↔
    rc ≠ "0" ∧ (x = main ∨ (x = h1 ∧ str_in n1 out = true)
                         ∨ (x = h2 ∧ str_in n2 out = true)).
Proof.
  unfold block. rewrite <- str_ne_zero.
  destruct (str_ne rc "0"), (str_in n1 out), (str_in n2 out); simpl;
    intuition (try discriminate; try congruence).
Qed.

Lemma block_sublist (rc main n1 h1 n2 h2 out : string) :
  sublist (block rc main n1 h1 n2 h2 out) [main; h1; h2].
Proof.
  unfold block.
  destruct (str_ne rc "0"), (str_in n1 out), (str_in n2 out); simpl;
    repeat first [ apply sublist_nil | apply sublist_skip; [] | apply sublist_cons ];
    repeat constructor.
Qed.

(** Membership of one action in the result, from the three blocks. *)
Ltac in_actions :=
  rewrite generate_next_actions_blocks, !in_app_iff, !in_block;
  split;
  [ intros [H | [H | H]]; destruct H as [Hrc [H | [[H Hin] | [H Hin]]]];
    first [ discriminate H | tauto ]
  | intros; tauto ].


(** The function is a Rocq function of its six arguments: equal
    arguments give equal lists. *)
Lemma generate_next_actions_deterministic
    (a b c d e f a' b' c' d' e' f' : string) :
  (a, b, c, d, e, f) = (a', b', c', d', e', f') →
  generate_next_actions a b c d e f = generate_next_actions a' b' c' d' e' f'.
Proof. intros [= -> -> -> -> -> ->]. reflexivity. Qed.

(** The result keeps the order of [all_actions] and repeats nothing. *)
Lemma generate_next_actions_ordered
    (lint_rc types_rc tests_rc lint_out types_out tests_out : string) :
  sublist
    (generate_next_actions lint_rc types_rc tests_rc lint_out types_out tests_out)
    all_actions.
Proof.
  rewrite generate_next_actions_blocks.
  change all_actions with
    ([ "Corrigir erros de linting"; "Remover imports não utilizados";
       "Quebrar linhas muito longas" ]
     ++ [ "Corrigir erros de type checking"; "Adicionar anotações de tipo";
          "Corrigir incompatibilidades de tipo" ]
     ++ [ "Corrigir testes falhando"; "Verificar asserções dos testes";
          "Verificar imports dos testes" ]).
  repeat apply sublist_app; apply block_sublist.
Qed.

Lemma NoDup_all_actions : NoDup all_actions.
Proof. apply (bool_decide_unpack _). vm_compute. reflexivity. Qed.

(** C2, as the specification words it, fails: the specification calls the
    triggers case-insensitive, and on mypy's own message (the capitalised
    "Incompatible types", as in the repository's test fixture) the
    case-insensitive reading [spec_trigger] fires while the function
    appends no hint. *)
Lemma generate_next_actions_case_sensitive_cex :
  let types_out := "src/main.py:10: error: Incompatible types in assignment" in
  spec_trigger "incompatible types" types_out = true ∧
  generate_next_actions "0" "1" "0" "" types_out ""
    = [ "Corrigir erros de type checking" ] ∧
  ¬ In "Corrigir incompatibilidades de tipo"
       (generate_next_actions "0" "1" "0" "" types_out "").
Proof.
  cbv zeta. split; [ vm_compute; reflexivity | ].
  split; [ vm_compute; reflexivity | ].
  vm_compute. intros [H | []]. discriminate H.
Qed.

(** C2, amended.  [generate_next_actions] is a function of its six
    arguments whose result lists, in the fixed order of [all_actions] and
    without repetition, exactly these actions: a block's main action iff
    that block's return code is not "0", and a hint iff moreover its
    needle occurs in the block's raw output as an exact (case-sensitive)
    substring.  On rc = ("1","1","1") with the outputs "unused import",
    "incompatible types", "assertion error" the result is the six
    actions of the specification, in that order. *)
Theorem generate_next_actions_spec
    (lint_rc types_rc tests_rc lint_out types_out tests_out : string) :
  let actions :=
    generate_next_actions lint_rc types_rc tests_rc lint_out types_out tests_out in
  sublist actions all_actions ∧
  NoDup actions ∧
  (In "Corrigir erros de linting" actions ↔ lint_rc ≠ "0") ∧
  (In "Remover imports não utilizados" actions
     ↔ lint_rc ≠ "0" ∧ str_in "unused import" lint_out = true) ∧
  (In "Quebrar linhas muito longas" actions
     ↔ lint_rc ≠ "0" ∧ str_in "line too long" lint_out = true) ∧
  (In "Corrigir erros de type checking" actions ↔ types_rc ≠ "0") ∧
  (In "Adicionar anotações de tipo" actions
     ↔ types_rc ≠ "0" ∧ str_in "missing type annotation" types_out = true) ∧
  (In "Corrigir incompatibilidades de tipo" actions
     ↔ types_rc ≠ "0" ∧ str_in "incompatible types" types_out = true) ∧
  (In "Corrigir testes falhando" actions ↔ tests_rc ≠ "0") ∧
  (In "Verificar asserções dos testes" actions
     ↔ tests_rc ≠ "0" ∧ str_in "assertion error" tests_out = true) ∧
  (In "Verificar imports dos testes" actions
     ↔ tests_rc ≠ "0" ∧ str_in "import error" tests_out = true) ∧
  (∀ x, In x actions → In x all_actions) ∧
  generate_next_actions "1" "1" "1"
      "unused import" "incompatible types" "assertion error"
    = [ "Corrigir erros de linting"; "Remover imports não utilizados";
        "Corrigir erros de type checking"; "Corrigir incompatibilidades de tipo";
        "Corrigir testes falhando"; "Verificar asserções dos testes" ].
Proof.
  cbv zeta.
  split; [ apply generate_next_actions_ordered | ].
  split.
  { apply (sublist_NoDup _ all_actions);
      [ apply NoDup_all_actions | apply generate_next_actions_ordered ]. }
  repeat (split; [ in_actions | ]).
  split; [ | vm_compute; reflexivity ].
  intros x Hx. rewrite <- list_elem_of_In in *.
  eapply elem_of_sublist; [ exact Hx | apply generate_next_actions_ordered ].
Qed.

End write_qa_props.

(** ** The stage runner and the sequencer *)

Module orchestrator_props.
Import py py.notations orchestrator.

(** *** The stage runner *)

Lemma assign_some (w : World) (n : string) (upd : StageRecord → StageRecord) (r : StageRecord) :
  pipeline_status (self w) !! n = Some r →
  assign n upd w =
    (mkWorld (with_status (self w) (<[n := upd r]> (pipeline_status (self w))))
             (history w ++ [Assigned n (upd r)]), Ok tt).
Proof. intros H. unfold assign. rewrite H. reflexivity. Qed.

Lemma assign_none (w : World) (n : string) (upd : StageRecord → StageRecord) :
  pipeline_status (self w) !! n = None →
  assign n upd w = (w, Raise (KeyError n)).
Proof. intros H. unfold assign. rewrite H. reflexivity. Qed.

(** One assignment whose stage has a record: rewrite it away. *)
Ltac run_assign :=
  erewrite assign_some by (cbn; first [ eassumption | apply lookup_insert_eq ]);
  cbn [self history pipeline_status with_status project_root current_task metrics].

(** The runner on an operation that returns. *)
Lemma _run_stage_ok (env : Env) (w : World) (n : string) (r0 : StageRecord) :
  pipeline_status (self w) !! n = Some r0 →
  _run_stage env n (Ok tt) w =
    (mkWorld
       (with_status (self w)
          (<[n := mkStage "completed" (Some "100%") (error r0)]>
             (pipeline_status (self w))))
       (history w ++
          [ Assigned n (mkStage "running" (progress r0) (error r0));
            Assigned n (mkStage "running" (Some "0%") (error r0));
            Invoked n;
            Assigned n (mkStage "completed" (Some "0%") (error r0));
            Assigned n (mkStage "completed" (Some "100%") (error r0)) ]),
     Ok tt).
Proof.
  intros H. unfold _run_stage, try_except, bind, await.
  run_assign. run_assign. cbn. run_assign. run_assign.
  rewrite !insert_insert_eq, <- !app_assoc. reflexivity.
Qed.

(** The runner on an operation that raises an exception of class
    [Exception]. *)
Lemma _run_stage_raise (env : Env) (w : World) (n : string) (r0 : StageRecord)
    (e : exn) :
  pipeline_status (self w) !! n = Some r0 →
  is_Exception e = true →
  _run_stage env n (Raise e) w =
    (mkWorld
       (with_status (self w)
          (<[n := mkStage "failed" (Some "0%") (Some (str env e))]>
             (pipeline_status (self w))))
       (history w ++
          [ Assigned n (mkStage "running" (progress r0) (error r0));
            Assigned n (mkStage "running" (Some "0%") (error r0));
            Invoked n;
            Assigned n (mkStage "failed" (Some "0%") (error r0));
            Assigned n (mkStage "failed" (Some "0%") (Some (str env e))) ]),
     Raise e).
Proof.
  intros H He. unfold _run_stage, try_except, bind, await.
  run_assign. run_assign. cbn. rewrite He. run_assign. run_assign.
  rewrite !insert_insert_eq, <- !app_assoc. reflexivity.
Qed.

(** The runner on an operation that raises an exception outside class
    [Exception]: the handler is not entered. *)
Lemma _run_stage_pass (env : Env) (w : World) (n : string) (r0 : StageRecord)
    (e : exn) :
  pipeline_status (self w) !! n = Some r0 →
  is_Exception e = false →
  _run_stage env n (Raise e) w =
    (mkWorld
       (with_status (self w)
          (<[n := mkStage "running" (Some "0%") (error r0)]>
             (pipeline_status (self w))))
       (history w ++
          [ Assigned n (mkStage "running" (progress r0) (error r0));
            Assigned n (mkStage "running" (Some "0%") (error r0));
            Invoked n ]),
     Raise e).
Proof.
  intros H He. unfold _run_stage, try_except, bind, await.
  run_assign. run_assign. cbn. rewrite He.
  rewrite !insert_insert_eq, <- !app_assoc. reflexivity.
Qed.

(** The record and the events that the runner leaves when the operation
    raises [e]. *)
Lemma _run_stage_raises (env : Env) (w : World) (n : string) (r0 : StageRecord)
    (e : exn) :
  pipeline_status (self w) !! n = Some r0 →
  ∃ w' h,
    _run_stage env n (Raise e) w = (w', Raise e) ∧
    self w' = with_status (self w)
      (<[n := if is_Exception e
              then mkStage "failed" (Some "0%") (Some (str env e))
              else mkStage "running" (Some "0%") (error r0)]>
         (pipeline_status (self w))) ∧
    history w' = history w ++ h ∧
    Forall (λ ev, event_stage ev = n) h.
Proof.
  intros H. destruct (is_Exception e) eqn:He.
  - eexists _, _. split; [ by apply _run_stage_raise | ].
    cbn. split; [ reflexivity | ]. split; [ reflexivity | ]. by repeat constructor.
  - eexists _, _. split; [ by apply _run_stage_pass | ].
    cbn. split; [ reflexivity | ]. split; [ reflexivity | ]. by repeat constructor.
Qed.



(** The runner on a stage that has no record: the subscript raises
    [KeyError] in the [try] body and again in the handler, and nothing is
    assigned. *)
Lemma _run_stage_unknown (env : Env) (w : World) (n : string) (f : stage_func) :
  pipeline_status (self w) !! n = None →
  _run_stage env n f w = (w, Raise (KeyError n)).
Proof.
  intros H. unfold _run_stage, try_except, bind.
  rewrite (assign_none w n _ H). cbn. by rewrite (assign_none w n _ H).
Qed.

(** *** The sequencer *)

(** The loop over a list of stages whose first raising operation is
    that of [name]: by induction on the stages before it. *)
Lemma run_stages_halts (env : Env) (pre post : list (string * stage_func))
    (name : string) (e : exn) (w : World) :
  Forall (λ p, p.2 = Ok tt) pre →
  Forall (λ n, is_Some (pipeline_status (self w) !! n)) (pre.*1 ++ [name]) →
  NoDup (pre.*1 ++ [name]) →
  ∃ w', run_stages env (pre ++ (name, Raise e) :: post) w = (w', Raise e) ∧
        halted_at env pre name e w w'.
Proof.
  revert w. induction pre as [| [n1 f1] pre IH]; intros w Hok Hrec Hnd.
  - inversion Hrec as [| ? ? [r0 Hr0] _]; subst.
    destruct (_run_stage_raises env w name r0 e Hr0) as (w' & h & Hrun & Hself & Hh & Hev).
    exists w'. split.
    + cbn. unfold bind. by rewrite Hrun.
    + split; rewrite ?Hself; cbn.
      * done.
      * constructor.
      * exists r0. split; [ exact Hr0 | apply lookup_insert_eq ].
      * intros n _ Hn. by apply lookup_insert_ne.
      * exists h. split; [ exact Hh | ].
        eapply Forall_impl; [ exact Hev | ]. intros ev ->. set_solver.
  - inversion Hok as [| ? ? Hf1 Hok']; subst. cbn in Hf1. subst f1.
    inversion Hrec as [| ? ? [r1 Hr1] Hrec']; subst.
    cbn in Hnd. apply NoDup_cons in Hnd as [Hn1 Hnd].
    pose proof (_run_stage_ok env w n1 r1 Hr1) as Hrun.
    set (w1 := mkWorld _ _) in Hrun.
    assert (Hother : ∀ n, n ≠ n1 →
              pipeline_status (self w1) !! n = pipeline_status (self w) !! n).
    { intros n Hn. subst w1. cbn. by apply lookup_insert_ne. }
    destruct (IH w1 Hok') as (w' & Hrun' & H'); [ | exact Hnd | ].
    { apply Forall_forall. intros n Hn.
      rewrite Hother; [ | intros ->; contradiction ].
      rewrite Forall_forall in Hrec'. by apply Hrec'. }
    exists w'. split.
    + cbn. unfold bind. rewrite Hrun. exact Hrun'.
    + destruct H' as [Hfields Hcompl (r0 & Hr0 & Hstage) Hframe (h & Hh & Hev)].
      split.
      * exact Hfields.
      * constructor.
        -- exists r1. split; [ exact Hr1 | ]. cbn.
           rewrite Hframe; [ subst w1; cbn; apply lookup_insert_eq | set_solver | set_solver ].
        -- apply Forall_forall. intros p Hp.
           rewrite Forall_forall in Hcompl.
           destruct (Hcompl p Hp) as (r0' & Hp0 & Hp1).
           exists r0'. split; [ | exact Hp1 ].
           rewrite <- Hp0. symmetry. apply Hother.
           intros Heq. apply Hn1. apply elem_of_app. left.
           apply list_elem_of_fmap. exists p. by split.
      * exists r0. split; [ | exact Hstage ].
        rewrite <- Hr0. symmetry. apply Hother.
        intros ->. apply Hn1. set_solver.
      * intros n Hn Hne. cbn in Hn. apply not_elem_of_cons in Hn as [Hn Hn'].
        rewrite Hframe by assumption. by apply Hother.
      * exists ([ Assigned n1 (mkStage "running" (progress r1) (error r1));
                  Assigned n1 (mkStage "running" (Some "0%") (error r1));
                  Invoked n1;
                  Assigned n1 (mkStage "completed" (Some "0%") (error r1));
                  Assigned n1 (mkStage "completed" (Some "100%") (error r1)) ] ++ h).
        split.
        -- rewrite Hh. subst w1. cbn. by rewrite <- app_assoc.
        -- apply Forall_app. split.
           ++ repeat constructor; cbn; apply list_elem_of_here.
           ++ eapply Forall_impl; [ exact Hev | ].
              intros ev Hin. cbn. by apply list_elem_of_further.
Qed.

(** *** The precondition check *)

Lemma validate_ok (env : Env) (w : World) :
  path_exists env (issue_file env (self w)) = true →
  Forall (λ cli, is_Some (which env cli)) required_clis →
  _validate_environment env w = (w, Ok tt).
Proof.
  intros Hissue Hclis. unfold _validate_environment, bind, get.
  rewrite Hissue. cbn [negb ret].
  induction Hclis as [| cli l [path Hcli] _ IH]; [ reflexivity | ].
  cbn [for_each]. unfold bind, _command_exists. rewrite Hcli. cbn. exact IH.
Qed.

Lemma validate_fails (env : Env) (w : World) :
  path_exists env (issue_file env (self w)) = false ∨
  (∃ cli, cli ∈ required_clis ∧ which env cli = None) →
  ∃ e, _validate_environment env w = (w, Raise e) ∧ is_Exception e = true.
Proof.
  intros H. unfold _validate_environment, bind, get.
  destruct (path_exists env (issue_file env (self w))) eqn:Hissue; cbn [negb raise ret].
  - destruct H as [H | (cli & Hin & Hcli)]; [ discriminate | ].
    induction required_clis as [| c l IH]; [ by apply elem_of_nil in Hin | ].
    cbn [for_each]. unfold bind, _command_exists.
    destruct (which env c) eqn:Hc; cbn.
    + apply IH. apply elem_of_cons in Hin as [-> | Hin]; [ congruence | exact Hin ].
    + eexists. split; reflexivity.
  - eexists. split; reflexivity.
Qed.


Lemma stage_names_of_stages (fs : StageFuncs) : (stages fs).*1 = stage_names.
Proof. reflexivity. Qed.

Lemma NoDup_stage_names : NoDup stage_names.
Proof. unfold stage_names. repeat constructor; set_solver. Qed.

(** C4.  When the issue file of the task does not exist, or one of the
    required commands is not on the PATH, [run_pipeline] returns [False]
    to its caller, and no stage record is touched: [pipeline_status] is
    the map it was, and the history has no new assignment and no call of
    a stage operation.  (The task id is stored before the check.) *)
Theorem run_pipeline_precondition_failure
    (env : Env) (fs : StageFuncs) (task : string) (w : World) :
  path_exists env
    (joinpath env (joinpath env (project_root (self w)) "issues")
              (task +:+ ".md")) = false
  ∨ (∃ cli, cli ∈ required_clis ∧ which env cli = None) →
  ∃ w', run_pipeline env fs task w = (w', Ok false) ∧
        current_task (self w') = task ∧
        pipeline_status (self w') = pipeline_status (self w) ∧
        history w' = history w.
Proof.
  intros H.
  destruct (validate_fails env (started task w) H) as (e & He & Hclass).
  exists (started task w). split; [ | done ].
  unfold run_pipeline, bind, set_current_task, modify, try_except.
  fold (started task w). rewrite He, Hclass. reflexivity.
Qed.

(** C3.  Let the environment pass validation, let every stage have its
    record, and split the five stages as [pre ++ (name, Raise e) :: post]
    with all operations of [pre] returning, so that [name] is the first
    stage whose operation raises.  When [e] is of class [Exception],
    [run_pipeline] returns [False] and the record of [name] is "failed"
    with the error [str e].  When it is not (a cancellation), the
    [except Exception] clauses let it pass: [run_pipeline] raises [e]
    and the record of [name] is left at "running", progress "0%".  In
    both cases every later stage is left alone: its record is the one
    it had (so one that was "waiting" with no progress and no error
    remains so), and the history has no event of it: the run stopped
    at [name]. *)
Theorem run_pipeline_halts_at_first_failure
    (env : Env) (fs : StageFuncs) (task : string) (w : World)
    (pre post : list (string * stage_func)) (name : string) (e : exn) :
  path_exists env
    (joinpath env (joinpath env (project_root (self w)) "issues")
              (task +:+ ".md")) = true →
  Forall (λ cli, is_Some (which env cli)) required_clis →
  has_all_stages (self w) →
  stages fs = pre ++ (name, Raise e) :: post →
  Forall (λ p, p.2 = Ok tt) pre →
  ∃ w' h r0,
    run_pipeline env fs task w
      = (w', if is_Exception e then Ok false else Raise e) ∧
    history w' = history w ++ h ∧
    pipeline_status (self w) !! name = Some r0 ∧
    pipeline_status (self w') !! name
      = Some (if is_Exception e
              then mkStage "failed" (Some "0%") (Some (str env e))
              else mkStage "running" (Some "0%") (error r0)) ∧
    Forall (λ p, pipeline_status (self w') !! p.1
                   = pipeline_status (self w) !! p.1 ∧
                 (pipeline_status (self w) !! p.1 = Some waiting →
                  pipeline_status (self w') !! p.1 = Some waiting) ∧
                 Forall (λ ev, event_stage ev ≠ p.1) h) post.
Proof.
  intros Hissue Hclis Hall Hstages Hpre.
  assert (Hnames : pre.*1 ++ name :: post.*1 = stage_names).
  { rewrite <- (stage_names_of_stages fs), Hstages, fmap_app. reflexivity. }
  assert (Hnd : NoDup (pre.*1 ++ name :: post.*1)).
  { rewrite Hnames. apply NoDup_stage_names. }
  assert (Hnd' : NoDup (pre.*1 ++ [name])).
  { rewrite cons_middle, app_assoc in Hnd. by apply NoDup_app in Hnd as (? & _ & _). }
  destruct (run_stages_halts env pre post name e (started task w) Hpre)
    as (w' & Hrun & H').
  { unfold has_all_stages in Hall. rewrite <- Hnames in Hall.
    rewrite cons_middle, app_assoc in Hall. by apply Forall_app in Hall as [? _]. }
  { exact Hnd'. }
  destruct H' as [_ _ (r0 & Hr0 & Hstage) Hframe (h & Hh & Hev)].
  exists w', h, r0.
  split; [ | split; [ exact Hh | split; [ exact Hr0 | split; [ exact Hstage | ] ] ] ].
  - unfold run_pipeline, bind, set_current_task, modify, try_except.
    fold (started task w). rewrite (validate_ok env (started task w) Hissue Hclis).
    rewrite Hstages, Hrun. by destruct (is_Exception e).
  - apply Forall_forall. intros p Hp.
    assert (Hp1 : p.1 ∈ post.*1) by (apply list_elem_of_fmap; by exists p).
    rewrite cons_middle, app_assoc in Hnd.
    apply NoDup_app in Hnd as (_ & Hdisj & _).
    assert (Hnot : p.1 ∉ pre.*1 ++ [name]) by (intros Hin; by apply (Hdisj _ Hin)).
    assert (Heq : pipeline_status (self w') !! p.1 = pipeline_status (self w) !! p.1).
    { apply not_elem_of_app in Hnot as [Hn1 Hn2].
      rewrite Hframe; [ reflexivity | exact Hn1 | ].
      intros Hname. apply Hn2. rewrite Hname. apply list_elem_of_here. }
    split; [ exact Heq | split; [ by rewrite Heq | ] ].
    eapply Forall_impl; [ exact Hev | ]. intros ev Hin Heq'. apply Hnot. by rewrite <- Heq'.
Qed.

(** C5.  [_run_stage] on a stage with record [r0], whatever its status:
    the record is set to "running" and to progress "0%" before the
    operation is called.  After the call it is set to "completed" and
    progress "100%" when the operation returned, and to "failed" with
    error [str e] when it raised an [e] of class [Exception]; an [e]
    outside that class passes the [except Exception] clause, and the
    record stays at "running", progress "0%", with the error it had.
    The status changes of the run are: into "running" from the status
    the record had (from "waiting" when it was waiting; none when it
    was "running" already), then from "running" to the terminal status
    when there is one, with the call of the operation between them.
    The runner's own outcome is the operation's: it returns when the
    operation returned and re-raises [e], the record already updated,
    when the operation raised [e]. *)
Theorem _run_stage_transitions
    (env : Env) (w : World) (name : string) (f : stage_func) (r0 : StageRecord) :
  pipeline_status (self w) !! name = Some r0 →
  ∃ w' r_end ending,
    _run_stage env name f w = (w', f) ∧
    history w' = history w ++
      [ Assigned name (mkStage "running" (progress r0) (error r0));
        Assigned name (mkStage "running" (Some "0%") (error r0));
        Invoked name ] ++ ending ∧
    pipeline_status (self w') !! name = Some r_end ∧
    (status r0 = "waiting" →
     entered (status r0) = [("waiting", "running")]) ∧
    match f with
    | Ok _ =>
        ending = [ Assigned name (mkStage "completed" (Some "0%") (error r0));
                   Assigned name r_end ] ∧
        r_end = mkStage "completed" (Some "100%") (error r0) ∧
        transitions name (status r0) (drop (length (history w)) (history w'))
          = entered (status r0) ++ [("running", "completed")]
    | Raise e =>
        if is_Exception e then
          ending = [ Assigned name (mkStage "failed" (Some "0%") (error r0));
                     Assigned name r_end ] ∧
          r_end = mkStage "failed" (Some "0%") (Some (str env e)) ∧
          transitions name (status r0) (drop (length (history w)) (history w'))
            = entered (status r0) ++ [("running", "failed")]
        else
          ending = [] ∧
          r_end = mkStage "running" (Some "0%") (error r0) ∧
          transitions name (status r0) (drop (length (history w)) (history w'))
            = entered (status r0)
    end.
Proof.
  intros Hr0.
  assert (Hentered : status r0 = "waiting" →
                     entered (status r0) = [("waiting", "running")]).
  { by intros ->. }
  assert (Htr : ∀ tail,
    transitions name (status r0)
      ([ Assigned name (mkStage "running" (progress r0) (error r0));
         Assigned name (mkStage "running" (Some "0%") (error r0));
         Invoked name ] ++ tail)
    = entered (status r0) ++ transitions name "running" tail).
  { intros tail. cbn. rewrite String.eqb_refl. unfold entered. cbn.
    destruct (String.eqb_spec (status r0) "running") as [Heq | Hne]; cbn.
    - by rewrite Heq.
    - reflexivity. }
  destruct f as [[] | e].
  - eexists _, _, _.
    split; [ apply (_run_stage_ok env w name r0 Hr0) | ].
    cbn [history self pipeline_status with_status].
    split; [ reflexivity | ]. split; [ apply lookup_insert_eq | ].
    split; [ exact Hentered | ]. split; [ reflexivity | ]. split; [ reflexivity | ].
    rewrite drop_app_length. etrans; [ exact (Htr [_; _]) | ].
    cbn. by rewrite String.eqb_refl.
  - destruct (is_Exception e) eqn:He.
    + eexists _, _, _.
      split; [ apply (_run_stage_raise env w name r0 e Hr0 He) | ].
      cbn [history self pipeline_status with_status].
      split; [ reflexivity | ]. split; [ apply lookup_insert_eq | ].
      split; [ exact Hentered | ]. split; [ reflexivity | ]. split; [ reflexivity | ].
      rewrite drop_app_length. etrans; [ exact (Htr [_; _]) | ].
    cbn. by rewrite String.eqb_refl.
    + eexists _, _, [].
      split; [ apply (_run_stage_pass env w name r0 e Hr0 He) | ].
      cbn [history self pipeline_status with_status].
      split; [ reflexivity | ]. split; [ apply lookup_insert_eq | ].
      split; [ exact Hentered | ]. split; [ reflexivity | ]. split; [ reflexivity | ].
      rewrite drop_app_length. etrans; [ exact (Htr []) | ].
      cbn. by rewrite app_nil_r.
Qed.

(** C10.  A stage whose record carries an error message and whose
    operation now returns: [_run_stage] ends with status "completed",
    progress "100%" and the old error message still in place; no
    assignment of the run changes the error field. *)
Theorem _run_stage_keeps_error
    (env : Env) (w : World) (name msg : string) (r0 : StageRecord) :
  pipeline_status (self w) !! name = Some r0 →
  error r0 = Some msg →
  ∃ w' h,
    _run_stage env name (Ok tt) w = (w', Ok tt) ∧
    pipeline_status (self w') !! name
      = Some (mkStage "completed" (Some "100%") (Some msg)) ∧
    history w' = history w ++ h ∧
    Forall (λ ev, ∀ r, ev = Assigned name r → error r = Some msg) h.
Proof.
  intros Hr0 Herr. eexists _, _.
  split; [ apply (_run_stage_ok env w name r0 Hr0) | ].
  cbn [history self pipeline_status with_status]. rewrite Herr.
  split; [ apply lookup_insert_eq | ]. split; [ reflexivity | ].
  repeat constructor; intros r [= <-]; reflexivity.
Qed.


(** *** Sample runs *)

Lemma has_all_stages_init (root : string) : has_all_stages (__init__ root).
Proof. unfold has_all_stages, stage_names. repeat constructor; by eexists. Qed.

Lemma run_pipeline_precondition_failure_witness :
  ∃ w', run_pipeline env_no_issue coder_fails "T-1" world0 = (w', Ok false) ∧
        current_task (self w') = "T-1" ∧
        pipeline_status (self w') = pipeline_status (self world0) ∧
        history w' = history world0.
Proof.
  apply (run_pipeline_precondition_failure env_no_issue coder_fails "T-1" world0).
  left. reflexivity.
Defined.

Lemma run_pipeline_halts_at_first_failure_witness :
  ∃ w' h,
    run_pipeline env_ok coder_fails "T-1" world0 = (w', Ok false) ∧
    history w' = history world0 ++ h ∧
    pipeline_status (self w') !! "coder"
      = Some (mkStage "failed" (Some "0%") (Some "codex exited with status 1")) ∧
    Forall (λ p : string * stage_func, pipeline_status (self w') !! p.1
                   = pipeline_status (self world0) !! p.1 ∧
                 (pipeline_status (self world0) !! p.1 = Some waiting →
                  pipeline_status (self w') !! p.1 = Some waiting) ∧
                 Forall (λ ev, event_stage ev ≠ p.1) h)
           [("integrator", Ok tt); ("tester", Ok tt); ("reporter", Ok tt)].
Proof.
  destruct (run_pipeline_halts_at_first_failure env_ok coder_fails "T-1" world0
              [("planner", Ok tt)]
              [("integrator", Ok tt); ("tester", Ok tt); ("reporter", Ok tt)]
              "coder" (Exception "codex exited with status 1"))
    as (w' & h & r0 & Hrun & Hh & _ & Hstage & Hpost).
  - reflexivity.
  - repeat constructor; by eexists.
  - apply has_all_stages_init.
  - reflexivity.
  - repeat constructor.
  - exists w', h. split; [ exact Hrun | ]. split; [ exact Hh | ].
    split; [ exact Hstage | exact Hpost ].
Defined.

(** C3 as stated fails: the coder's operation is cancelled.  The
    exception is not of class [Exception]: [run_pipeline] does not
    return [False], it raises, and the coder is left at "running". *)
Lemma run_pipeline_cancelled_raises :
  stages coder_cancelled
    = [("planner", Ok tt); ("coder", Raise (BaseException ""));
       ("integrator", Ok tt); ("tester", Ok tt); ("reporter", Ok tt)] ∧
  (run_pipeline env_ok coder_cancelled "T-1" world0).2 = Raise (BaseException "") ∧
  (run_pipeline env_ok coder_cancelled "T-1" world0).2 ≠ Ok false ∧
  pipeline_status (self (run_pipeline env_ok coder_cancelled "T-1" world0).1)
    !! "coder" = Some (mkStage "running" (Some "0%") None).
Proof.
  split; [ reflexivity | ].
  split; [ vm_compute; reflexivity | ].
  split; [ vm_compute; discriminate | vm_compute; reflexivity ].
Qed.

Lemma _run_stage_transitions_witness :
  ∃ w',
    _run_stage env_ok "coder" (Raise (Exception "codex exited with status 1")) world0
      = (w', Raise (Exception "codex exited with status 1")) ∧
    transitions "coder" "waiting" (history w')
      = [ ("waiting", "running"); ("running", "failed") ] ∧
    pipeline_status (self w') !! "coder"
      = Some (mkStage "failed" (Some "0%") (Some "codex exited with status 1")).
Proof.
  destruct (_run_stage_transitions env_ok world0 "coder"
              (Raise (Exception "codex exited with status 1")) waiting eq_refl)
    as (w' & r_end & ending & Hrun & _ & Hps & _ & _ & -> & Htr).
  exists w'. split; [ exact Hrun | ]. split; [ exact Htr | exact Hps ].
Defined.

(** C5 as stated fails twice.  A stage that failed in an earlier run
    and now succeeds goes failed → running → completed: the runner never
    puts a record back to "waiting".  And a stage whose operation is
    cancelled is left at "running" with no error recorded: the only
    status change is waiting → running. *)
Lemma _run_stage_rerun_and_cancelled :
  pipeline_status (self world_failed) !! "coder"
    = Some (mkStage "failed" (Some "0%") (Some "codex exited with status 1")) ∧
  transitions "coder" "failed"
    (history (_run_stage env_ok "coder" (Ok tt) world_failed).1)
    = [ ("failed", "running"); ("running", "completed") ] ∧
  _run_stage env_ok "coder" (Raise (BaseException "")) world0
    = (mkWorld
         (with_status (self world0)
            (<["coder" := mkStage "running" (Some "0%") None]>
               (pipeline_status (self world0))))
         [ Assigned "coder" (mkStage "running" None None);
           Assigned "coder" (mkStage "running" (Some "0%") None);
           Invoked "coder" ],
       Raise (BaseException "")) ∧
  transitions "coder" "waiting"
    (history (_run_stage env_ok "coder" (Raise (BaseException "")) world0).1)
    = [ ("waiting", "running") ].
Proof.
  split; [ reflexivity | ].
  split; [ vm_compute; reflexivity | ].
  split; [ vm_compute; reflexivity | vm_compute; reflexivity ].
Qed.

Lemma _run_stage_keeps_error_witness :
  ∃ w',
    _run_stage env_ok "coder" (Ok tt) world_failed = (w', Ok tt) ∧
    pipeline_status (self w') !! "coder"
      = Some (mkStage "completed" (Some "100%")
                (Some "codex exited with status 1")).
Proof.
  destruct (_run_stage_keeps_error env_ok world_failed "coder"
              "codex exited with status 1"
              (mkStage "failed" (Some "0%") (Some "codex exited with status 1"))
              eq_refl eq_refl)
    as (w' & h & Hrun & Hps & _).
  exists w'. split; [ exact Hrun | exact Hps ].
Defined.

End orchestrator_props.

(** ** The status broadcaster *)

Module dashboard_props.
Import py py.notations json dashboard.

(** *** The broadcast *)

Lemma closes_only_tail (rt : Runtime) (n k : nat) :
  closes_only rt n (S k) → closes_only rt (S n) k.
Proof.
  intros H j Hj. replace (S n + j) with (n + S j) by lia. apply H. lia.
Qed.

(** The first loop on a network that only ever closes connections: by
    induction on the clients. *)
Lemma send_loop_closes_only (rt : Runtime) (cs : list Client) (text : string)
    (d : list Client) (w : World) :
  closes_only rt (sends w) (length cs) →
  send_loop rt cs text d w =
    (mkWorld (self w) (sends w + length cs) (clock w) (dumps w)
             (delivered w ++ map (λ c, (c, text)) (served rt (sends w) cs))
             (broadcasts w),
     Ok (d ++ closed rt (sends w) cs)).
Proof.
  revert d w. induction cs as [| c cs IH]; intros d w Hnet.
  - cbn. rewrite Nat.add_0_r, !app_nil_r. by destruct w.
  - pose proof (Hnet 0 ltac:(cbn; lia)) as H0. rewrite Nat.add_0_r in H0.
    apply closes_only_tail in Hnet.
    cbn [send_loop served closed]. unfold bind at 1, try_except, bind, send.
    destruct H0 as [H0 | H0]; rewrite H0; cbn.
    + rewrite IH by exact Hnet. cbn.
      rewrite <- app_assoc, Nat.add_succ_r. reflexivity.
    + rewrite IH by exact Hnet. cbn.
      rewrite <- app_assoc, Nat.add_succ_r. reflexivity.
Qed.

(** The second loop. *)
Lemma unregister_loop (ds : list Client) (w : World) :
  for_each ds unregister_client w =
    (on_self (set_clients (pruned (connected_clients (self w)) ds)) w, Ok tt).
Proof.
  revert w. induction ds as [| c ds IH]; intros w.
  - cbn. by destruct w as [[] ?].
  - cbn [for_each]. unfold bind at 1, unregister_client at 1, modify.
    rewrite IH. cbn. f_equal. unfold on_self. cbn.
    destruct (bool_decide (c ∈ connected_clients (self w))); reflexivity.
Qed.

(** A whole broadcast on such a network. *)
Lemma send_to_all_clients_closes_only (rt : Runtime)
    (message : gmap string value) (w : World) :
  let cs := connected_clients (self w) in
  closes_only rt (sends w) (length cs) →
  send_to_all_clients rt message w =
    (mkWorld (set_clients (pruned cs (closed rt (sends w) cs)) (self w))
             (sends w + length cs) (clock w)
             (match cs with [] => dumps w | _ => S (dumps w) end)
             (delivered w ++
                map (λ c, (c, json_dumps rt message)) (served rt (sends w) cs))
             (broadcasts w ++ [message]),
     Ok tt).
Proof.
  intros cs Hnet. subst cs.
  unfold send_to_all_clients, note_broadcast, modify, get, bind.
  cbn [self connected_clients].
  destruct (connected_clients (self w)) as [| c cs'] eqn:Hcs.
  - cbn. rewrite Nat.add_0_r, app_nil_r. f_equal. f_equal.
    destruct w as [[] ?]. cbn in *. by subst.
  - unfold dumps_message.
    rewrite send_loop_closes_only by exact Hnet.
    cbn [app]. rewrite unregister_loop.
    unfold on_self. cbn [self sends clock dumps delivered broadcasts].
    rewrite Hcs. reflexivity.
Qed.

(** The two shapes of network the claims speak of: every send succeeds;
    exactly the [k]-th finds its connection closed. *)
Lemma all_sent (rt : Runtime) (n : nat) (cs : list Client) :
  (∀ j, j < length cs → send_result rt (n + j) = Sent) →
  served rt n cs = cs ∧ closed rt n cs = [].
Proof.
  revert n. induction cs as [| c cs IH]; intros n H; [ done | ].
  pose proof (H 0 ltac:(cbn; lia)) as H0. rewrite Nat.add_0_r in H0.
  cbn. rewrite H0.
  destruct (IH (S n)) as [-> ->]; [ | done ].
  intros j Hj. replace (S n + j) with (n + S j) by lia. apply H. cbn. lia.
Qed.

Lemma one_closed (rt : Runtime) (n k : nat) (cs : list Client) (c : Client) :
  cs !! k = Some c →
  send_result rt (n + k) = Fails ConnectionClosed →
  (∀ j, j < length cs → j ≠ k → send_result rt (n + j) = Sent) →
  served rt n cs = delete k cs ∧ closed rt n cs = [c].
Proof.
  revert n k. induction cs as [| c0 cs IH]; intros n k Hk Hclosed Hsent; [ done | ].
  destruct k as [| k].
  - injection Hk as ->. rewrite Nat.add_0_r in Hclosed.
    cbn. rewrite Hclosed.
    destruct (all_sent rt (S n) cs) as [-> ->]; [ | done ].
    intros j Hj. replace (S n + j) with (n + S j) by lia.
    apply Hsent; cbn; lia.
  - pose proof (Hsent 0 ltac:(cbn; lia) ltac:(lia)) as H0.
    rewrite Nat.add_0_r in H0. cbn. rewrite H0.
    destruct (IH (S n) k) as [-> ->]; [ exact Hk | | | done ].
    + by replace (S n + k) with (n + S k) by lia.
    + intros j Hj Hne. replace (S n + j) with (n + S j) by lia.
      apply Hsent; cbn; lia.
Qed.

Lemma remove_first_delete (cs : list Client) (k : nat) (c : Client) :
  NoDup cs → cs !! k = Some c → remove_first c cs = delete k cs.
Proof.
  revert k. induction cs as [| c0 cs IH]; intros k Hnd Hk; [ done | ].
  apply NoDup_cons in Hnd as [Hc0 Hnd].
  destruct k as [| k]; cbn in *.
  - injection Hk as ->. by rewrite decide_True.
  - rewrite decide_False.
    + f_equal. by apply IH.
    + intros ->. apply Hc0. by eapply list_elem_of_lookup_2.
Qed.

Lemma one_closed_is_closes_only (rt : Runtime) (n k len : nat) :
  send_result rt (n + k) = Fails ConnectionClosed →
  (∀ j, j < len → j ≠ k → send_result rt (n + j) = Sent) →
  closes_only rt n len.
Proof.
  intros Hk Hsent j Hj. destruct (decide (j = k)) as [-> | Hne]; [ by right | ].
  left. by apply Hsent.
Qed.

(** C6, amended.  Let the registered clients be distinct and let exactly
    one send of a broadcast fail, that to the [k]-th client [c], with
    [ConnectionClosed].  Then [send_to_all_clients] returns normally;
    [c], and only [c], is unregistered, so N-1 clients remain; the
    message was serialised once and reached each of the others.  A
    following broadcast whose sends succeed returns normally, reaches
    each of the N-1 remaining clients and unregisters none. *)
Theorem send_to_all_clients_drops_closed (rt : Runtime) (w : World)
    (message message2 : gmap string value) (k : nat) (c : Client) :
  let cs := connected_clients (self w) in
  NoDup cs →
  cs !! k = Some c →
  send_result rt (sends w + k) = Fails ConnectionClosed →
  (∀ j, j < length cs → j ≠ k → send_result rt (sends w + j) = Sent) →
  (∀ j, j < length cs - 1 → send_result rt (sends w + length cs + j) = Sent) →
  ∃ w' w'',
    send_to_all_clients rt message w = (w', Ok tt) ∧
    connected_clients (self w') = delete k cs ∧
    (c ∉ connected_clients (self w')) ∧
    (∀ c', c' ∈ cs → c' ≠ c → c' ∈ connected_clients (self w')) ∧
    length (connected_clients (self w')) = length cs - 1 ∧
    dumps w' = S (dumps w) ∧
    broadcasts w' = broadcasts w ++ [message] ∧
    delivered w' =
      delivered w ++ map (λ c', (c', json_dumps rt message)) (delete k cs) ∧
    send_to_all_clients rt message2 w' = (w'', Ok tt) ∧
    connected_clients (self w'') = delete k cs ∧
    delivered w'' =
      delivered w' ++ map (λ c', (c', json_dumps rt message2)) (delete k cs).
Proof.
  intros cs Hnd Hk Hclosed Hsent Hnext.
  destruct (one_closed rt (sends w) k cs c Hk Hclosed Hsent) as [Hserved Hcl].
  assert (Hin : c ∈ cs) by (by eapply list_elem_of_lookup_2).
  assert (Hpruned : pruned cs [c] = delete k cs).
  { cbn. rewrite bool_decide_eq_true_2 by exact Hin.
    by apply remove_first_delete. }
  assert (Hlen : length (delete k cs) = length cs - 1).
  { rewrite length_delete; [ reflexivity | by eexists ]. }
  pose proof (send_to_all_clients_closes_only rt message w
                (one_closed_is_closes_only rt _ k _ Hclosed Hsent)) as Hrun.
  fold cs in Hrun. rewrite Hserved, Hcl, Hpruned in Hrun.
  set (w' := mkWorld _ _ _ _ _ _) in Hrun.
  assert (Hsent2 : ∀ j, j < length (connected_clients (self w')) →
                     send_result rt (sends w' + j) = Sent).
  { subst w'. cbn. rewrite Hlen. exact Hnext. }
  pose proof (send_to_all_clients_closes_only rt message2 w'
                (λ j Hj, or_introl (Hsent2 j Hj))) as Hrun2.
  destruct (all_sent rt (sends w') _ Hsent2) as [Hserved2 Hcl2].
  rewrite Hserved2, Hcl2 in Hrun2. cbn [pruned foldl] in Hrun2.
  eexists w', _. split; [ exact Hrun | ].
  assert (Hnot : c ∉ delete k cs).
  { intros Hc. apply list_elem_of_lookup in Hc as [j Hj].
    destruct (decide (j < k)).
    - rewrite list_lookup_delete_lt in Hj by done.
      pose proof (NoDup_lookup _ _ _ _ Hnd Hj Hk). lia.
    - rewrite list_lookup_delete_ge in Hj by lia.
      pose proof (NoDup_lookup _ _ _ _ Hnd Hj Hk). lia. }
  assert (Hkeep : ∀ c', c' ∈ cs → c' ≠ c → c' ∈ delete k cs).
  { intros c' Hc' Hne. apply list_elem_of_lookup in Hc' as [j Hj].
    apply list_elem_of_lookup.
    destruct (decide (j < k)).
    - exists j. by rewrite list_lookup_delete_lt.
    - assert (j ≠ k) by (intros ->; congruence).
      exists (j - 1). rewrite list_lookup_delete_ge by lia.
      by replace (S (j - 1)) with j by lia. }
  subst w'. cbn [self connected_clients set_clients dumps delivered broadcasts] in *.
  split; [ reflexivity | ]. split; [ exact Hnot | ]. split; [ exact Hkeep | ].
  split; [ exact Hlen | ]. split; [ by destruct cs | ].
  split; [ reflexivity | ]. split; [ reflexivity | ].
  split; [ exact Hrun2 | ]. done.
Qed.

(** *** The "start_pipeline" message *)

Lemma foldr_reset_lookup (l : list string) (ps : gmap string StageRecord) (n : string) :
  foldr (λ node ps', <[node := waiting]> ps') ps l !! n =
    if decide (n ∈ l) then Some waiting else ps !! n.
Proof.
  induction l as [| m l IH]; cbn.
  - rewrite decide_False; [ done | apply not_elem_of_nil ].
  - destruct (decide (m = n)) as [-> | Hne].
    + rewrite lookup_insert_eq, decide_True; [ done | apply list_elem_of_here ].
    + rewrite lookup_insert_ne by done. rewrite IH.
      destruct (decide (n ∈ l)) as [Hin | Hnin].
      * rewrite decide_True; [ done | by apply list_elem_of_further ].
      * rewrite decide_False; [ done | ].
        intros [Heq | Hin]%elem_of_cons; [ by subst | done ].
Qed.

(** The reset loop gives every stage that has a record the record
    [waiting], and adds no stage. *)
Lemma reset_pipeline_fmap (ps : gmap string StageRecord) :
  reset_pipeline ps = (λ _, waiting) <$> ps.
Proof.
  apply map_eq. intros n. unfold reset_pipeline.
  rewrite foldr_reset_lookup, lookup_fmap.
  destruct (ps !! n) as [r |] eqn:Hn; cbn.
  - rewrite decide_True; [ done | ].
    apply list_elem_of_fmap. exists (n, r). split; [ done | ].
    by apply elem_of_map_to_list.
  - rewrite decide_False; [ done | ].
    intros [[n' r] [-> Hin]]%list_elem_of_fmap.
    apply elem_of_map_to_list in Hin. cbn in Hn. congruence.
Qed.

(** Sending touches no field of the server. *)
Lemma send_loop_self (rt : Runtime) (cs : list Client) (text : string)
    (d : list Client) (w : World) :
  self (send_loop rt cs text d w).1 = self w ∧
  broadcasts (send_loop rt cs text d w).1 = broadcasts w.
Proof.
  revert d w. induction cs as [| c cs IH]; intros d w; [ done | ].
  cbn [send_loop]. unfold bind at 1 3, try_except, bind, send.
  destruct (send_result rt (sends w)) as [| [| msg]]; cbn.
  - destruct (IH d (mkWorld (self w) (S (sends w)) (clock w) (dumps w)
                      (delivered w ++ [(c, text)]) (broadcasts w))) as [-> ->].
    done.
  - destruct (IH (d ++ [c]) (mkWorld (self w) (S (sends w)) (clock w) (dumps w)
                      (delivered w) (broadcasts w))) as [-> ->].
    done.
  - done.
Qed.

(** Whatever the network does, a broadcast leaves the task and the
    stage records alone. *)
Lemma send_to_all_clients_frame (rt : Runtime) (message : gmap string value)
    (w : World) :
  current_task (self (send_to_all_clients rt message w).1) = current_task (self w) ∧
  pipeline_status (self (send_to_all_clients rt message w).1)
    = pipeline_status (self w).
Proof.
  unfold send_to_all_clients, note_broadcast, modify, get, bind.
  cbn [self connected_clients].
  destruct (connected_clients (self w)) as [| c cs'] eqn:Hcs; [ done | ].
  unfold dumps_message.
  match goal with |- context [send_loop ?rt ?cs ?t ?d ?w0] =>
    pose proof (send_loop_self rt cs t d w0) as [Hself _];
    destruct (send_loop rt cs t d w0) as [w1 [ds | e]] eqn:Hloop
  end; cbn in Hself |- *.
  - rewrite unregister_loop. cbn. by rewrite Hself.
  - by rewrite Hself.
Qed.

(** Whatever the network does, a broadcast is noted and touches no
    field of the server but the list of clients. *)
Lemma send_to_all_clients_self (rt : Runtime) (message : gmap string value)
    (w : World) :
  self (send_to_all_clients rt message w).1
    = set_clients (connected_clients (self (send_to_all_clients rt message w).1))
                  (self w) ∧
  broadcasts (send_to_all_clients rt message w).1 = broadcasts w ++ [message].
Proof.
  unfold send_to_all_clients, note_broadcast, modify, get, bind.
  cbn [self connected_clients broadcasts fst snd].
  destruct (connected_clients (self w)) as [| c cs] eqn:Hcs.
  { cbn. split; [ | done ]. destruct (self w); cbn in *. by rewrite Hcs. }
  rewrite <- Hcs. unfold dumps_message.
  match goal with |- context [send_loop ?rt ?cs ?t ?d ?w0] =>
    pose proof (send_loop_self rt cs t d w0) as [Hself Hb];
    destruct (send_loop rt cs t d w0) as [w2 [ds | e]]
  end; cbn [fst snd] in *.
  - rewrite unregister_loop. cbn. rewrite Hself, Hb. cbn.
    split; [ | done ]. by destruct (self w).
  - rewrite Hself, Hb. cbn. split; [ | done ]. by destruct (self w).
Qed.

(** The first loop of a broadcast when the client after [pre] is the
    first whose send raises an exception that is not
    [ConnectionClosed]: the loop ends there with that exception. *)
Lemma send_loop_error (rt : Runtime) (pre post : list Client) (c : Client)
    (text msg : string) (d : list Client) (w : World) :
  closes_only rt (sends w) (length pre) →
  send_result rt (sends w + length pre) = Fails (OtherException msg) →
  send_loop rt (pre ++ c :: post) text d w =
    (mkWorld (self w) (S (sends w + length pre)) (clock w) (dumps w)
             (delivered w ++ map (λ c, (c, text)) (served rt (sends w) pre))
             (broadcasts w),
     Raise (OtherException msg)).
Proof.
  revert d w. induction pre as [| p pre IH]; intros d w Hnet Herr.
  - cbn [app length send_loop served map]. rewrite Nat.add_0_r in *.
    unfold bind, try_except, bind, send. rewrite Herr. cbn.
    by rewrite app_nil_r.
  - pose proof (Hnet 0 ltac:(cbn; lia)) as H0. rewrite Nat.add_0_r in H0.
    apply closes_only_tail in Hnet.
    cbn [length] in Herr. rewrite Nat.add_succ_r in Herr.
    cbn [app length send_loop served map]. rewrite Nat.add_succ_r.
    unfold bind at 1, try_except, bind, send.
    destruct H0 as [H0 | H0]; rewrite H0; cbn [fst snd is_ConnectionClosed ret].
    + rewrite IH; cbn [sends self clock dumps delivered broadcasts];
        [ | exact Hnet | exact Herr ].
      by rewrite <- app_assoc.
    + rewrite IH; cbn [sends self clock dumps delivered broadcasts];
        [ | exact Hnet | exact Herr ].
      done.
Qed.

(** A broadcast in which the client after [pre] is the first whose
    send raises an exception that is not [ConnectionClosed]: the
    broadcast raises it, and the server is as it was. *)
Lemma send_to_all_clients_raises (rt : Runtime) (message : gmap string value)
    (w : World) (pre post : list Client) (c : Client) (msg : string) :
  connected_clients (self w) = pre ++ c :: post →
  closes_only rt (sends w) (length pre) →
  send_result rt (sends w + length pre) = Fails (OtherException msg) →
  send_to_all_clients rt message w =
    (mkWorld (self w) (S (sends w + length pre)) (clock w) (S (dumps w))
             (delivered w ++
                map (λ c, (c, json_dumps rt message)) (served rt (sends w) pre))
             (broadcasts w ++ [message]),
     Raise (OtherException msg)).
Proof.
  intros Hcs Hnet Herr.
  unfold send_to_all_clients, note_broadcast, modify, get, bind.
  cbn [self connected_clients]. rewrite Hcs.
  destruct (pre ++ c :: post) as [| c0 l] eqn:Hl; [ by destruct pre | ].
  rewrite <- Hl. unfold dumps_message.
  by rewrite send_loop_error with (msg := msg).
Qed.

(** The dispatch of [handle_client_message] on the message type. *)
Lemma handle_start_pipeline (rt : Runtime) (websocket : Client)
    (data : gmap string value) :
  data !! "type" = Some (JStr "start_pipeline") →
  handle_client_message rt websocket data = start_pipeline rt data.
Proof.
  intros Htype. unfold handle_client_message, dict_get. rewrite Htype.
  reflexivity.
Qed.

Lemma bind_cong {S E A B : Type} (c : M S E A) (k1 k2 : A → M S E B) (s : S) :
  (∀ s' a, c s = (s', Ok a) → k1 a s' = k2 a s') →
  bind c k1 s = bind c k2 s.
Proof.
  intros H. unfold bind. destruct (c s) as [s' [a | e]]; [ by apply H | done ].
Qed.

Lemma add_log_frame (rt : Runtime) (level message : string) (w : World) :
  current_task (self (add_log rt level message w).1) = current_task (self w) ∧
  pipeline_status (self (add_log rt level message w).1) = pipeline_status (self w).
Proof.
  unfold add_log, bind, now.
  match goal with |- context [send_to_all_clients rt ?m ?w0] =>
    apply (send_to_all_clients_frame rt m w0)
  end.
Qed.

(** The branch is: store the task, reset the records, announce. *)
Lemma start_pipeline_eq (rt : Runtime) (data : gmap string value)
    (task : string) (w : World) :
  data !! "task" = Some (JStr task) →
  start_pipeline rt data w = announce rt task (reset_world task w).
Proof.
  intros Htask. unfold start_pipeline, dict_get_default. rewrite Htask.
  unfold bind at 1, modify at 1. unfold bind at 1, modify at 1.
  unfold bind at 1, get at 1.
  cbn [default from_option id on_self self set_task set_pipeline current_task
       connected_clients pipeline_status metrics doc_status sends clock dumps
       delivered broadcasts].
  replace (on_self _ (on_self _ w)) with (reset_world task w)
    by (unfold on_self, reset_world; cbn; by rewrite reset_pipeline_fmap).
  unfold announce. apply bind_cong. intros s' [] Hrun.
  pose proof (add_log_frame rt "INFO"
    ("Starting pipeline for task: " +:+ format rt (JStr task))
    (reset_world task w)) as [Ht _].
  rewrite Hrun in Ht. cbn in Ht.
  unfold bind at 1, get. by rewrite Ht.
Qed.

Lemma announce_frame (rt : Runtime) (task : string) (w : World) :
  current_task (self (announce rt task w).1) = current_task (self w) ∧
  pipeline_status (self (announce rt task w).1) = pipeline_status (self w).
Proof.
  unfold announce, bind at 1 3.
  pose proof (add_log_frame rt "INFO"
    ("Starting pipeline for task: " +:+ format rt (JStr task)) w) as [Ht Hp].
  destruct (add_log _ _ _ w) as [w1 [[] | e]]; cbn [fst] in Ht, Hp;
    cbv beta iota; [ | done ].
  unfold bind, now.
  match goal with |- context [send_to_all_clients rt ?m ?w0] =>
    pose proof (send_to_all_clients_frame rt m w0) as [Ht' Hp']
  end. cbn [self] in Ht', Hp'. by rewrite Ht', Hp'.
Qed.

Lemma announce_closes_only (rt : Runtime) (task : string) (w : World) :
  (∀ n, send_result rt n = Sent ∨ send_result rt n = Fails ConnectionClosed) →
  let cs := connected_clients (self w) in
  let log_message :=
    dict [ ("type", JStr "log"); ("level", JStr "INFO");
           ("message", JStr ("Starting pipeline for task: "
                               +:+ format rt (JStr task)));
           ("timestamp", JStr (isoformat_now rt (clock w))) ] in
  let start_message :=
    pipeline_start_message (JStr task) (isoformat_now rt (S (clock w))) in
  (announce rt task w).2 = Ok tt ∧
  delivered (announce rt task w).1 =
    delivered w
    ++ map (λ c, (c, json_dumps rt log_message)) (served rt (sends w) cs)
    ++ map (λ c, (c, json_dumps rt start_message))
           (served rt (sends w + length cs) (pruned cs (closed rt (sends w) cs))).
Proof.
  intros Hnet. cbv zeta.
  unfold announce, bind at 1 3, add_log, bind at 1 3, now at 1 3.
  rewrite send_to_all_clients_closes_only by (intros j _; apply Hnet).
  cbn [self sends clock dumps delivered broadcasts connected_clients set_clients].
  unfold bind, now.
  rewrite send_to_all_clients_closes_only by (intros j _; apply Hnet).
  cbn. by rewrite <- !app_assoc.
Qed.

(** The two broadcasts of the announcement when the sends of the first
    succeed or find the connection closed. *)
Lemma announce_broadcasts (rt : Runtime) (task : string) (w : World) :
  closes_only rt (sends w) (length (connected_clients (self w))) →
  broadcasts (announce rt task w).1 =
    broadcasts w ++
    [ dict [ ("type", JStr "log"); ("level", JStr "INFO");
             ("message", JStr ("Starting pipeline for task: "
                                 +:+ format rt (JStr task)));
             ("timestamp", JStr (isoformat_now rt (clock w))) ];
      pipeline_start_message (JStr task) (isoformat_now rt (S (clock w))) ].
Proof.
  intros Hnet. unfold announce, bind at 1, add_log, bind at 1, now at 1.
  rewrite send_to_all_clients_closes_only by exact Hnet.
  cbn [self sends clock dumps delivered broadcasts connected_clients set_clients].
  unfold bind at 1, now.
  match goal with |- context [send_to_all_clients rt ?m ?w0] =>
    destruct (send_to_all_clients_self rt m w0) as [_ Hb]
  end.
  rewrite Hb. cbn. by rewrite <- app_assoc.
Qed.

(** The announcement when a send of the first broadcast raises an
    exception that is not [ConnectionClosed]: there is no second
    broadcast. *)
Lemma announce_raises (rt : Runtime) (task : string) (w : World)
    (pre post : list Client) (c : Client) (msg : string) :
  connected_clients (self w) = pre ++ c :: post →
  closes_only rt (sends w) (length pre) →
  send_result rt (sends w + length pre) = Fails (OtherException msg) →
  (announce rt task w).2 = Raise (OtherException msg) ∧
  broadcasts (announce rt task w).1 =
    broadcasts w ++
    [ dict [ ("type", JStr "log"); ("level", JStr "INFO");
             ("message", JStr ("Starting pipeline for task: "
                                 +:+ format rt (JStr task)));
             ("timestamp", JStr (isoformat_now rt (clock w))) ] ].
Proof.
  intros Hcs Hnet Herr. unfold announce, bind at 1 3, add_log, bind, now.
  rewrite send_to_all_clients_raises with (pre := pre) (post := post) (c := c)
                                          (msg := msg); done.
Qed.

(** C7.  A "start_pipeline" message for [task], on any prior state of
    the server: afterwards the current task is [task] and every stage
    record is "waiting" with progress and error [None], whatever the
    records were and whatever the network does.  The handler then
    broadcasts the log line.  When the sends of that broadcast succeed
    or find the connection closed, it goes on to broadcast the event
    [{"type": "pipeline_start", "task": task, "timestamp": ...}]; on a
    network whose sends all end so, the handler returns normally and
    the event is sent to every client still registered after the log
    line.  When a send of the log line raises another exception, the
    handler raises it after the reset, and no [pipeline_start] event is
    broadcast. *)
Theorem start_pipeline_resets (rt : Runtime) (websocket : Client)
    (data : gmap string value) (task : string) (w : World) :
  data !! "type" = Some (JStr "start_pipeline") →
  data !! "task" = Some (JStr task) →
  let w' := (handle_client_message rt websocket data w).1 in
  let cs := connected_clients (self w) in
  let log_message : gmap string value :=
    <["type" := JStr "log"]> (<["level" := JStr "INFO"]>
      (<["message" := JStr ("Starting pipeline for task: "
                              +:+ format rt (JStr task))]>
         (<["timestamp" := JStr (isoformat_now rt (clock w))]> ∅))) in
  let start_message : gmap string value :=
    <["type" := JStr "pipeline_start"]> (<["task" := JStr task]>
      (<["timestamp" := JStr (isoformat_now rt (S (clock w)))]> ∅)) in
  current_task (self w') = JStr task ∧
  pipeline_status (self w') = (λ _, waiting) <$> pipeline_status (self w) ∧
  (∀ n r, pipeline_status (self w) !! n = Some r →
          pipeline_status (self w') !! n = Some waiting) ∧
  (has_all_stages (self w) →
   Forall (λ n, pipeline_status (self w') !! n = Some waiting)
          orchestrator.stage_names) ∧
  (closes_only rt (sends w) (length cs) →
   broadcasts w' = broadcasts w ++ [log_message; start_message]) ∧
  ((∀ n, send_result rt n = Sent ∨ send_result rt n = Fails ConnectionClosed) →
   (handle_client_message rt websocket data w).2 = Ok tt ∧
   delivered w' =
     delivered w
     ++ map (λ c, (c, json_dumps rt log_message)) (served rt (sends w) cs)
     ++ map (λ c, (c, json_dumps rt start_message))
            (served rt (sends w + length cs)
               (pruned cs (closed rt (sends w) cs)))) ∧
  (∀ pre c post msg,
     cs = pre ++ c :: post →
     closes_only rt (sends w) (length pre) →
     send_result rt (sends w + length pre) = Fails (OtherException msg) →
     (handle_client_message rt websocket data w).2 = Raise (OtherException msg) ∧
     broadcasts w' = broadcasts w ++ [log_message]).
Proof.
  intros Htype Htask. cbv zeta.
  rewrite (handle_start_pipeline rt websocket data Htype).
  rewrite (start_pipeline_eq rt data task w Htask).
  destruct (announce_frame rt task (reset_world task w)) as [Ht Hp].
  cbn in Ht, Hp.
  split; [ exact Ht | ]. split; [ exact Hp | ].
  split; [ | split; [ | split; [ | split ] ] ].
  - intros n r Hn. rewrite Hp, lookup_fmap, Hn. reflexivity.
  - intros Hall. eapply Forall_impl; [ exact Hall | ].
    intros n [r Hn]. cbn beta. rewrite Hp, lookup_fmap, Hn. reflexivity.
  - intros Hnet. apply (announce_broadcasts rt task (reset_world task w) Hnet).
  - intros Hnet. apply (announce_closes_only rt task (reset_world task w) Hnet).
  - intros pre c post msg Hcs Hnet Herr.
    by apply (announce_raises rt task (reset_world task w) pre post c msg).
Qed.

(** *** Sample runs *)

(** C6 as stated fails: three clients, and exactly one send, the third,
    fails, with an exception that is not [ConnectionClosed].  The
    [except] clause does not name it: the broadcast raises it to its
    caller and unregisters nobody. *)
Lemma send_to_all_clients_error_propagates :
  connected_clients (self world3) = [1; 2; 3] ∧
  send_result rt_error 0 = Sent ∧
  send_result rt_error 1 = Sent ∧
  send_result rt_error 2 = Fails (OtherException "RuntimeError: transport failure") ∧
  (send_to_all_clients rt_error log_event world3).2
    = Raise (OtherException "RuntimeError: transport failure") ∧
  connected_clients (self (send_to_all_clients rt_error log_event world3).1)
    = [1; 2; 3].
Proof. repeat split; vm_compute; reflexivity. Qed.

Lemma send_to_all_clients_drops_closed_witness :
  ∃ w' w'',
    send_to_all_clients rt_closed log_event world3 = (w', Ok tt) ∧
    connected_clients (self w') = [1; 3] ∧
    send_to_all_clients rt_closed log_event w' = (w'', Ok tt) ∧
    delivered w'' = delivered w' ++ [(1, "{}"); (3, "{}")].
Proof.
  destruct (send_to_all_clients_drops_closed rt_closed world3 log_event log_event 1 2)
    as (w' & w'' & H1 & H2 & _ & _ & _ & _ & _ & _ & H3 & _ & H4).
  - repeat constructor; set_solver.
  - reflexivity.
  - reflexivity.
  - intros [| [| [| j]]] Hj Hne; first [ reflexivity | contradiction | cbn in Hj; lia ].
  - intros [| [| j]] Hj; first [ reflexivity | cbn in Hj; lia ].
  - exists w', w''. split; [ exact H1 | ]. split; [ exact H2 | ].
    split; [ exact H3 | exact H4 ].
Defined.

Lemma start_pipeline_resets_witness :
  current_task (self (handle_client_message rt_closed 1 start_request world3).1)
    = JStr "T-1" ∧
  pipeline_status (self (handle_client_message rt_closed 1 start_request world3).1)
    !! "coder" = Some waiting ∧
  broadcasts (handle_client_message rt_closed 1 start_request world3).1
    = [ <["type" := JStr "log"]> (<["level" := JStr "INFO"]>
          (<["message" := JStr "Starting pipeline for task: T-1"]>
             (<["timestamp" := JStr "2025-01-01T00:00:00"]> ∅)));
        <["type" := JStr "pipeline_start"]> (<["task" := JStr "T-1"]>
          (<["timestamp" := JStr "2025-01-01T00:00:00"]> ∅)) ].
Proof.
  destruct (start_pipeline_resets rt_closed 1 start_request "T-1" world3)
    as (H1 & _ & H3 & _ & H5 & _).
  - reflexivity.
  - reflexivity.
  - split; [ exact H1 | ]. split.
    + apply (H3 "coder" (mkStage "failed" (Some "0%") (Some "boom"))).
      reflexivity.
    + apply H5. intros j Hj. change (j < 3) in Hj.
      destruct j as [| [| [| j]]];
        [ left; reflexivity | right; reflexivity | left; reflexivity | lia ].
Defined.

(** C7 as stated fails: three clients, and the third send of the log
    line raises an exception that is not [ConnectionClosed].  The task
    is stored and the records are reset, but the handler raises and
    the only broadcast is the log line: no [pipeline_start] event. *)
Lemma start_pipeline_without_event :
  connected_clients (self world3) = [1; 2; 3] ∧
  send_result rt_error 2 = Fails (OtherException "RuntimeError: transport failure") ∧
  (handle_client_message rt_error 1 start_request world3).2
    = Raise (OtherException "RuntimeError: transport failure") ∧
  current_task (self (handle_client_message rt_error 1 start_request world3).1)
    = JStr "T-1" ∧
  broadcasts (handle_client_message rt_error 1 start_request world3).1
    = [ <["type" := JStr "log"]> (<["level" := JStr "INFO"]>
          (<["message" := JStr "Starting pipeline for task: T-1"]>
             (<["timestamp" := JStr "2025-01-01T00:00:00"]> ∅))) ] ∧
  Forall (λ m : gmap string value, m !! "type" ≠ Some (JStr "pipeline_start"))
    (broadcasts (handle_client_message rt_error 1 start_request world3).1).
Proof.
  split; [ reflexivity | ]. split; [ reflexivity | ].
  split; [ vm_compute; reflexivity | ]. split; [ vm_compute; reflexivity | ].
  assert (Hb : broadcasts (handle_client_message rt_error 1 start_request world3).1
    = [ <["type" := JStr "log"]> (<["level" := JStr "INFO"]>
          (<["message" := JStr "Starting pipeline for task: T-1"]>
             (<["timestamp" := JStr "2025-01-01T00:00:00"]> ∅))) ]).
  { vm_compute; reflexivity. }
  split; [ exact Hb | ]. rewrite Hb.
  repeat constructor. vm_compute. discriminate.
Qed.

End dashboard_props.

(** ** The configuration merge and the production trigger *)

Module config_props.
Import py py.notations json pydict config ci_cd_agent.

(** *** The dictionary loops *)

Section dict_lemmas.
Context {A B : Type}.

Lemma foldl_insert_lookup (g : string → A → B) (l : list (string * A))
    (m : gmap string B) (k : string) :
  NoDup l.*1 →
  foldl (λ m' kd, <[kd.1 := g kd.1 kd.2]> m') m l !! k =
    match (list_to_map l : gmap string A) !! k with
    | Some d => Some (g k d)
    | None => m !! k
    end.
Proof.
  revert m. induction l as [| [k0 d0] l IH]; intros m Hnd; [ done | ].
  cbn in Hnd. apply NoDup_cons in Hnd as [Hk0 Hnd].
  cbn [foldl list_to_map foldr fst snd]. rewrite IH by exact Hnd.
  destruct (decide (k0 = k)) as [-> | Hne].
  - rewrite (not_elem_of_list_to_map_1 _ _ Hk0), !lookup_insert_eq. done.
  - rewrite !lookup_insert_ne by done. done.
Qed.

Lemma foldl_setdefault_lookup (l : list (string * A)) (d : gmap string A)
    (k : string) :
  NoDup l.*1 →
  foldl (λ d' kv, setdefault d' kv.1 kv.2) d l !! k =
    match d !! k with
    | Some x => Some x
    | None => (list_to_map l : gmap string A) !! k
    end.
Proof.
  revert d. induction l as [| [k0 v0] l IH]; intros d Hnd.
  - cbn. by destruct (d !! k).
  - cbn in Hnd. apply NoDup_cons in Hnd as [Hk0 Hnd].
    cbn [foldl list_to_map foldr fst snd]. rewrite IH by exact Hnd.
    unfold setdefault.
    destruct (decide (k0 = k)) as [-> | Hne].
    + rewrite lookup_insert_eq.
      destruct (d !! k) as [x |] eqn:Hd; [ by rewrite Hd | ].
      by rewrite lookup_insert_eq.
    + rewrite (lookup_insert_ne (list_to_map l)) by done.
      destruct (d !! k0); [ done | ]. by rewrite lookup_insert_ne.
Qed.
End dict_lemmas.

(** The loops, as operations on maps. *)
Lemma fill_missing_union {A : Type} (d other : gmap string A) :
  fill_missing d other = d ∪ other.
Proof.
  apply map_eq. intros k. unfold fill_missing.
  rewrite foldl_setdefault_lookup by apply NoDup_fst_map_to_list.
  rewrite list_to_map_to_list, lookup_union.
  by destruct (d !! k), (other !! k).
Qed.

Lemma update_union {A : Type} (d other : gmap string A) :
  update d other = other ∪ d.
Proof.
  apply map_eq. intros k. unfold update.
  rewrite (foldl_insert_lookup (λ _ v, v)) by apply NoDup_fst_map_to_list.
  rewrite list_to_map_to_list, lookup_union.
  by destruct (d !! k), (other !! k).
Qed.

(** *** The merge *)

Lemma merge_section_eq (cfg : gmap string value) (key : string)
    (defaults : gmap string value) :
  merge_section cfg key defaults =
    match cfg !! key with
    | Some (JDict val) => JDict (val ∪ defaults)
    | _ => JDict defaults
    end.
Proof.
  unfold merge_section. destruct (cfg !! key) as [[] |]; try done.
  rewrite update_union, fill_missing_union. by rewrite (idemp (∪) defaults).
Qed.

Lemma merge_defaults_lookup (D : Defaults) (cfg : gmap string value) (k : string) :
  merge_defaults D cfg !! k =
    match D !! k with
    | Some defaults => Some (merge_section cfg k defaults)
    | None => cfg !! k
    end.
Proof.
  unfold merge_defaults. rewrite fill_missing_union, lookup_union.
  rewrite (foldl_insert_lookup (merge_section cfg)) by apply NoDup_fst_map_to_list.
  rewrite list_to_map_to_list, lookup_empty.
  destruct (D !! k); [ | by destruct (cfg !! k) ].
  by destruct (cfg !! k).
Qed.

(** C9 as stated fails: the input has the key "logging", with a string
    for its value, and the merged result does not keep that value: the
    section is replaced by the default logging section. *)
Lemma merge_defaults_replaces_non_dict_section :
  let cfg : gmap string value := {[ "logging" := JStr "logs/custom.log" ]} in
  cfg !! "logging" = Some (JStr "logs/custom.log") ∧
  merge_defaults git_agent.DEFAULT_CONFIG cfg !! "logging"
    = Some (JDict {[ "log_file" := JStr "logs/git-automation.log" ]}) ∧
  merge_defaults git_agent.DEFAULT_CONFIG cfg !! "logging"
    ≠ Some (JStr "logs/custom.log").
Proof.
  cbv zeta. split; [ reflexivity | ].
  split; [ vm_compute; reflexivity | vm_compute; discriminate ].
Qed.

(** C9, amended.  For every configuration dictionary [cfg] and the
    merge against the defaults [D]: a default section that [cfg] lacks,
    or gives as something that is not a dictionary, is the default
    section; a default section that [cfg] gives as a dictionary has
    every key of [cfg]'s section with the provided value and every
    other key with its default (keys of the section that the defaults
    do not know included); and every top-level key that is not a
    default section is in the result exactly as in [cfg]. *)
Theorem merge_defaults_spec (D : Defaults) (cfg : gmap string value) :
  let merged := merge_defaults D cfg in
  (∀ sec defaults,
     D !! sec = Some defaults →
     cfg !! sec = None ∨ (∃ v, cfg !! sec = Some v ∧ is_dict v = false) →
     merged !! sec = Some (JDict defaults)) ∧
  (∀ sec defaults val,
     D !! sec = Some defaults →
     cfg !! sec = Some (JDict val) →
     ∃ section,
       merged !! sec = Some (JDict section) ∧
       (∀ k v, val !! k = Some v → section !! k = Some v) ∧
       (∀ k, val !! k = None → section !! k = defaults !! k)) ∧
  (∀ k, D !! k = None → merged !! k = cfg !! k).
Proof.
  cbv zeta. split; [ | split ].
  - intros sec defaults HD Hcfg.
    rewrite merge_defaults_lookup, HD, merge_section_eq.
    destruct Hcfg as [-> | (v & -> & Hv)]; [ done | ].
    by destruct v.
  - intros sec defaults val HD Hcfg.
    rewrite merge_defaults_lookup, HD, merge_section_eq, Hcfg.
    eexists. split; [ reflexivity | ]. split.
    + intros k v Hk. by apply lookup_union_Some_l.
    + intros k Hk. by apply lookup_union_r.
  - intros k HD. by rewrite merge_defaults_lookup, HD.
Qed.

(** A configuration as [_load_config] returns it has every default
    section as a dictionary with every default key. *)
Lemma loaded_subscript (D : Defaults) (f : file_read) (cfg : gmap string value)
    (sec key : string) (defaults : gmap string value) (d : value) :
  config._load_config D f = Ok cfg →
  D !! sec = Some defaults →
  defaults !! key = Some d →
  ∃ v, subscript2 cfg sec key = Ok v ∧
       (v = d ∨
        ∃ c val, f = Loaded (JDict c) ∧ c !! sec = Some (JDict val) ∧
                 val !! key = Some v).
Proof.
  intros Hload HD Hd.
  assert (Hdefault : subscript2 (copy_defaults D) sec key = Ok d).
  { unfold subscript2, copy_defaults. by rewrite lookup_fmap, HD; cbn; rewrite Hd. }
  destruct f as [| | [| | | | | | c] | msg]; cbn in Hload; try discriminate;
    injection Hload as <-; try (exists d; split; [ exact Hdefault | by left ]).
  unfold subscript2.
  rewrite merge_defaults_lookup, HD, merge_section_eq.
  destruct (c !! sec) as [[| | | | | | val] |] eqn:Hc;
    try (rewrite Hd; exists d; split; [ done | by left ]).
  rewrite lookup_union. destruct (val !! key) as [v |] eqn:Hv.
  - exists v. rewrite Hd. split; [ done | ]. right. by exists c, val.
  - exists d. rewrite Hd. split; [ done | by left ].
Qed.


(** *** The production trigger *)

Lemma trigger_short_circuit (run : list string → run_outcome)
    (cfg : gmap string value) (task_id : string) (calls : list (list string))
    (auto approval : value) :
  subscript2 cfg "ci_cd" "auto_deploy_production" = Ok auto →
  subscript2 cfg "security" "require_manual_approval" = Ok approval →
  truthy approval = true →
  trigger_production_deploy run cfg task_id calls = (calls, Ok true).
Proof.
  intros Hauto Happroval Htruthy.
  unfold trigger_production_deploy, try_except, bind, config_get.
  by rewrite Hauto, Happroval, Htruthy.
Qed.

Lemma trigger_proceeds (run : list string → run_outcome)
    (cfg : gmap string value) (task_id : string) (calls : list (list string))
    (auto approval : value) :
  subscript2 cfg "ci_cd" "auto_deploy_production" = Ok auto →
  subscript2 cfg "security" "require_manual_approval" = Ok approval →
  truthy approval = false →
  trigger_production_deploy run cfg task_id calls
    = triggered run cfg task_id "deploy-production" false calls.
Proof.
  intros Hauto Happroval Htruthy.
  unfold trigger_production_deploy, triggered, try_except, bind at 1 2, config_get.
  rewrite Hauto, Happroval, Htruthy. cbn match.
  unfold bind at 1, _check_github_cli, try_except, bind at 1, subprocess_run.
  fold gh_version.
  destruct (run gh_version) as [rc err | | msg]; cbn; [ | done | done ].
  destruct (Z.eqb rc 0); cbn; [ | done ].
  unfold bind at 1.
  destruct (subscript2 cfg "ci_cd" "github_actions_workflow") as [[] | e]; cbn;
    try done.
  unfold bind.
  destruct (run _) as [rc' err' | | msg']; cbn; unfold ret;
    rewrite <- app_assoc; [ | done | done ].
  by destruct (Z.eqb rc' 0).
Qed.

Lemma deploy_staging_proceeds (run : list string → run_outcome)
    (cfg : gmap string value) (task_id branch_name : string)
    (calls : list (list string)) (auto : value) :
  subscript2 cfg "ci_cd" "auto_deploy_staging" = Ok auto →
  truthy auto = true →
  deploy_staging run cfg task_id branch_name calls
    = triggered run cfg task_id "deploy-staging" true calls.
Proof.
  intros Hauto Htruthy.
  unfold deploy_staging, triggered, try_except, bind at 1, config_get.
  rewrite Hauto, Htruthy. cbn match.
  unfold bind at 1, _check_github_cli, try_except, bind at 1, subprocess_run.
  fold gh_version.
  destruct (run gh_version) as [rc err | | msg]; cbn; [ | done | done ].
  destruct (Z.eqb rc 0); cbn; [ | done ].
  unfold bind at 1.
  destruct (subscript2 cfg "ci_cd" "github_actions_workflow") as [[] | e]; cbn;
    try done.
  unfold bind.
  destruct (run _) as [rc' err' | | msg']; cbn; unfold ret;
    rewrite <- app_assoc; [ | done | done ].
  by destruct (Z.eqb rc' 0).
Qed.

(** C8.  For the configuration that [_load_config] returns, whatever
    the file: [security.require_manual_approval] is there, and it is
    [True] unless the file gives a dictionary (the documented default).
    When it is true, [trigger_production_deploy] returns [True] and runs
    no command at all.  Only when it is false does the trigger proceed,
    and then as a staging deploy does: both probe the GitHub CLI and run
    the workflow as [triggered] describes, for the actions
    "deploy-production" and "deploy-staging", and they differ in what
    they return when an exception is raised. *)
Theorem trigger_production_deploy_spec (run : list string → run_outcome)
    (f : file_read) (cfg : gmap string value) (task_id : string)
    (calls : list (list string)) :
  ci_cd_agent._load_config f = Ok cfg →
  ∃ approval,
    subscript2 cfg "security" "require_manual_approval" = Ok approval ∧
    ((∀ c, f ≠ Loaded (JDict c)) → approval = JBool true) ∧
    (truthy approval = true →
       trigger_production_deploy run cfg task_id calls = (calls, Ok true)) ∧
    (truthy approval = false →
       trigger_production_deploy run cfg task_id calls
         = triggered run cfg task_id "deploy-production" false calls ∧
       ∀ branch_name auto,
         subscript2 cfg "ci_cd" "auto_deploy_staging" = Ok auto →
         truthy auto = true →
         deploy_staging run cfg task_id branch_name calls
           = triggered run cfg task_id "deploy-staging" true calls).
Proof.
  intros Hload.
  destruct (loaded_subscript DEFAULT_CONFIG f cfg "ci_cd" "auto_deploy_production"
              _ (JBool false) Hload eq_refl eq_refl) as (auto & Hauto & _).
  destruct (loaded_subscript DEFAULT_CONFIG f cfg "security" "require_manual_approval"
              _ (JBool true) Hload eq_refl eq_refl) as (approval & Happroval & Hwhich).
  exists approval. split; [ exact Happroval | ]. split; [ | split ].
  - intros Hf. destruct Hwhich as [-> | (c & val & -> & _)]; [ done | ].
    by destruct (Hf c).
  - intros Htruthy. by eapply trigger_short_circuit.
  - intros Htruthy. split; [ by eapply trigger_proceeds | ].
    intros branch_name auto' Hauto' Htruthy'. by eapply deploy_staging_proceeds.
Qed.

Lemma trigger_production_deploy_spec_witness :
  (∃ cfg, ci_cd_agent._load_config NoSuchFile = Ok cfg ∧
          trigger_production_deploy run_ok cfg "T-1" [] = ([], Ok true)) ∧
  (∃ cfg, ci_cd_agent._load_config approval_off = Ok cfg ∧
          trigger_production_deploy run_ok cfg "T-1" [] =
            ([ gh_version;
               workflow_command "maestro-automation.yml" "T-1" "deploy-production" ],
             Ok true)).
Proof.
  split.
  - eexists. split; [ reflexivity | ].
    destruct (trigger_production_deploy_spec run_ok NoSuchFile _ "T-1" [] eq_refl)
      as (approval & Happroval & Hdefault & Hshort & _).
    apply Hshort. rewrite Hdefault; [ reflexivity | discriminate ].
  - eexists. split; [ reflexivity | ].
    destruct (trigger_production_deploy_spec run_ok approval_off _ "T-1" [] eq_refl)
      as (approval & Happroval & _ & _ & Hproceed).
    assert (Hfalse : truthy approval = false).
    { vm_compute in Happroval. by injection Happroval as <-. }
    destruct (Hproceed Hfalse) as [-> _]. vm_compute. reflexivity.
Defined.

Lemma merge_defaults_spec_witness :
  let merged := merge_defaults DEFAULT_CONFIG sample_config in
  merged !! "logging"
    = Some (JDict (section [ ("log_file", JStr "logs/ci-cd-automation.log") ])) ∧
  merged !! "team" = Some (JStr "core") ∧
  ∃ security,
    merged !! "security" = Some (JDict security) ∧
    security !! "max_diff_lines" = Some (JInt 50) ∧
    security !! "require_manual_approval" = Some (JBool true).
Proof.
  destruct (merge_defaults_spec DEFAULT_CONFIG sample_config) as (Habsent & Hgiven & Hextra).
  split; [ | split ].
  - apply (Habsent "logging"); [ reflexivity | by left ].
  - rewrite (Hextra "team"); reflexivity.
  - destruct (Hgiven "security" _ (section [ ("max_diff_lines", JInt 50) ])
                eq_refl eq_refl) as (security & Hsec & Hkept & Hfilled).
    exists security. split; [ exact Hsec | ]. split.
    + by apply Hkept.
    + by rewrite Hfilled.
Defined.

End config_props.

(** ** The QA report: status against actions, and the error counters *)

Module write_qa_more_props.
Import write_qa write_qa_props write_qa_counts.

Lemma block_nil (rc main n1 h1 n2 h2 out : string) :
  block rc main n1 h1 n2 h2 out = [] ↔ rc = "0".
Proof.
  unfold block, str_ne.
  destruct (String.eqb rc "0") eqn:Hrc; cbn.
  - apply eqb_zero_true in Hrc. done.
  - apply eqb_zero_false in Hrc. split; [ done | intros; contradiction ].
Qed.

Lemma block_head (rc main n1 h1 n2 h2 out : string) :
  rc ≠ "0" → ∃ rest, block rc main n1 h1 n2 h2 out = main :: rest.
Proof.
  intros Hrc. unfold block. apply str_ne_zero in Hrc. rewrite Hrc. eauto.
Qed.

Lemma determine_status_by_rc (lint_rc types_rc tests_rc : string) :
  (determine_status lint_rc types_rc tests_rc = "pass"
     ↔ lint_rc = "0" ∧ types_rc = "0" ∧ tests_rc = "0") ∧
  (determine_status lint_rc types_rc tests_rc = "soft-fail"
     ↔ lint_rc = "0" ∧ types_rc = "0" ∧ tests_rc ≠ "0") ∧
  (determine_status lint_rc types_rc tests_rc = "fail"
     ↔ ¬ (lint_rc = "0" ∧ types_rc = "0")).
Proof.
  unfold determine_status.
  destruct (String.eqb_spec lint_rc "0"), (String.eqb_spec types_rc "0"),
    (String.eqb_spec tests_rc "0"); cbn; intuition congruence.
Qed.

(** X1.  The status of a report and its next actions agree: the status
    is "pass" exactly when there is no action, "soft-fail" exactly when
    the first action is the one for failing tests, and "fail" exactly
    when the first action is the one for lint errors or the one for
    type errors. *)
Theorem status_matches_next_actions
    (lint_rc types_rc tests_rc lint_out types_out tests_out : string) :
  let status := determine_status lint_rc types_rc tests_rc in
  let actions :=
    generate_next_actions lint_rc types_rc tests_rc lint_out types_out tests_out in
  (status = "pass" ↔ actions = []) ∧
  (status = "soft-fail" ↔ head actions = Some "Corrigir testes falhando") ∧
  (status = "fail" ↔ head actions = Some "Corrigir erros de linting"
                     ∨ head actions = Some "Corrigir erros de type checking").
Proof.
  cbv zeta.
  destruct (determine_status_by_rc lint_rc types_rc tests_rc)
    as (Hpass & Hsoft & Hfail).
  rewrite Hpass, Hsoft, Hfail, generate_next_actions_blocks.
  destruct (decide (lint_rc = "0")) as [Hl | Hl].
  - rewrite (proj2 (block_nil lint_rc _ _ _ _ _ lint_out) Hl). cbn [app].
    destruct (decide (types_rc = "0")) as [Ht | Ht].
    + rewrite (proj2 (block_nil types_rc _ _ _ _ _ types_out) Ht). cbn [app].
      destruct (decide (tests_rc = "0")) as [Hs | Hs].
      * rewrite (proj2 (block_nil tests_rc _ _ _ _ _ tests_out) Hs). cbn.
        intuition congruence.
      * destruct (block_head tests_rc "Corrigir testes falhando"
                    "assertion error" "Verificar asserções dos testes"
                    "import error" "Verificar imports dos testes" tests_out Hs)
          as [rest ->].
        cbn. intuition congruence.
    + destruct (block_head types_rc "Corrigir erros de type checking"
                  "missing type annotation" "Adicionar anotações de tipo"
                  "incompatible types" "Corrigir incompatibilidades de tipo"
                  types_out Ht) as [rest ->].
      cbn. intuition congruence.
  - destruct (block_head lint_rc "Corrigir erros de linting"
                "unused import" "Remover imports não utilizados"
                "line too long" "Quebrar linhas muito longas" lint_out Hl)
      as [rest ->].
    cbn. intuition congruence.
Qed.

(** *** The error counters *)

Lemma split_lines_cons (s : string) : ∃ line lines, split_lines s = line :: lines.
Proof.
  induction s as [| c s (line & lines & IH)]; cbn; [ eauto | ].
  destruct (Ascii.eqb c LF); [ eauto | ]. rewrite IH. eauto.
Qed.

Lemma split_lines_join (a b : string) :
  split_lines (a +:+ String LF b) = split_lines a ++ split_lines b.
Proof.
  induction a as [| c a IH]; cbn [String.append split_lines].
  - reflexivity.
  - change (String c a +:+ String LF b) with (String c (a +:+ String LF b)).
    cbn [split_lines]. rewrite IH. destruct (Ascii.eqb c LF); [ reflexivity | ].
    destruct (split_lines_cons a) as (line & lines & ->). reflexivity.
Qed.

Lemma count_lines (output : string) :
  extract_lint_errors output = length (filter counts (split_lines output)).
Proof.
  unfold extract_lint_errors.
  destruct (String.eqb output "") eqn:He; [ | reflexivity ].
  apply String.eqb_eq in He. subst. reflexivity.
Qed.

(** X2.  Both error counters are additive over lines: the count of two
    outputs joined by a line feed is the sum of their counts. *)
Theorem extract_lint_errors_join (a b : string) :
  extract_lint_errors (a +:+ String LF b)
    = extract_lint_errors a + extract_lint_errors b ∧
  extract_type_errors (a +:+ String LF b)
    = extract_type_errors a + extract_type_errors b.
Proof.
  assert (H : extract_lint_errors (a +:+ String LF b)
              = extract_lint_errors a + extract_lint_errors b).
  { rewrite !count_lines, split_lines_join, filter_app, length_app. reflexivity. }
  split; [ exact H | exact H ].
Qed.

Lemma lower_LF (c : ascii) : Ascii.eqb (lower_ascii c) LF = Ascii.eqb c LF.
Proof.
  destruct c as [[] [] [] [] [] [] [] []]; reflexivity.
Qed.

Lemma split_lines_lower (s : string) :
  split_lines (lower s) = lower <$> split_lines s.
Proof.
  induction s as [| c s IH]; cbn; [ reflexivity | ].
  rewrite lower_LF, IH. destruct (Ascii.eqb c LF); [ reflexivity | ].
  destruct (split_lines_cons s) as (line & lines & ->). reflexivity.
Qed.

(** A needle that has no line feed lies in a text iff it lies in one of
    its lines. *)
Lemma prefix_first_line (needle s line : string) (lines : list string) :
  one_line needle = true →
  split_lines s = line :: lines →
  String.prefix needle s = String.prefix needle line.
Proof.
  revert s line lines. induction needle as [| a needle IH]; intros s line lines Hn Hs.
  - by destruct s, line.
  - cbn in Hn. apply andb_true_iff in Hn as [Ha Hn]. apply negb_true_iff in Ha.
    destruct s as [| c s]; cbn in Hs.
    + injection Hs as <- <-. reflexivity.
    + destruct (Ascii.eqb c LF) eqn:Hc.
      * injection Hs as <- <-. cbn.
        destruct (Ascii.ascii_dec a c) as [-> | Hne]; [ congruence | reflexivity ].
      * destruct (split_lines_cons s) as (l0 & ls & Hl). rewrite Hl in Hs.
        injection Hs as <- <-. cbn.
        destruct (Ascii.ascii_dec a c); [ | reflexivity ].
        by apply (IH s l0 ls).
Qed.

Lemma str_in_lines (needle s : string) :
  one_line needle = true → needle ≠ "" →
  str_in needle s = existsb (str_in needle) (split_lines s).
Proof.
  intros Hn Hne. induction s as [| c s IH].
  - cbn. by destruct needle.
  - destruct (split_lines_cons s) as (l0 & ls & Hl).
    cbn [str_in split_lines].
    destruct (Ascii.eqb c LF) eqn:Hc.
    + cbn [existsb str_in]. rewrite <- IH.
      assert (String.prefix needle (String c s) = false) as ->.
      { destruct needle as [| a needle]; [ done | ]. cbn in Hn |- *.
        apply andb_true_iff in Hn as [Ha _]. apply negb_true_iff in Ha.
        destruct (Ascii.ascii_dec a c) as [-> | ?]; [ congruence | reflexivity ]. }
      assert (String.prefix needle "" = false) as -> by (by destruct needle).
      reflexivity.
    + rewrite Hl. cbn [existsb str_in].
      rewrite IH, Hl. cbn [existsb].
      rewrite (prefix_first_line needle (String c s) (String c l0) ls Hn).
      * by rewrite orb_assoc.
      * cbn. by rewrite Hc, Hl.
Qed.

(** X3.  Both error counters return 0 exactly when the output,
    lower-cased, has no "error" anywhere, and never more than the
    number of lines. *)
Theorem extract_lint_errors_zero (output : string) :
  (extract_lint_errors output = 0 ↔ str_in "error" (lower output) = false) ∧
  (extract_type_errors output = 0 ↔ str_in "error" (lower output) = false) ∧
  extract_lint_errors output ≤ length (split_lines output).
Proof.
  assert (H : extract_lint_errors output = 0 ↔ str_in "error" (lower output) = false).
  { rewrite count_lines, (str_in_lines "error") by done.
    rewrite split_lines_lower.
    induction (split_lines output) as [| line lines IH]; [ done | ].
    rewrite filter_cons. cbn [fmap list_fmap existsb].
    destruct (decide (counts line)) as [Hc | Hc]; unfold counts in Hc.
    - rewrite Hc. cbn. done.
    - apply not_true_is_false in Hc. rewrite Hc. cbn. exact IH. }
  split; [ exact H | ]. split; [ exact H | ].
  rewrite count_lines. apply length_filter.
Qed.

End write_qa_more_props.

(** ** Whole runs of the sequencer *)

Module orchestrator_more_props.
Import py py.notations orchestrator orchestrator_props orchestrator_runs.

Lemma kept_refl (passed : bool) (w : World) : kept passed w w.
Proof.
  split; try done. intros n. destruct (pipeline_status (self w) !! n) as [r |];
    [ exists r; split; [ done | by left ] | done ].
Qed.

Lemma settled_trans (p1 p2 : bool) (r1 r2 r3 : StageRecord) :
  settled p1 r1 r2 → settled p2 r2 r3 → settled (p1 || p2) r1 r3.
Proof.
  unfold settled. intros [-> | H12] [-> | H23].
  - by left.
  - right. destruct H23 as [? | [? | [-> ?]]]; [ tauto | tauto | ].
    right. right. by rewrite orb_true_r.
  - right. destruct H12 as [? | [? | [-> ?]]]; tauto.
  - right. destruct H23 as [? | [? | [-> ?]]]; [ tauto | tauto | ].
    right. right. by rewrite orb_true_r.
Qed.

Lemma kept_trans (p1 p2 : bool) (w1 w2 w3 : World) :
  kept p1 w1 w2 → kept p2 w2 w3 → kept (p1 || p2) w1 w3.
Proof.
  intros [Hr1 Ht1 Hm1 Hp1] [Hr2 Ht2 Hm2 Hp2]. split; try congruence.
  intros n. specialize (Hp1 n). specialize (Hp2 n).
  destruct (pipeline_status (self w1) !! n) as [r1 |].
  - destruct Hp1 as (r2 & Hn2 & Hs12). rewrite Hn2 in Hp2.
    destruct Hp2 as (r3 & Hn3 & Hs23). exists r3. split; [ done | ].
    by eapply settled_trans.
  - by rewrite Hp1 in Hp2.
Qed.

(** Validation leaves the world alone and raises only exceptions of
    class [Exception]. *)
Lemma validate_fails_class (env : Env) (w : World) :
  (_validate_environment env w).1 = w ∧
  match (_validate_environment env w).2 with
  | Ok _ => True
  | Raise e => is_Exception e = true
  end.
Proof.
  unfold _validate_environment, bind at 1 2, get, bind at 1 2.
  destruct (path_exists env _); cbn [negb]; [ | done ].
  unfold ret at 1 2. generalize required_clis. intros l.
  induction l as [| c l IH]; [ done | ].
  cbn [for_each]. unfold bind.
  destruct (_command_exists env c); cbn [negb]; [ exact IH | done ].
Qed.

(** One stage, whatever its record and its operation. *)
Lemma _run_stage_kept (env : Env) (n : string) (f : stage_func) (w : World) :
  kept (passes (_run_stage env n f w).2) w (_run_stage env n f w).1.
Proof.
  destruct (pipeline_status (self w) !! n) as [r0 |] eqn:Hn.
  - assert (Hrec : ∀ passed r' w',
              pipeline_status (self w') = <[n := r']> (pipeline_status (self w)) →
              project_root (self w') = project_root (self w) →
              current_task (self w') = current_task (self w) →
              metrics (self w') = metrics (self w) →
              settled passed r0 r' → kept passed w w').
    { intros passed r' w' Hps Hroot Htask Hmetrics Hst. split; try done.
      intros m. rewrite Hps. destruct (decide (n = m)) as [<- | Hne].
      - rewrite Hn, lookup_insert_eq. by exists r'.
      - rewrite lookup_insert_ne by done.
        destruct (pipeline_status (self w) !! m) as [r |]; [ | done ].
        exists r. split; [ done | by left ]. }
    destruct f as [[] | e].
    + rewrite (_run_stage_ok env w n r0 Hn). cbn [fst snd].
      eapply Hrec; cbn; eauto. right. by left.
    + destruct (is_Exception e) eqn:He.
      * rewrite (_run_stage_raise env w n r0 e Hn He). cbn [fst snd].
        eapply Hrec; cbn; eauto. right. right. by left.
      * rewrite (_run_stage_pass env w n r0 e Hn He). cbn [fst snd passes].
        rewrite He. eapply Hrec; cbn; eauto. right. right. by right.
  - rewrite (_run_stage_unknown env w n f Hn). apply kept_refl.
Qed.

Lemma run_stages_kept (env : Env) (l : list (string * stage_func)) (w : World) :
  kept (passes (run_stages env l w).2) w (run_stages env l w).1.
Proof.
  revert w. induction l as [| [n f] l IH]; intros w; [ apply kept_refl | ].
  cbn [run_stages for_each]. unfold bind.
  pose proof (_run_stage_kept env n f w) as H1.
  destruct (_run_stage env n f w) as [w1 [[] | e]]; cbn [fst snd] in H1 |- *;
    [ | exact H1 ].
  apply (kept_trans false _ w w1); [ exact H1 | apply IH ].
Qed.

(** [run_pipeline] by the outcomes of its two steps. *)
Lemma run_pipeline_cases (env : Env) (fs : StageFuncs) (task : string) (w : World) :
  run_pipeline env fs task w =
    match _validate_environment env (started task w) with
    | (w1, Ok _) =>
        match run_stages env (stages fs) w1 with
        | (w2, Ok _) => (w2, Ok true)
        | (w2, Raise e) => (w2, if is_Exception e then Ok false else Raise e)
        end
    | (w1, Raise e) => (w1, if is_Exception e then Ok false else Raise e)
    end.
Proof.
  unfold run_pipeline, bind at 1, set_current_task, modify, try_except, bind at 1.
  destruct (_validate_environment env (started task w)) as [w1 [[] | e]];
    [ | by destruct (is_Exception e) ].
  unfold bind. destruct (run_stages env (stages fs) w1) as [w2 [[] | e]];
    [ done | by destruct (is_Exception e) ].
Qed.

(** X4.  What every run of [run_pipeline] keeps, whatever the
    environment and the stage operations: the task is stored; the root
    and the metrics are untouched; no stage record is added or removed;
    each record is the one it was or has a terminal status, unless an
    exception outside class [Exception] ended the run, which is the
    only way a record is left at "running" and the only way
    [run_pipeline] raises. *)
Theorem run_pipeline_keeps (env : Env) (fs : StageFuncs) (task : string) (w : World) :
  let w' := (run_pipeline env fs task w).1 in
  let outcome := (run_pipeline env fs task w).2 in
  current_task (self w') = task ∧
  project_root (self w') = project_root (self w) ∧
  metrics (self w') = metrics (self w) ∧
  (∀ n, is_Some (pipeline_status (self w') !! n)
        ↔ is_Some (pipeline_status (self w) !! n)) ∧
  (∀ n r r', pipeline_status (self w) !! n = Some r →
             pipeline_status (self w') !! n = Some r' →
             r' = r ∨ status r' = "completed" ∨ status r' = "failed" ∨
             (status r' = "running" ∧
              ∃ e, outcome = Raise e ∧ is_Exception e = false)) ∧
  match outcome with
  | Ok _ => True
  | Raise e => is_Exception e = false
  end.
Proof.
  cbv zeta.
  assert (H : kept (passes (run_pipeline env fs task w).2) (started task w)
                   (run_pipeline env fs task w).1 ∧
              match (run_pipeline env fs task w).2 with
              | Ok _ => True
              | Raise e => is_Exception e = false
              end).
  { rewrite run_pipeline_cases.
    destruct (validate_fails_class env (started task w)) as [Hv Hclass].
    destruct (_validate_environment env (started task w)) as [w1 [[] | e]];
      cbn [fst snd] in Hv, Hclass; subst w1.
    2:{ rewrite Hclass. split; [ apply kept_refl | done ]. }
    pose proof (run_stages_kept env (stages fs) (started task w)) as Hk.
    destruct (run_stages env (stages fs) (started task w)) as [w2 [[] | e]];
      cbn [fst snd passes] in Hk |- *; [ done | ].
    destruct (is_Exception e) eqn:He; cbn [fst snd passes] in Hk |- *;
      [ done | ]. by rewrite He. }
  destruct H as [[Hroot Htask Hmetrics Hrec] Hb].
  cbn [started self project_root current_task metrics pipeline_status]
    in Hroot, Htask, Hmetrics, Hrec.
  split; [ exact Htask | ]. split; [ exact Hroot | ]. split; [ exact Hmetrics | ].
  split; [ | split; [ | exact Hb ] ].
  - intros n. specialize (Hrec n).
    destruct (pipeline_status (self w) !! n) as [r |].
    + destruct Hrec as (r' & -> & _). split; eauto.
    + rewrite Hrec. done.
  - intros n r r' Hn Hn'. specialize (Hrec n). rewrite Hn in Hrec.
    destruct Hrec as (r'' & Hr'' & Hs).
    assert (r'' = r') as -> by congruence.
    destruct Hs as [? | [? | [? | [Hp Hs]]]]; [ tauto | tauto | tauto | ].
    right. right. right. split; [ exact Hs | ].
    destruct (run_pipeline env fs task w).2 as [b | e]; [ done | ].
    exists e. split; [ done | exact Hb ].
Qed.

(** *** Runs in which every operation returns *)

Lemma invoked_app (h1 h2 : list event) : invoked (h1 ++ h2) = invoked h1 ++ invoked h2.
Proof.
  induction h1 as [| [n r | n] h1 IH]; cbn; [ done | done | by rewrite IH ].
Qed.

Lemma run_stages_all_return (env : Env) (l : list (string * stage_func))
    (w : World) :
  Forall (λ p, p.2 = Ok tt) l →
  Forall (λ n, is_Some (pipeline_status (self w) !! n)) l.*1 →
  NoDup l.*1 →
  ∃ w', run_stages env l w = (w', Ok tt) ∧ completed_all l w w'.
Proof.
  revert w. induction l as [| [n1 f1] l IH]; intros w Hok Hrec Hnd.
  - exists w. split; [ reflexivity | ]. split; try done.
    + intros n r0 Hn. by apply elem_of_nil in Hn.
    + exists []. by rewrite app_nil_r.
  - inversion Hok as [| ? ? Hf1 Hok']; subst. cbn in Hf1. subst f1.
    cbn in Hrec, Hnd. inversion Hrec as [| ? ? [r1 Hr1] Hrec']; subst.
    apply NoDup_cons in Hnd as [Hn1 Hnd].
    pose proof (_run_stage_ok env w n1 r1 Hr1) as Hrun.
    set (w1 := mkWorld _ _) in Hrun.
    assert (Hother : ∀ n, n ≠ n1 →
              pipeline_status (self w1) !! n = pipeline_status (self w) !! n).
    { intros n Hn. subst w1. cbn. by apply lookup_insert_ne. }
    destruct (IH w1 Hok') as (w' & Hrun' & [Hfields Hframe Hrecords (h & Hh & Hinv)]);
      [ | exact Hnd | ].
    { apply Forall_forall. intros n Hn.
      rewrite Hother; [ | intros ->; contradiction ].
      rewrite Forall_forall in Hrec'. by apply Hrec'. }
    exists w'. split.
    + cbn [run_stages for_each]. unfold bind. rewrite Hrun. exact Hrun'.
    + split.
      * exact Hfields.
      * intros n Hn. cbn in Hn. apply not_elem_of_cons in Hn as [Hne Hn].
        rewrite Hframe by exact Hn. by apply Hother.
      * intros n r0 Hn Hr0. cbn in Hn. apply elem_of_cons in Hn as [-> | Hn].
        -- rewrite Hframe by exact Hn1. subst w1. cbn.
           rewrite lookup_insert_eq. congruence.
        -- apply Hrecords; [ exact Hn | ].
           rewrite Hother; [ exact Hr0 | intros ->; contradiction ].
      * eexists. split.
        -- rewrite Hh. subst w1. cbn [history]. by rewrite <- app_assoc.
        -- rewrite invoked_app, Hinv. reflexivity.
Qed.

Lemma first_failure (l : list (string * stage_func)) :
  Forall (λ p, p.2 = Ok tt) l ∨
  ∃ pre name e post, l = pre ++ (name, Raise e) :: post ∧
                     Forall (λ p, p.2 = Ok tt) pre.
Proof.
  induction l as [| [n f] l IH]; [ by left | ].
  destruct f as [[] | e].
  - destruct IH as [IH | (pre & name & e & post & -> & Hpre)].
    + left. by constructor.
    + right. exists ((n, Ok tt) :: pre), name, e, post. split; [ done | by constructor ].
  - right. exists [], n, e, l. split; [ done | constructor ].
Qed.

(** X5.  When the environment passes validation, every stage has its
    record and every operation returns, [run_pipeline] returns [True],
    the five operations were awaited once each in the order planner,
    coder, integrator, tester, reporter, and every record is
    "completed" with progress "100%" and the error it had. *)
Theorem run_pipeline_success (env : Env) (fs : StageFuncs) (task : string) (w : World) :
  path_exists env
    (joinpath env (joinpath env (project_root (self w)) "issues")
              (task +:+ ".md")) = true →
  Forall (λ cli, is_Some (which env cli)) required_clis →
  has_all_stages (self w) →
  Forall (λ p, p.2 = Ok tt) (stages fs) →
  ∃ w' h,
    run_pipeline env fs task w = (w', Ok true) ∧
    history w' = history w ++ h ∧
    invoked h = stage_names ∧
    Forall (λ n, ∃ r0, pipeline_status (self w) !! n = Some r0 ∧
                       pipeline_status (self w') !! n
                         = Some (mkStage "completed" (Some "100%") (error r0)))
           stage_names.
Proof.
  intros Hissue Hclis Hall Hok.
  destruct (run_stages_all_return env (stages fs) (started task w) Hok)
    as (w' & Hrun & [_ _ Hrecords (h & Hh & Hinv)]).
  { exact Hall. }
  { apply NoDup_stage_names. }
  exists w', h. split; [ | split; [ exact Hh | split; [ exact Hinv | ] ] ].
  - rewrite run_pipeline_cases, (validate_ok env (started task w) Hissue Hclis).
    by rewrite Hrun.
  - unfold has_all_stages in Hall. apply Forall_forall. intros n Hn.
    rewrite Forall_forall in Hall. destruct (Hall n Hn) as [r0 Hr0].
    exists r0. split; [ exact Hr0 | ]. by apply Hrecords.
Qed.

(** X6.  On an orchestrator with its five records, [run_pipeline]
    returns [True] exactly when the issue file exists, the three
    commands are on the PATH and every stage operation returns. *)
Theorem run_pipeline_true_iff (env : Env) (fs : StageFuncs) (task : string) (w : World) :
  has_all_stages (self w) →
  (run_pipeline env fs task w).2 = Ok true ↔
    path_exists env
      (joinpath env (joinpath env (project_root (self w)) "issues")
                (task +:+ ".md")) = true ∧
    Forall (λ cli, is_Some (which env cli)) required_clis ∧
    Forall (λ p, p.2 = Ok tt) (stages fs).
Proof.
  intros Hall. split.
  - intros Htrue. rewrite run_pipeline_cases in Htrue.
    destruct (path_exists env (issue_file env (self (started task w)))) eqn:Hissue.
    + destruct (decide (Forall (λ cli, is_Some (which env cli)) required_clis))
        as [Hclis | Hclis].
      * rewrite (validate_ok env (started task w) Hissue Hclis) in Htrue.
        split; [ exact Hissue | ]. split; [ exact Hclis | ].
        destruct (first_failure (stages fs))
          as [Hok | (pre & name & e & post & Hst & Hpre)]; [ exact Hok | ].
        exfalso.
        assert (Hnames : pre.*1 ++ name :: post.*1 = stage_names).
        { rewrite <- (stage_names_of_stages fs), Hst, fmap_app. reflexivity. }
        destruct (run_stages_halts env pre post name e (started task w) Hpre)
          as (w' & Hrun & _).
        { unfold has_all_stages in Hall. rewrite <- Hnames in Hall.
          rewrite cons_middle, app_assoc in Hall. by apply Forall_app in Hall as [? _]. }
        { pose proof NoDup_stage_names as Hnd. rewrite <- Hnames in Hnd.
          rewrite cons_middle, app_assoc in Hnd. by apply NoDup_app in Hnd as (? & _ & _). }
        rewrite Hst in Htrue. unfold stage_func in *. rewrite Hrun in Htrue.
        cbn in Htrue. by destruct (is_Exception e).
      * exfalso. apply not_Forall_Exists in Hclis; [ | intros ?; apply _ ].
        apply Exists_exists in Hclis as (cli & Hin & Hcli).
        destruct (validate_fails env (started task w)) as (e & He & Hclass).
        { right. exists cli. split; [ exact Hin | ].
          destruct (which env cli) eqn:Hw; [ | reflexivity ].
          exfalso. apply Hcli. rewrite Hw. by eexists. }
        rewrite He, Hclass in Htrue. discriminate.
    + exfalso. destruct (validate_fails env (started task w)) as (e & He & Hclass);
        [ by left | ].
      rewrite He, Hclass in Htrue. discriminate.
  - intros (Hissue & Hclis & Hok).
    destruct (run_stages_all_return env (stages fs) (started task w) Hok)
      as (w' & Hrun & _); [ exact Hall | apply NoDup_stage_names | ].
    rewrite run_pipeline_cases, (validate_ok env (started task w) Hissue Hclis).
    by rewrite Hrun.
Qed.

(** *** The order of the precondition check *)

(** X7.  The precondition check reports the first thing missing and
    changes nothing: the issue file before any command, as a
    [FileNotFoundError] with the path in its message; then the first
    missing command in the order gemini, codex, cursor, as a
    [RuntimeError] with its name. *)
Theorem _validate_environment_first_missing (env : Env) (w : World) :
  (path_exists env (issue_file env (self w)) = false →
   _validate_environment env w =
     (w, Raise (FileNotFoundError
                  ("Issue file not found: " +:+ issue_file env (self w))))) ∧
  (∀ pre cli post,
     path_exists env (issue_file env (self w)) = true →
     required_clis = pre ++ cli :: post →
     Forall (λ c, is_Some (which env c)) pre →
     which env cli = None →
     _validate_environment env w =
       (w, Raise (RuntimeError ("Required CLI not found: " +:+ cli)))).
Proof.
  split.
  - intros Hissue. unfold _validate_environment, bind, get. by rewrite Hissue.
  - intros pre cli post Hissue Hsplit Hpre Hcli.
    unfold _validate_environment, bind at 1, get, bind at 1.
    rewrite Hissue. cbn [negb]. unfold ret at 1. rewrite Hsplit. clear Hsplit.
    induction Hpre as [| c pre [p Hc] _ IH].
    + cbn [app for_each]. unfold bind, _command_exists. by rewrite Hcli.
    + cbn [app for_each]. unfold bind at 1, _command_exists at 1. rewrite Hc.
      cbn [negb]. exact IH.
Qed.

Lemma _validate_environment_first_missing_witness :
  _validate_environment env_no_codex world0 =
    (world0, Raise (RuntimeError "Required CLI not found: codex")).
Proof.
  destruct (_validate_environment_first_missing env_no_codex world0) as [_ H].
  apply (H ["gemini"] "codex" ["cursor"]).
  - reflexivity.
  - reflexivity.
  - repeat constructor. by eexists.
  - reflexivity.
Defined.

Lemma run_pipeline_success_witness :
  ∃ w' h,
    run_pipeline env_ok source_stage_funcs "T-1" world0 = (w', Ok true) ∧
    history w' = history world0 ++ h ∧
    invoked h = stage_names.
Proof.
  destruct (run_pipeline_success env_ok source_stage_funcs "T-1" world0)
    as (w' & h & Hrun & Hh & Hinv & _).
  - reflexivity.
  - repeat constructor; by eexists.
  - apply has_all_stages_init.
  - repeat constructor.
  - exists w', h. split; [ exact Hrun | split; [ exact Hh | exact Hinv ] ].
Defined.

Lemma run_pipeline_true_iff_witness :
  (run_pipeline env_ok source_stage_funcs "T-1" world0).2 = Ok true.
Proof.
  apply (run_pipeline_true_iff env_ok source_stage_funcs "T-1" world0).
  - apply has_all_stages_init.
  - split; [ reflexivity | ]. split; [ repeat constructor; by eexists | ].
    repeat constructor.
Defined.

End orchestrator_more_props.

(** ** The broadcaster and the connections *)

Module dashboard_more_props.
Import py py.notations json dashboard dashboard_props dashboard_connection.

(** *** Pruning *)

Lemma filter_all {A : Type} (P : A → Prop) `{∀ x, Decision (P x)} (l : list A) :
  Forall P l → filter P l = l.
Proof.
  induction 1 as [| x l Hx _ IH]; [ done | ].
  by rewrite filter_cons_True, IH.
Qed.

Lemma filter_ext_in {A : Type} (P1 P2 : A → Prop)
    `{!∀ x, Decision (P1 x), !∀ x, Decision (P2 x)} (l : list A) :
  (∀ x, x ∈ l → P1 x ↔ P2 x) → filter P1 l = filter P2 l.
Proof.
  induction l as [| a l IH]; intros Hall; [ done | ].
  assert (IH' : filter P1 l = filter P2 l).
  { apply IH. intros x Hx. apply Hall. by apply list_elem_of_further. }
  pose proof (Hall a (list_elem_of_here _ _)) as Ha.
  destruct (decide (P1 a)).
  - rewrite !filter_cons_True by tauto. by rewrite IH'.
  - rewrite !filter_cons_False by tauto. exact IH'.
Qed.

Lemma remove_first_filter (c : Client) (l : list Client) :
  NoDup l → remove_first c l = filter (λ x, x ≠ c) l.
Proof.
  induction l as [| y l IH]; intros Hnd; [ done | ].
  apply NoDup_cons in Hnd as [Hy Hnd]. cbn [remove_first].
  destruct (decide (y = c)) as [-> | Hne].
  - rewrite filter_cons_False by (intros H; by apply H).
    symmetry. apply filter_all. apply Forall_forall. intros x Hx ->. done.
  - rewrite filter_cons_True by done. by rewrite IH.
Qed.

Lemma pruned_filter (l ds : list Client) :
  NoDup l → pruned l ds = filter (λ x, x ∉ ds) l.
Proof.
  revert l. induction ds as [| d ds IH]; intros l Hnd.
  - cbn. symmetry. apply filter_all. apply Forall_forall. intros x _.
    apply not_elem_of_nil.
  - cbn [pruned foldl]. fold (pruned (if bool_decide (d ∈ l) then remove_first d l else l) ds).
    assert (Hstep : (if bool_decide (d ∈ l) then remove_first d l else l)
                    = filter (λ x, x ≠ d) l).
    { destruct (bool_decide (d ∈ l)) eqn:Hd.
      - by apply remove_first_filter.
      - apply bool_decide_eq_false in Hd. symmetry. apply filter_all.
        apply Forall_forall. intros x Hx ->. done. }
    rewrite Hstep, IH by (by apply NoDup_filter).
    rewrite list_filter_filter. apply list_filter_iff. intros x.
    rewrite not_elem_of_cons. tauto.
Qed.

Lemma closed_subset (rt : Runtime) (n : nat) (cs : list Client) (x : Client) :
  x ∈ closed rt n cs → x ∈ cs.
Proof.
  revert n. induction cs as [| c cs IH]; intros n; cbn; [ done | ].
  destruct (send_result rt n) as [| [| msg]]; intros Hx.
  - apply list_elem_of_further. by eapply IH.
  - apply elem_of_cons in Hx as [-> | Hx];
      [ apply list_elem_of_here | apply list_elem_of_further; by eapply IH ].
  - apply list_elem_of_further. by eapply IH.
Qed.

Lemma served_filter (rt : Runtime) (n : nat) (cs : list Client) :
  NoDup cs →
  closes_only rt n (length cs) →
  served rt n cs = filter (λ x, x ∉ closed rt n cs) cs.
Proof.
  revert n. induction cs as [| c cs IH]; intros n Hnd Hnet; [ done | ].
  apply NoDup_cons in Hnd as [Hc Hnd].
  pose proof (Hnet 0 ltac:(cbn; lia)) as H0. rewrite Nat.add_0_r in H0.
  apply closes_only_tail in Hnet. cbn [served closed].
  destruct H0 as [-> | ->].
  - rewrite filter_cons_True.
    + by rewrite IH.
    + intros Hin. apply closed_subset in Hin. done.
  - rewrite filter_cons_False by (intros H; apply H; apply list_elem_of_here).
    rewrite IH by done. apply filter_ext_in. intros x Hx.
    rewrite not_elem_of_cons. split; [ | tauto ].
    intros Hcl. split; [ intros ->; done | exact Hcl ].
Qed.

(** X8.  A broadcast to distinct clients in which every send succeeds
    or finds the connection closed, however many do: it returns; the
    clients registered afterwards are exactly those whose send
    succeeded, in their order; each of them was sent the serialised
    message; every client whose connection was closed is unregistered;
    the message was serialised once (not at all when nobody is
    registered). *)
Theorem send_to_all_clients_keeps_served (rt : Runtime)
    (message : gmap string value) (w : World) :
  let cs := connected_clients (self w) in
  NoDup cs →
  closes_only rt (sends w) (length cs) →
  ∃ w',
    send_to_all_clients rt message w = (w', Ok tt) ∧
    connected_clients (self w') = served rt (sends w) cs ∧
    delivered w' =
      delivered w ++ map (λ c, (c, json_dumps rt message)) (served rt (sends w) cs) ∧
    (∀ c, c ∈ closed rt (sends w) cs → c ∉ connected_clients (self w')) ∧
    (∀ c, c ∈ cs → c ∈ connected_clients (self w') ∨ c ∈ closed rt (sends w) cs) ∧
    dumps w' = (if decide (cs = []) then dumps w else S (dumps w)) ∧
    sends w' = sends w + length cs.
Proof.
  intros cs Hnd Hnet.
  pose proof (send_to_all_clients_closes_only rt message w Hnet) as Hrun.
  fold cs in Hrun. rewrite (pruned_filter cs _ Hnd) in Hrun.
  rewrite <- (served_filter rt (sends w) cs Hnd Hnet) in Hrun.
  eexists. split; [ exact Hrun | ]. cbn [self connected_clients set_clients
    delivered dumps sends].
  split; [ reflexivity | ]. split; [ reflexivity | ].
  rewrite (served_filter rt (sends w) cs Hnd Hnet).
  split; [ | split; [ | split; [ by destruct cs | reflexivity ] ] ].
  - intros c Hc Hin. apply list_elem_of_filter in Hin as [Hnot _]. done.
  - intros c Hc. destruct (decide (c ∈ closed rt (sends w) cs)); [ by right | left ].
    by apply list_elem_of_filter.
Qed.

Lemma send_to_all_clients_keeps_served_witness :
  ∃ w',
    send_to_all_clients rt_closed log_event world3 = (w', Ok tt) ∧
    connected_clients (self w') = [1; 3].
Proof.
  destruct (send_to_all_clients_keeps_served rt_closed log_event world3)
    as (w' & Hrun & Hcs & _).
  - repeat constructor; set_solver.
  - intros [| [| [| j]]] Hj; cbn in Hj; first [ by left | by right | lia ].
  - exists w'. split; [ exact Hrun | exact Hcs ].
Defined.

(** *** An exception that the broadcast does not absorb *)

(** X9.  A broadcast in which the send to the client after [pre] is
    the first to raise an exception other than [ConnectionClosed]: the
    broadcast raises it at once, the clients after it are not served,
    and nobody is unregistered, not even a client of [pre] whose
    connection was found closed. *)
Theorem send_to_all_clients_error_keeps_all (rt : Runtime)
    (message : gmap string value) (w : World)
    (pre post : list Client) (c : Client) (msg : string) :
  connected_clients (self w) = pre ++ c :: post →
  closes_only rt (sends w) (length pre) →
  send_result rt (sends w + length pre) = Fails (OtherException msg) →
  ∃ w',
    send_to_all_clients rt message w = (w', Raise (OtherException msg)) ∧
    self w' = self w ∧
    delivered w' =
      delivered w ++ map (λ c, (c, json_dumps rt message)) (served rt (sends w) pre) ∧
    sends w' = S (sends w + length pre).
Proof.
  intros Hcs Hnet Herr. eexists. split.
  - by apply send_to_all_clients_raises with (pre := pre) (post := post) (c := c).
  - done.
Qed.

Lemma send_to_all_clients_error_keeps_all_witness :
  ∃ w',
    send_to_all_clients rt_closed_then_error log_event world3
      = (w', Raise (OtherException "RuntimeError: transport failure")) ∧
    connected_clients (self w') = [1; 2; 3] ∧
    closed rt_closed_then_error 0 [1] = [1].
Proof.
  destruct (send_to_all_clients_error_keeps_all rt_closed_then_error log_event world3
              [1] [3] 2 "RuntimeError: transport failure")
    as (w' & Hrun & Hself & _).
  - reflexivity.
  - intros [| j] Hj; cbn in Hj; [ by right | lia ].
  - reflexivity.
  - exists w'. split; [ exact Hrun | ]. rewrite Hself. done.
Defined.

(** *** Steps of the server *)

Lemma step_refl (w : World) : step w w.
Proof.
  split; [ done | done | exists []; by rewrite app_nil_r
         | exists []; by rewrite app_nil_r ].
Qed.

Lemma step_same (w w' : World) :
  self w' = self w → delivered w' = delivered w → broadcasts w' = broadcasts w →
  step w w'.
Proof.
  intros Hs Hd Hb. split; rewrite ?Hs, ?Hd, ?Hb;
    [ done | done | exists []; by rewrite app_nil_r
    | exists []; by rewrite app_nil_r ].
Qed.

Lemma step_trans (w1 w2 w3 : World) : step w1 w2 → step w2 w3 → step w1 w3.
Proof.
  intros [Hc1 Hs1 [d1 Hd1] [b1 Hb1]] [Hc2 Hs2 [d2 Hd2] [b2 Hb2]]. split.
  - by etrans.
  - intros n. by rewrite Hs2, Hs1.
  - exists (d1 ++ d2). by rewrite Hd2, Hd1, app_assoc.
  - exists (b1 ++ b2). by rewrite Hb2, Hb1, app_assoc.
Qed.

Lemma steps_ret {A : Type} (a : A) : steps (ret a : Py A).
Proof. intros w. apply step_refl. Qed.

Lemma steps_raise {A : Type} (e : exn) : steps (raise e : Py A).
Proof. intros w. apply step_refl. Qed.

Lemma steps_get : steps (get : Py World).
Proof. intros w. apply step_refl. Qed.

Lemma steps_bind {A B : Type} (c : Py A) (k : A → Py B) :
  steps c → (∀ a, steps (k a)) → steps (bind c k).
Proof.
  intros Hc Hk w. unfold bind. specialize (Hc w).
  destruct (c w) as [w1 [a | e]]; cbn [fst] in *; [ | exact Hc ].
  eapply step_trans; [ exact Hc | apply Hk ].
Qed.

Lemma steps_try_except {A : Type} (body : Py A) (catches : exn → bool)
    (handler : exn → Py A) :
  steps body → (∀ e, steps (handler e)) → steps (try_except body catches handler).
Proof.
  intros Hb Hh w. unfold try_except. specialize (Hb w).
  destruct (body w) as [w1 [a | e]]; cbn [fst] in *; [ exact Hb | ].
  destruct (catches e); [ | exact Hb ].
  eapply step_trans; [ exact Hb | apply Hh ].
Qed.

Lemma steps_try_finally {A : Type} (body : Py A) (cleanup : Py unit) :
  steps body → steps cleanup → steps (try_finally body cleanup).
Proof.
  intros Hb Hc w. unfold try_finally. specialize (Hb w).
  destruct (body w) as [w1 r]. cbn [fst] in Hb. specialize (Hc w1).
  destruct (cleanup w1) as [w2 [[] | e]]; cbn [fst] in *;
    by eapply step_trans.
Qed.

Lemma steps_for_each {A : Type} (l : list A) (body : A → Py unit) :
  (∀ x, steps (body x)) → steps (for_each l body).
Proof.
  intros Hb. induction l as [| x l IH]; [ apply steps_ret | ].
  cbn [for_each]. apply steps_bind; [ apply Hb | intros _; exact IH ].
Qed.

Lemma steps_now (rt : Runtime) : steps (now rt).
Proof. intros w. by apply step_same. Qed.

Lemma steps_dumps_message (rt : Runtime) (m : gmap string value) :
  steps (dumps_message rt m).
Proof. intros w. by apply step_same. Qed.

Lemma steps_send (rt : Runtime) (c : Client) (text : string) : steps (send rt c text).
Proof.
  intros w. unfold send.
  destruct (send_result rt (sends w)); cbn; split; cbn; try done;
    try (exists []; by rewrite app_nil_r).
  by eexists.
Qed.

Lemma remove_first_sublist (c : Client) (l : list Client) :
  sublist (remove_first c l) l.
Proof.
  induction l as [| y l IH]; cbn; [ done | ].
  destruct (decide (y = c)); [ by apply sublist_cons_r; left | by apply sublist_skip ].
Qed.

Lemma steps_unregister_client (c : Client) : steps (unregister_client c).
Proof.
  intros w. unfold unregister_client, modify, on_self. cbn.
  split; cbn; try done; try (exists []; by rewrite app_nil_r).
  - destruct (bool_decide _); cbn; [ apply remove_first_sublist | done ].
  - intros n. by destruct (bool_decide _).
Qed.

Lemma steps_note_broadcast (m : gmap string value) : steps (note_broadcast m).
Proof.
  intros w. unfold note_broadcast, modify. cbn.
  split; cbn; try done; [ exists []; by rewrite app_nil_r | by eexists ].
Qed.

Lemma steps_send_loop (rt : Runtime) (cs : list Client) (text : string)
    (d : list Client) : steps (send_loop rt cs text d).
Proof.
  revert d. induction cs as [| c cs IH]; intros d; [ apply steps_ret | ].
  cbn [send_loop]. apply steps_bind; [ | intros d'; apply IH ].
  apply steps_try_except; [ | intros _; apply steps_ret ].
  apply steps_bind; [ apply steps_send | intros _; apply steps_ret ].
Qed.

Lemma steps_send_to_all_clients (rt : Runtime) (m : gmap string value) :
  steps (send_to_all_clients rt m).
Proof.
  unfold send_to_all_clients.
  apply steps_bind; [ apply steps_note_broadcast | intros _ ].
  apply steps_bind; [ apply steps_get | intros w ].
  destruct (connected_clients (self w)); [ apply steps_ret | ].
  apply steps_bind; [ apply steps_dumps_message | intros text ].
  apply steps_bind; [ apply steps_send_loop | intros d ].
  apply steps_for_each. apply steps_unregister_client.
Qed.

Lemma steps_modify_fields (f : DashboardServer → DashboardServer) :
  (∀ o, connected_clients (f o) = connected_clients o) →
  (∀ o n, is_Some (pipeline_status (f o) !! n) ↔ is_Some (pipeline_status o !! n)) →
  steps (modify (on_self f)).
Proof.
  intros Hc Hs w. unfold modify, on_self. cbn.
  split; cbn; [ by rewrite Hc | apply Hs | exists []; by rewrite app_nil_r
              | exists []; by rewrite app_nil_r ].
Qed.

Lemma steps_send_status_update (rt : Runtime) (websocket : option Client) :
  steps (send_status_update rt websocket).
Proof.
  unfold send_status_update.
  apply steps_bind; [ apply steps_get | intros w ].
  apply steps_bind; [ apply steps_now | intros ts ].
  destruct websocket as [ws |]; [ | apply steps_send_to_all_clients ].
  apply steps_bind; [ apply steps_dumps_message | intros text; apply steps_send ].
Qed.

Lemma steps_add_log (rt : Runtime) (level message : string) :
  steps (add_log rt level message).
Proof.
  unfold add_log. apply steps_bind; [ apply steps_now | intros ts ].
  apply steps_send_to_all_clients.
Qed.

Lemma steps_handle_client_message (rt : Runtime) (websocket : Client)
    (data : gmap string value) : steps (handle_client_message rt websocket data).
Proof.
  unfold handle_client_message.
  destruct (eq_str _ "get_status"); [ apply steps_send_status_update | ].
  destruct (eq_str _ "start_pipeline").
  { unfold start_pipeline.
    apply steps_bind; [ by apply steps_modify_fields | intros _ ].
    apply steps_bind; [ | intros _ ].
    { apply steps_modify_fields; [ done | ]. intros o n. cbn.
      by rewrite reset_pipeline_fmap, lookup_fmap, fmap_is_Some. }
    apply steps_bind; [ apply steps_get | intros w1 ].
    apply steps_bind; [ apply steps_add_log | intros _ ].
    apply steps_bind; [ apply steps_get | intros w2 ].
    apply steps_bind; [ apply steps_now | intros ts ].
    apply steps_send_to_all_clients. }
  destruct (eq_str _ "update_task").
  { unfold update_task.
    apply steps_bind; [ by apply steps_modify_fields | intros _ ].
    apply steps_bind; [ apply steps_get | intros w1 ].
    apply steps_add_log. }
  destruct (eq_str _ "doc_update").
  { unfold doc_update.
    apply steps_bind; [ apply steps_now | intros ts ].
    apply steps_bind; [ by apply steps_modify_fields | intros _ ].
    apply steps_send_to_all_clients. }
  apply steps_bind; [ apply steps_dumps_message | intros text; apply steps_send ].
Qed.

(** X10.  Whatever the message and the network, handling a client
    message never registers a client (the clients afterwards are a
    sublist of those before), never adds or removes a stage record, and
    only adds to what was delivered and to what was broadcast. *)
Theorem handle_client_message_step (rt : Runtime) (websocket : Client)
    (data : gmap string value) (w : World) :
  let w' := (handle_client_message rt websocket data w).1 in
  sublist (connected_clients (self w')) (connected_clients (self w)) ∧
  (∀ n, is_Some (pipeline_status (self w') !! n)
        ↔ is_Some (pipeline_status (self w) !! n)) ∧
  (∃ d, delivered w' = delivered w ++ d) ∧
  (∃ b, broadcasts w' = broadcasts w ++ b).
Proof.
  cbv zeta.
  destruct (steps_handle_client_message rt websocket data w) as [Hc Hs Hd Hb].
  done.
Qed.

(** *** A connection from start to end *)

Lemma steps_handle_frame (rt : Runtime) (of_class : string → bool)
    (websocket : Client) (message : frame) :
  steps (handle_frame rt of_class websocket message).
Proof.
  destruct message as [| | v]; cbn [handle_frame]; [ | apply steps_ret | ].
  - apply steps_bind; [ apply steps_dumps_message | intros text; apply steps_send ].
  - destruct v; try apply steps_ret.
    apply steps_try_except; [ apply steps_handle_client_message | intros _; apply steps_ret ].
Qed.

Lemma steps_receive_all (rt : Runtime) (of_class : string → bool)
    (websocket : Client) (incoming : list frame) (ending : option exn) :
  steps (receive_all rt of_class websocket incoming ending).
Proof.
  unfold receive_all. apply steps_bind.
  - apply steps_for_each. apply steps_handle_frame.
  - intros _. destruct ending; [ apply steps_raise | apply steps_ret ].
Qed.

Lemma register_client_sent (rt : Runtime) (websocket : Client) (w : World) :
  send_result rt (sends w) = Sent →
  register_client rt websocket w =
    (mkWorld (set_clients (connected_clients (self w) ++ [websocket]) (self w))
             (S (sends w)) (S (clock w)) (S (dumps w))
             (delivered w ++
                [(websocket,
                  json_dumps rt (status_message (self w) (isoformat_now rt (clock w))))])
             (broadcasts w),
     Ok tt).
Proof.
  intros Hsent. unfold register_client, send_status_update, modify, get, now,
    dumps_message, send, bind, on_self. cbn. by rewrite Hsent.
Qed.

Lemma register_client_fails (rt : Runtime) (websocket : Client) (w : World) (e : exn) :
  send_result rt (sends w) = Fails e →
  register_client rt websocket w =
    (mkWorld (set_clients (connected_clients (self w) ++ [websocket]) (self w))
             (S (sends w)) (S (clock w)) (S (dumps w)) (delivered w) (broadcasts w),
     Raise e).
Proof.
  intros Hsent. unfold register_client, send_status_update, modify, get, now,
    dumps_message, send, bind, on_self. cbn. by rewrite Hsent.
Qed.

Lemma remove_first_snoc (c : Client) (l : list Client) :
  c ∉ l → remove_first c (l ++ [c]) = l.
Proof.
  induction l as [| y l IH]; intros Hc; cbn.
  - by rewrite decide_True.
  - apply not_elem_of_cons in Hc as [Hne Hc].
    rewrite decide_False by done. by rewrite IH.
Qed.

Lemma unregister_after_register (websocket : Client) (cs l : list Client) :
  websocket ∉ cs →
  sublist l (cs ++ [websocket]) →
  let l' := if bool_decide (websocket ∈ l) then remove_first websocket l else l in
  sublist l' cs ∧ websocket ∉ l'.
Proof.
  intros Hnot Hsub. apply sublist_app_r in Hsub as (k1 & k2 & -> & Hk1 & Hk2).
  assert (Hk1' : websocket ∉ k1).
  { intros Hin. apply Hnot. by eapply elem_of_sublist. }
  cbv zeta. inversion Hk2 as [| x l1 l2 Hs | x l1 l2 Hs]; subst.
  - inversion Hs; subst. rewrite bool_decide_eq_true_2 by set_solver.
    by rewrite remove_first_snoc.
  - inversion Hs; subst. rewrite app_nil_r.
    by rewrite bool_decide_eq_false_2.
Qed.

(** X11.  A connection whose status snapshot was sent: whatever
    messages arrive, however the network behaves and however the
    connection ends, when [handle_client] is over the websocket is no
    longer registered, no client was added, no stage record was added
    or removed, the snapshot was the first text delivered, and
    [ConnectionClosed] is not raised to the caller. *)
Theorem handle_client_unregisters (rt : Runtime) (of_class : string → bool)
    (websocket : Client) (incoming : list frame) (ending : option exn)
    (w : World) :
  websocket ∉ connected_clients (self w) →
  send_result rt (sends w) = Sent →
  let w' := (handle_client rt of_class websocket incoming ending w).1 in
  (websocket ∉ connected_clients (self w')) ∧
  sublist (connected_clients (self w')) (connected_clients (self w)) ∧
  (∀ n, is_Some (pipeline_status (self w') !! n)
        ↔ is_Some (pipeline_status (self w) !! n)) ∧
  (∃ d, delivered w' =
          delivered w ++
          (websocket,
           json_dumps rt (status_message (self w) (isoformat_now rt (clock w)))) :: d) ∧
  (handle_client rt of_class websocket incoming ending w).2
    ≠ Raise ConnectionClosed.
Proof.
  intros Hnot Hsent. cbv zeta.
  pose proof (register_client_sent rt websocket w Hsent) as Hreg.
  set (w1 := mkWorld _ _ _ _ _ _) in Hreg.
  set (body := try_except (receive_all rt of_class websocket incoming ending)
                          is_ConnectionClosed (λ _, ret tt)).
  assert (Hrun : handle_client rt of_class websocket incoming ending w
                 = try_finally body (unregister_client websocket) w1).
  { unfold handle_client, bind. by rewrite Hreg. }
  rewrite Hrun. clear Hrun Hreg.
  assert (Hbody : steps body).
  { apply steps_try_except; [ apply steps_receive_all | intros _; apply steps_ret ]. }
  assert (Hres : (body w1).2 ≠ Raise ConnectionClosed).
  { unfold body, try_except.
    destruct (receive_all rt of_class websocket incoming ending w1)
      as [w2 [[] | [| msg]]];
      cbn; done. }
  specialize (Hbody w1). unfold try_finally.
  destruct (body w1) as [w2 r]. cbn [fst snd] in *.
  destruct Hbody as [Hc Hs [d Hd] _]. cbn in Hc, Hs, Hd.
  destruct (unregister_after_register websocket _ _ Hnot Hc) as [Hsub Hgone].
  unfold unregister_client, modify, on_self. cbn.
  split; [ | split; [ | split; [ | split ] ] ].
  - by destruct (bool_decide _).
  - by destruct (bool_decide _).
  - intros n. rewrite <- Hs. by destruct (bool_decide _).
  - exists d. by rewrite Hd, <- app_assoc.
  - exact Hres.
Qed.

Lemma handle_client_unregisters_witness :
  3 ∉ connected_clients
        (self (handle_client rt_fine (λ _, true) 3
                 [NotJSON; Decoded (JDict start_request)] (Some ConnectionClosed)
                 dashboard_connection.world2).1).
Proof.
  apply (handle_client_unregisters rt_fine (λ _, true) 3
           [NotJSON; Decoded (JDict start_request)] (Some ConnectionClosed)
           dashboard_connection.world2).
  - cbn. set_solver.
  - reflexivity.
Defined.

(** X12.  A connection whose status snapshot cannot be sent:
    [register_client] is awaited outside the [try], so [handle_client]
    raises the exception of the send, nothing is delivered or
    broadcast, and the websocket stays registered. *)
Theorem handle_client_snapshot_fails (rt : Runtime) (of_class : string → bool)
    (websocket : Client) (incoming : list frame) (ending : option exn)
    (w : World) (e : exn) :
  send_result rt (sends w) = Fails e →
  ∃ w',
    handle_client rt of_class websocket incoming ending w = (w', Raise e) ∧
    connected_clients (self w') = connected_clients (self w) ++ [websocket] ∧
    delivered w' = delivered w ∧
    broadcasts w' = broadcasts w.
Proof.
  intros Hfail. unfold handle_client, bind.
  rewrite (register_client_fails rt websocket w e Hfail).
  eexists. split; [ reflexivity | ]. done.
Qed.

Lemma handle_client_snapshot_fails_witness :
  ∃ w',
    handle_client rt_first_closed (λ _, true) 3 [] None dashboard_connection.world2
      = (w', Raise ConnectionClosed) ∧
    connected_clients (self w') = [1; 2; 3].
Proof.
  destruct (handle_client_snapshot_fails rt_first_closed (λ _, true) 3 [] None
              dashboard_connection.world2 ConnectionClosed)
    as (w' & Hrun & Hcs & _).
  - reflexivity.
  - exists w'. split; [ exact Hrun | exact Hcs ].
Defined.

(** *** Messages that only read *)

(** X13.  A "get_status" request, a message without a type and a
    message of a type the handler does not know: the server is left as
    it was, nothing is broadcast, and exactly one send is attempted, to
    the sender, of the status snapshot or of the "Unknown message
    type" error; the handler's outcome is that of the send. *)
Theorem handle_client_message_read_only (rt : Runtime) (websocket : Client)
    (data : gmap string value) (w : World) :
  (∀ t, data !! "type" = Some (JStr t) →
        t ∉ ["start_pipeline"; "update_task"; "doc_update"]) →
  let reply :=
    if eq_str (dict_get data "type") "get_status"
    then status_message (self w) (isoformat_now rt (clock w))
    else dict [ ("type", JStr "error");
                ("message", JStr ("Unknown message type: "
                                    +:+ format rt (dict_get data "type"))) ] in
  let w' := (handle_client_message rt websocket data w).1 in
  self w' = self w ∧
  broadcasts w' = broadcasts w ∧
  sends w' = S (sends w) ∧
  match send_result rt (sends w) with
  | Sent =>
      (handle_client_message rt websocket data w).2 = Ok tt ∧
      delivered w' = delivered w ++ [(websocket, json_dumps rt reply)]
  | Fails e =>
      (handle_client_message rt websocket data w).2 = Raise e ∧
      delivered w' = delivered w
  end.
Proof.
  intros Htype. cbv zeta. unfold handle_client_message.
  assert (Hno : ∀ t, t ∈ ["start_pipeline"; "update_task"; "doc_update"] →
                     eq_str (dict_get data "type") t = false).
  { intros t Ht. unfold dict_get, eq_str.
    destruct (data !! "type") as [[] |] eqn:Hd; cbn; try done.
    apply String.eqb_neq. intros ->. by eapply Htype. }
  destruct (eq_str (dict_get data "type") "get_status").
  - unfold send_status_update, get, now, dumps_message, send, bind. cbn.
    destruct (send_result rt (sends w)); cbn; by destruct w.
  - rewrite !Hno by set_solver.
    unfold dumps_message, send, bind. cbn.
    destruct (send_result rt (sends w)); cbn; by destruct w.
Qed.

Lemma handle_client_message_read_only_witness :
  self (handle_client_message rt_fine 1 (dict [ ("type", JStr "shutdown") ])
          world3).1 = self world3 ∧
  broadcasts (handle_client_message rt_fine 1 (dict [ ("type", JStr "shutdown") ])
                world3).1 = [].
Proof.
  destruct (handle_client_message_read_only rt_fine 1
              (dict [ ("type", JStr "shutdown") ]) world3) as (Hself & Hb & _).
  - intros t Ht. vm_compute in Ht. injection Ht as <-. set_solver.
  - split; [ exact Hself | exact Hb ].
Defined.

(** *** Updates from the pipeline *)

Lemma update_node_status_known (rt : Runtime) (node status : string)
    (progress error : option string) (w : World) :
  is_Some (pipeline_status (self w) !! node) →
  update_node_status rt node status progress error w =
    send_to_all_clients rt
      (node_update_message node status progress error (isoformat_now rt (clock w)))
      (mkWorld (set_pipeline (<[node := mkStage status progress error]>
                                (pipeline_status (self w))) (self w))
               (sends w) (S (clock w)) (dumps w) (delivered w) (broadcasts w)).
Proof.
  intros [r Hr]. unfold update_node_status, get, modify, now, bind, on_self.
  cbn [fst snd self clock]. by rewrite Hr.
Qed.

Lemma update_node_status_unknown (rt : Runtime) (node status : string)
    (progress error : option string) (w : World) :
  pipeline_status (self w) !! node = None →
  update_node_status rt node status progress error w = (w, Ok tt).
Proof.
  intros Hr. unfold update_node_status, get, bind. cbn [fst snd]. by rewrite Hr.
Qed.

(** X14.  [update_node_status] on a node without a record does nothing
    at all: no record is created and nothing is broadcast.  On a node
    with a record the three fields are replaced (an absent progress or
    error clears the field), no record is added or removed, the task
    and the metrics are untouched, and one [node_update] message is
    broadcast, whatever the network does with it. *)
Theorem update_node_status_spec (rt : Runtime) (node status : string)
    (progress error : option string) (w : World) :
  let w' := (update_node_status rt node status progress error w).1 in
  match pipeline_status (self w) !! node with
  | None => update_node_status rt node status progress error w = (w, Ok tt)
  | Some _ =>
      pipeline_status (self w')
        = <[node := mkStage status progress error]> (pipeline_status (self w)) ∧
      (∀ n, is_Some (pipeline_status (self w') !! n)
            ↔ is_Some (pipeline_status (self w) !! n)) ∧
      current_task (self w') = current_task (self w) ∧
      metrics (self w') = metrics (self w) ∧
      broadcasts w' =
        broadcasts w ++
        [node_update_message node status progress error (isoformat_now rt (clock w))]
  end.
Proof.
  cbv zeta.
  destruct (pipeline_status (self w) !! node) as [r |] eqn:Hnode;
    [ | by apply update_node_status_unknown ].
  rewrite update_node_status_known by (by rewrite Hnode).
  set (w1 := mkWorld _ _ _ _ _ _).
  set (m := node_update_message _ _ _ _ _).
  destruct (send_to_all_clients_self rt m w1) as [Hself Hb].
  rewrite Hself, Hb. cbn.
  split; [ done | ]. split; [ | done ].
  intros n. destruct (decide (n = node)) as [-> | Hne].
  - rewrite lookup_insert_eq, Hnode. split; intros _; by eexists.
  - by rewrite lookup_insert_ne.
Qed.

Lemma update_metrics_run (rt : Runtime) (new_metrics : gmap string value)
    (w : World) :
  update_metrics rt new_metrics w =
    send_to_all_clients rt
      (dict [ ("type", JStr "metrics_update");
              ("metrics", JDict (new_metrics ∪ metrics (self w)));
              ("timestamp", JStr (isoformat_now rt (clock w))) ])
      (mkWorld (set_metrics (new_metrics ∪ metrics (self w)) (self w))
               (sends w) (S (clock w)) (dumps w) (delivered w) (broadcasts w)).
Proof. reflexivity. Qed.

(** X15.  [update_metrics] merges: each given metric replaces the
    stored one and the others are kept; the message broadcast carries
    the merged metrics; the records and the task are untouched. *)
Theorem update_metrics_merges (rt : Runtime) (new_metrics : gmap string value)
    (w : World) :
  let w' := (update_metrics rt new_metrics w).1 in
  (∀ k, metrics (self w') !! k =
          match new_metrics !! k with
          | Some v => Some v
          | None => metrics (self w) !! k
          end) ∧
  pipeline_status (self w') = pipeline_status (self w) ∧
  current_task (self w') = current_task (self w) ∧
  broadcasts w' =
    broadcasts w ++
    [dict [ ("type", JStr "metrics_update");
            ("metrics", JDict (metrics (self w')));
            ("timestamp", JStr (isoformat_now rt (clock w))) ]].
Proof.
  cbv zeta. rewrite update_metrics_run.
  set (w1 := mkWorld _ _ _ _ _ _).
  set (m := dict _).
  destruct (send_to_all_clients_self rt m w1) as [Hself Hb].
  rewrite Hself, Hb. cbn.
  split; [ | done ].
  intros k. rewrite lookup_union. by destruct (new_metrics !! k), (metrics (self w) !! k).
Qed.

End dashboard_more_props.

(** ** The configuration, once more *)

Module config_more_props.
Import py json pydict config config_props.

(** X16.  Merging the defaults into a merged configuration changes
    nothing: [merge_defaults] is idempotent. *)
Theorem merge_defaults_idempotent (D : Defaults) (cfg : gmap string value) :
  merge_defaults D (merge_defaults D cfg) = merge_defaults D cfg.
Proof.
  apply map_eq. intros k. rewrite !merge_defaults_lookup.
  destruct (D !! k) as [defaults |] eqn:HD; [ | done ].
  f_equal. rewrite !merge_section_eq, merge_defaults_lookup, HD, merge_section_eq.
  destruct (cfg !! k) as [[] |]; f_equal;
    try (by rewrite (idemp (∪) defaults)).
  by rewrite <- (assoc_L (∪)), (idemp (∪) defaults).
Qed.

(** X17.  The merged configuration has the default sections and the
    keys of the file, and no other key. *)
Theorem merge_defaults_dom (D : Defaults) (cfg : gmap string value) :
  dom (merge_defaults D cfg) = dom D ∪ dom cfg.
Proof.
  apply set_eq. intros k. rewrite elem_of_union, !elem_of_dom, merge_defaults_lookup.
  destruct (D !! k) as [defaults |] eqn:HD.
  - split; [ intros _; left; by eexists | intros _; by eexists ].
  - split; [ by right | ]. intros [[x Hx] | H]; [ done | exact H ].
Qed.

(** X18.  What [_load_config] returns: a read error other than a
    missing file or invalid JSON is raised; in every other case the
    result has each default section as a dictionary with each default
    key, and a file whose content is not a dictionary, or is the empty
    dictionary, gives the defaults themselves. *)
Theorem _load_config_sections (D : Defaults) (f : file_read) :
  match config._load_config D f with
  | Ok cfg =>
      (∀ sec defaults,
         D !! sec = Some defaults →
         ∃ s, cfg !! sec = Some (JDict s) ∧
              ∀ k, is_Some (defaults !! k) → is_Some (s !! k)) ∧
      ((∀ c, f = Loaded (JDict c) → c = ∅) → cfg = copy_defaults D)
  | Raise e => ∃ msg, f = ReadError msg ∧ e = OtherException msg
  end.
Proof.
  assert (Hcopy : ∀ sec defaults,
            D !! sec = Some defaults →
            ∃ s, copy_defaults D !! sec = Some (JDict s) ∧
                 ∀ k, is_Some (defaults !! k) → is_Some (s !! k)).
  { intros sec defaults HD. exists defaults. unfold copy_defaults.
    by rewrite lookup_fmap, HD. }
  destruct f as [| | [| | | | | | cfg] | msg]; cbn [config._load_config];
    try (split; [ exact Hcopy | done ]); [ | by eexists ].
  split.
  - intros sec defaults HD. rewrite merge_defaults_lookup, HD, merge_section_eq.
    destruct (cfg !! sec) as [[] |]; eexists; (split; [ reflexivity | ]);
      try done.
    intros k [x Hx]. rewrite lookup_union, Hx. destruct (d !! k); by eexists.
  - intros Hempty. rewrite (Hempty cfg eq_refl). apply map_eq. intros k.
    rewrite merge_defaults_lookup. unfold copy_defaults. rewrite lookup_fmap.
    destruct (D !! k); cbn; [ | apply lookup_empty ].
    by rewrite merge_section_eq, lookup_empty.
Qed.

End config_more_props.

(** ** Deploys, rollbacks and their monitoring *)

Module ci_cd_more_props.
Import py py.notations json config ci_cd_agent config_props ci_cd_deploys.

Lemma triggered_outcome (run : list string → run_outcome) (cfg : gmap string value)
    (task_id action : string) (on_exception : bool) (calls : list (list string)) :
  ∃ more b,
    triggered run cfg task_id action on_exception calls = (calls ++ more, Ok b) ∧
    (refused run cfg task_id action → b = false) ∧
    (b = false → refused run cfg task_id action ∨ on_exception = false).
Proof.
  unfold triggered.
  change (refused run cfg task_id action) with
    (∃ err name rc stderr,
       run gh_version = Completed 0 err ∧
       subscript2 cfg "ci_cd" "github_actions_workflow" = Ok (JStr name) ∧
       run (workflow_command name task_id action) = Completed rc stderr ∧
       rc ≠ 0%Z).
  destruct (run gh_version) as [rc err | | msg] eqn:Hgh.
  - destruct (Z.eqb_spec rc 0) as [-> | Hrc].
    + destruct (subscript2 cfg "ci_cd" "github_actions_workflow")
        as [[| | | | name | |] | e] eqn:Hname;
        try (eexists _, _; split; [ reflexivity | ]; split;
             [ by intros (? & ? & ? & ? & _ & [=] & _)
             | intros ->; by right ]).
      destruct (run (workflow_command name task_id action))
        as [rc' stderr | | msg] eqn:Hrun.
      * eexists _, _. split; [ reflexivity | ]. split.
        -- intros (? & name' & rc'' & ? & _ & [= <-] & Hrun' & Hne).
           rewrite Hrun in Hrun'. injection Hrun' as <- <-.
           by apply Z.eqb_neq.
        -- intros Hb. left. apply Z.eqb_neq in Hb. by exists err, name, rc', stderr.
      * eexists _, _. split; [ reflexivity | ]. split.
        -- intros (? & name' & ? & ? & _ & [= <-] & Hrun' & _). congruence.
        -- intros ->. by right.
      * eexists _, _. split; [ reflexivity | ]. split.
        -- intros (? & name' & ? & ? & _ & [= <-] & Hrun' & _). congruence.
        -- intros ->. by right.
    + eexists _, _. split; [ reflexivity | ]. split; [ | done ].
      intros (? & ? & ? & ? & [= ? ?] & _). done.
  - eexists _, _. split; [ reflexivity | ]. split; [ | done ].
    intros (? & ? & ? & ? & [=] & _).
  - eexists _, _. split; [ reflexivity | ]. split.
    + intros (? & ? & ? & ? & [=] & _).
    + intros ->. by right.
Qed.

Lemma deploy_staging_gate (run : list string → run_outcome)
    (cfg : gmap string value) (task_id branch_name : string)
    (calls : list (list string)) :
  deploy_staging run cfg task_id branch_name calls =
    match subscript2 cfg "ci_cd" "auto_deploy_staging" with
    | Ok auto =>
        if truthy auto then triggered run cfg task_id "deploy-staging" true calls
        else (calls, Ok true)
    | Raise _ => (calls, Ok true)
    end.
Proof.
  destruct (subscript2 cfg "ci_cd" "auto_deploy_staging") as [auto | e] eqn:Hauto.
  - destruct (truthy auto) eqn:Ht.
    + by eapply deploy_staging_proceeds.
    + unfold deploy_staging, try_except, config_get, bind. by rewrite Hauto, Ht.
  - unfold deploy_staging, try_except, config_get, bind. by rewrite Hauto.
Qed.

Lemma deploy_staging_returns (run : list string → run_outcome)
    (cfg : gmap string value) (task_id branch_name : string)
    (calls : list (list string)) :
  ∃ more b, deploy_staging run cfg task_id branch_name calls = (calls ++ more, Ok b).
Proof.
  rewrite deploy_staging_gate.
  destruct (subscript2 cfg "ci_cd" "auto_deploy_staging") as [auto | e].
  - destruct (truthy auto).
    + destruct (triggered_outcome run cfg task_id "deploy-staging" true calls)
        as (more & b & Hrun & _). by exists more, b.
    + exists [], true. by rewrite app_nil_r.
  - exists [], true. by rewrite app_nil_r.
Qed.

(** X19.  Whatever the configuration, and however the commands end (a
    completion, a missing executable, another exception of class
    [Exception]), [deploy_staging] returns a Boolean and only adds to
    the commands run; it returns [False] exactly when the deploy is
    enabled and GitHub, probed with success, completed the workflow
    run with a return code other than 0. *)
Theorem deploy_staging_outcome (run : list string → run_outcome)
    (cfg : gmap string value) (task_id branch_name : string)
    (calls : list (list string)) :
  ∃ more b,
    deploy_staging run cfg task_id branch_name calls = (calls ++ more, Ok b) ∧
    (b = false ↔
       (∃ auto, subscript2 cfg "ci_cd" "auto_deploy_staging" = Ok auto ∧
                truthy auto = true) ∧
       refused run cfg task_id "deploy-staging").
Proof.
  rewrite deploy_staging_gate.
  destruct (subscript2 cfg "ci_cd" "auto_deploy_staging") as [auto | e].
  - destruct (truthy auto) eqn:Ht.
    + destruct (triggered_outcome run cfg task_id "deploy-staging" true calls)
        as (more & b & Hrun & Hrefused & Hfalse).
      exists more, b. split; [ exact Hrun | ]. split.
      * intros Hb. split; [ by exists auto | ].
        destruct (Hfalse Hb) as [H | H]; [ exact H | done ].
      * intros [_ H]. by apply Hrefused.
    + exists [], true. rewrite app_nil_r. split; [ done | ].
      split; [ done | ]. intros [(auto' & [= <-] & Ht') _]. congruence.
  - exists [], true. rewrite app_nil_r. split; [ done | ].
    split; [ done | ]. by intros [(auto' & [=] & _) _].
Qed.

Lemma rollback_deploy_eq (run : list string → run_outcome)
    (cfg : gmap string value) (task_id : string) (calls : list (list string)) :
  rollback_deploy run cfg task_id calls =
    match subscript2 cfg "ci_cd" "rollback_on_failure" with
    | Ok enabled =>
        if truthy enabled then triggered run cfg task_id "rollback" false calls
        else (calls, Ok true)
    | Raise _ => (calls, Ok false)
    end.
Proof.
  unfold rollback_deploy, try_except, config_get, bind at 1.
  destruct (subscript2 cfg "ci_cd" "rollback_on_failure") as [enabled | e];
    [ | done ].
  destruct (truthy enabled); [ | done ]. cbn [negb].
  unfold triggered, _check_github_cli, try_except, bind, subprocess_run,
    config_get, workflow_argv, ret, raise, gh_version.
  destruct (run ["gh"; "--version"]) as [rc err | | msg]; cbn; try done.
  destruct (Z.eqb rc 0); cbn; [ | done ].
  destruct (subscript2 cfg "ci_cd" "github_actions_workflow")
    as [[| | | | name | |] | e]; cbn; try done.
  rewrite <- app_assoc. cbn.
  destruct (run (workflow_command name task_id "rollback")) as [rc' stderr | |];
    cbn; try done.
  by destruct (Z.eqb rc' 0).
Qed.

Lemma rollback_deploy_returns (run : list string → run_outcome)
    (cfg : gmap string value) (task_id : string) (calls : list (list string)) :
  ∃ more b, rollback_deploy run cfg task_id calls = (calls ++ more, Ok b).
Proof.
  rewrite rollback_deploy_eq.
  destruct (subscript2 cfg "ci_cd" "rollback_on_failure") as [enabled | e].
  - destruct (truthy enabled).
    + destruct (triggered_outcome run cfg task_id "rollback" false calls)
        as (more & b & Hrun & _). by exists more, b.
    + exists [], true. by rewrite app_nil_r.
  - exists [], false. by rewrite app_nil_r.
Qed.

Lemma handle_qa_failure_eq (run : list string → run_outcome)
    (cfg : gmap string value) (task_id : string) (calls : list (list string)) :
  handle_qa_failure run cfg task_id calls = rollback_deploy run cfg task_id calls.
Proof.
  destruct (rollback_deploy_returns run cfg task_id calls) as (more & b & Hrun).
  unfold handle_qa_failure, try_except, bind. rewrite Hrun. by destruct b.
Qed.

(** X20.  [rollback_deploy] is gated by [rollback_on_failure] (a
    missing key is [False], a disabled rollback is [True] with no
    command run), then triggers the workflow as the deploys do, with
    the action "rollback" and [False] for an exception of class
    [Exception]; it always returns a Boolean; and [handle_qa_failure]
    is the rollback, command for command and result for result. *)
Theorem rollback_deploy_spec (run : list string → run_outcome)
    (cfg : gmap string value) (task_id : string) (calls : list (list string)) :
  rollback_deploy run cfg task_id calls =
    match subscript2 cfg "ci_cd" "rollback_on_failure" with
    | Ok enabled =>
        if truthy enabled then triggered run cfg task_id "rollback" false calls
        else (calls, Ok true)
    | Raise _ => (calls, Ok false)
    end ∧
  handle_qa_failure run cfg task_id calls = rollback_deploy run cfg task_id calls ∧
  ∃ more b, rollback_deploy run cfg task_id calls = (calls ++ more, Ok b).
Proof.
  split; [ apply rollback_deploy_eq | ].
  split; [ apply handle_qa_failure_eq | apply rollback_deploy_returns ].
Qed.



(** X22.  [auto_deploy_and_monitor], for any monitor
    [wait_for_deploy] and commands that end in a completion or an
    exception of class [Exception]: it returns a Boolean; [True] only
    for a staging deploy that returned [True] and a monitor that
    answered "success"; and once the deploy returned [True] and the
    monitor answered, the rollback is run exactly when the answer is
    "failed". *)
Theorem auto_deploy_and_monitor_spec (run : list string → run_outcome)
    (wait_for_deploy : string → value → Py string)
    (cfg : gmap string value) (task_id branch_name : string)
    (calls : list (list string)) :
  ∃ calls' b,
    auto_deploy_and_monitor run wait_for_deploy cfg task_id branch_name calls
      = (calls', Ok b) ∧
    (b = true →
       ∃ c1 timeout,
         deploy_staging run cfg task_id branch_name calls = (c1, Ok true) ∧
         subscript2 cfg "ci_cd" "deploy_timeout" = Ok timeout ∧
         wait_for_deploy task_id timeout c1 = (calls', Ok "success")) ∧
    (∀ c1 timeout c2 status,
       deploy_staging run cfg task_id branch_name calls = (c1, Ok true) →
       subscript2 cfg "ci_cd" "deploy_timeout" = Ok timeout →
       wait_for_deploy task_id timeout c1 = (c2, Ok status) →
       (b = true ↔ status = "success") ∧
       calls' = if String.eqb status "failed"
                then (rollback_deploy run cfg task_id c2).1
                else c2).
Proof.
  unfold auto_deploy_and_monitor, try_except, bind at 1.
  destruct (deploy_staging_returns run cfg task_id branch_name calls)
    as (more & ok & Hdeploy).
  rewrite Hdeploy. destruct ok; cbn [negb].
  2:{ eexists _, false. split; [ reflexivity | ]. split; [ done | ].
      intros c1 timeout c2 status [=]. }
  unfold bind at 1, config_get.
  destruct (subscript2 cfg "ci_cd" "deploy_timeout") as [timeout | e] eqn:Htimeout.
  2:{ eexists _, false. split; [ reflexivity | ]. split; [ done | ].
      intros c1 timeout c2 status _ [=]. }
  unfold bind at 1.
  destruct (wait_for_deploy task_id timeout (calls ++ more)) as [c2 [status | e]]
    eqn:Hwait.
  2:{ eexists _, false. split; [ reflexivity | ]. split; [ done | ].
      intros c1 timeout' c2' status [= <-] [= <-]. by rewrite Hwait. }
  destruct (String.eqb_spec status "success") as [-> | Hns].
  { eexists _, true. split; [ reflexivity | ]. split.
    - intros _. by exists (calls ++ more), timeout.
    - intros c1 timeout' c2' status [= <-] [= <-]. rewrite Hwait.
      intros [= <- <-]. done. }
  destruct (String.eqb_spec status "failed") as [-> | Hnf].
  - destruct (rollback_deploy_returns run cfg task_id c2) as (more' & b' & Hrb).
    unfold bind. rewrite handle_qa_failure_eq, Hrb.
    eexists _, false. split; [ reflexivity | ]. split; [ done | ].
    intros c1 timeout' c2' status [= <-] [= <-]. rewrite Hwait.
    intros [= <- <-]. cbn. by rewrite Hrb.
  - eexists _, false. split; [ reflexivity | ]. split; [ done | ].
    intros c1 timeout' c2' status' [= <-] [= <-]. rewrite Hwait.
    intros [= <- <-]. split; [ done | ].
    by rewrite (proj2 (String.eqb_neq _ _) Hnf).
Qed.

End ci_cd_more_props.

(** ** The git workflow *)

Module git_workflow_props.
Import py py.notations json config git_workflow.

(** The outcome of the command [argv] on [env]: completed with 0,
    completed with another code, or an exception. *)
Ltac run_cases env argv H :=
  let rc := fresh "rc" in
  let msg := fresh "msg" in
  let Hrc := fresh "Hrc" in
  destruct (run env argv) as [rc | | msg | msg] eqn:H;
    [ destruct (Z.eqb_spec rc 0) as [-> | Hrc];
      [ | rewrite ?(proj2 (Z.eqb_neq rc 0) Hrc) ] | | | ].

Ltac unfold_run :=
  unfold try_except, subprocess_check, subprocess_run, bind, ret, raise.

Ltac run_facts :=
  unfold succeeds, fails, completes, git_add, git_staged, git_commit, git_head,
    git_push, git_verify, git_checkout, git_checkout_new, git_reset, git_clean in *;
  rewrite ?elem_of_cons, ?elem_of_nil;
  naive_solver congruence.

(** *** The commit *)

(** X23.  [commit_changes]: [git commit] is run exactly when [git add]
    succeeded and [git diff --cached --quiet] reported staged changes;
    with nothing staged the result is [True] after two commands; the
    result is [True] exactly when the add succeeded and either nothing
    was staged or the commit succeeded and [git rev-parse HEAD]
    completed, and [False] exactly when the add or the commit was
    refused with a return code other than 0. *)
Theorem commit_changes_spec (env : Env) (task_id message : string)
    (calls : list (list string)) :
  ∃ more r,
    commit_changes env task_id message calls = (calls ++ more, r) ∧
    (git_commit message ∈ more ↔ succeeds env git_add ∧ fails env git_staged) ∧
    (succeeds env git_add → succeeds env git_staged → more = [git_add; git_staged]) ∧
    (r = Ok true ↔
       succeeds env git_add ∧
       (succeeds env git_staged ∨
        (fails env git_staged ∧ succeeds env (git_commit message) ∧
         completes env git_head))) ∧
    (r = Ok false ↔
       fails env git_add ∨
       (succeeds env git_add ∧ fails env git_staged ∧
        fails env (git_commit message))).
Proof.
  unfold commit_changes. unfold_run.
  run_cases env ["git"; "add"; "."] Hadd; cbn;
    try (eexists [_], _; (split; [ reflexivity | ]); run_facts).
  run_cases env ["git"; "diff"; "--cached"; "--quiet"] Hstaged; cbn;
    try (eexists [_; _], _; rewrite <- !app_assoc; (split; [ reflexivity | ]);
         run_facts).
  run_cases env ["git"; "commit"; "-m"; message] Hcommit; cbn;
    try (eexists [_; _; _], _; rewrite <- !app_assoc; (split; [ reflexivity | ]);
         run_facts).
  destruct (run env ["git"; "rev-parse"; "HEAD"]) as [rc' | | msg' | msg'] eqn:Hhead;
    cbn; eexists [_; _; _; _], _; rewrite <- !app_assoc;
    (split; [ reflexivity | ]); run_facts.
Qed.

(** *** The branch, the push and the rollback *)

(** X24.  [create_feature_branch]: a missing prefix is raised before
    any command is run; otherwise the branch is named by the prefix
    and the task, it is checked out when [git rev-parse --verify]
    succeeds and created with [checkout -b] when that is refused, the
    name is returned exactly when the checkout succeeded, and a refused
    checkout is raised to the caller as [CalledProcessError]. *)
Theorem create_feature_branch_spec (env : Env) (cfg : gmap string value)
    (task_id : string) (calls : list (list string)) :
  match subscript2 cfg "git" "branch_prefix" with
  | Raise e =>
      create_feature_branch env cfg task_id calls = (calls, Raise (of_config_exn e))
  | Ok prefix =>
      let branch_name := fstr env prefix +:+ task_id in
      ∃ more r,
        create_feature_branch env cfg task_id calls = (calls ++ more, r) ∧
        (∀ name, r = Ok name → name = branch_name) ∧
        (r = Ok branch_name ↔
           (succeeds env (git_verify branch_name) ∧
            succeeds env (git_checkout branch_name)) ∨
           (fails env (git_verify branch_name) ∧
            succeeds env (git_checkout_new branch_name))) ∧
        (∀ rc, r = Raise (CalledProcessError rc) ↔
           rc ≠ 0%Z ∧
           ((succeeds env (git_verify branch_name) ∧
             run env (git_checkout branch_name) = Completed rc) ∨
            (fails env (git_verify branch_name) ∧
             run env (git_checkout_new branch_name) = Completed rc))) ∧
        (git_checkout branch_name ∈ more ↔ succeeds env (git_verify branch_name)) ∧
        (git_checkout_new branch_name ∈ more ↔ fails env (git_verify branch_name))
  end.
Proof.
  unfold create_feature_branch, config_get, bind at 1.
  destruct (subscript2 cfg "git" "branch_prefix") as [prefix | e]; [ | done ].
  cbv zeta. set (branch_name := fstr env prefix +:+ task_id). unfold_run.
  run_cases env ["git"; "rev-parse"; "--verify"; branch_name] Hverify; cbn;
    try (eexists [_], _; (split; [ reflexivity | ]); run_facts).
  - run_cases env ["git"; "checkout"; branch_name] Hco; cbn;
      eexists [_; _], _; rewrite <- !app_assoc; (split; [ reflexivity | ]);
      run_facts.
  - run_cases env ["git"; "checkout"; "-b"; branch_name] Hco; cbn;
      eexists [_; _], _; rewrite <- !app_assoc; (split; [ reflexivity | ]);
      run_facts.
Qed.

Lemma push_branch_cases (env : Env) (branch_name : string)
    (calls : list (list string)) :
  ∃ r, push_branch env branch_name calls = (calls ++ [git_push branch_name], r) ∧
       (r = Ok true ↔ succeeds env (git_push branch_name)) ∧
       (r = Ok false ↔ fails env (git_push branch_name)).
Proof.
  unfold push_branch. unfold_run.
  run_cases env ["git"; "push"; "origin"; branch_name] Hpush; cbn;
    eexists; (split; [ reflexivity | ]); run_facts.
Qed.

(** X25.  [rollback_changes]: [git clean] is run exactly when [git
    reset] succeeded; the result is [True] exactly when both succeeded
    and [False] exactly when one of them was refused. *)
Theorem rollback_changes_spec (env : Env) (task_id : string)
    (calls : list (list string)) :
  ∃ more r,
    rollback_changes env task_id calls = (calls ++ more, r) ∧
    (git_clean ∈ more ↔ succeeds env git_reset) ∧
    (r = Ok true ↔ succeeds env git_reset ∧ succeeds env git_clean) ∧
    (r = Ok false ↔
       fails env git_reset ∨ (succeeds env git_reset ∧ fails env git_clean)).
Proof.
  unfold rollback_changes. unfold_run.
  run_cases env ["git"; "reset"; "--hard"; "HEAD"] Hreset; cbn;
    try (eexists [_], _; (split; [ reflexivity | ]); run_facts).
  run_cases env ["git"; "clean"; "-fd"] Hclean; cbn;
    eexists [_; _], _; rewrite <- !app_assoc; (split; [ reflexivity | ]);
    run_facts.
Qed.

(** *** The pull request *)

(** X26.  [create_pull_request]: it raises nothing of class
    [Exception]; [gh pr create] is run exactly when [gh --version]
    succeeded; and the result is a URL exactly when both succeeded, the
    stripped output of [gh pr create]. *)
Theorem create_pull_request_spec (env : Env) (task_id branch_name : string)
    (calls : list (list string)) :
  let gh_version := ["gh"; "--version"] in
  let create :=
    [ "gh"; "pr"; "create";
      "--title"; "feat: " +:+ task_id +:+ " - Automated PR from Maestro";
      "--body"; pr_body task_id branch_name;
      "--base"; "main" ] in
  ∃ more r,
    create_pull_request env task_id branch_name calls = (calls ++ more, r) ∧
    match r with
    | Ok _ => True
    | Raise e => is_Exception e = false
    end ∧
    (create ∈ more ↔ succeeds env gh_version) ∧
    (∀ url, r = Ok (Some url) ↔
       succeeds env gh_version ∧ succeeds env create ∧
       url = stdout_strip env create).
Proof.
  cbv zeta. unfold create_pull_request, pr_create, pr_title. unfold_run.
  run_cases env ["gh"; "--version"] Hgh; cbn;
    try (eexists [_], _; (split; [ reflexivity | ]); run_facts).
  match goal with |- context [run env ?argv] =>
    run_cases env argv Hcreate
  end; cbn;
    eexists [_; _], _; rewrite <- !app_assoc; (split; [ reflexivity | ]);
    run_facts.
Qed.

(** *** The whole workflow *)

Lemma check_qa_status_cases (env : Env) (calls : list (list string)) :
  ∃ r, check_qa_status env calls = (calls, r) ∧
       (r = Ok (JStr "pass") ↔ qa_passed env) ∧
       match r with
       | Ok v => eq_str v "pass" = true → v = JStr "pass"
       | Raise e => is_Exception e = true
       end.
Proof.
  unfold check_qa_status, qa_passed.
  destruct (qa_report env) as [| | [| | | | | | qa_data] | msg];
    try (eexists; split; [ reflexivity | ]; split; [ naive_solver | done ]).
  destruct (qa_data !! "status") as [v |] eqn:Hstatus.
  - eexists. split; [ reflexivity | ]. cbn. split.
    + split; [ intros [= ->]; by exists qa_data | ].
      intros (d & [= <-] & Hd). congruence.
    + destruct v; try done. cbn. by intros ->%String.eqb_eq.
  - eexists. split; [ reflexivity | ]. cbn. split; [ | done ].
    split; [ done | ]. intros (d & [= <-] & Hd). congruence.
Qed.

(** X27.  The QA gate of [auto_commit_and_push]: unless the QA report
    is a dictionary whose status is "pass", the workflow returns
    [False] and runs no command at all, not even the validation. *)
Theorem auto_commit_and_push_qa_gate (env : Env) (cfg : gmap string value)
    (task_id : string) (calls : list (list string)) :
  ¬ qa_passed env →
  auto_commit_and_push env cfg task_id calls = (calls, Ok false).
Proof.
  intros Hqa. unfold auto_commit_and_push, try_except, bind at 1.
  destruct (check_qa_status_cases env calls) as (r & -> & Hpass & Hr).
  destruct r as [v | e]; [ | by rewrite Hr ].
  destruct (eq_str v "pass") eqn:Hv; [ | done ].
  exfalso. apply Hqa, Hpass. by rewrite (Hr eq_refl).
Qed.

Lemma auto_commit_and_push_qa_gate_witness :
  auto_commit_and_push env_qa_failed cfg_defaults "T-1" []
    = ([], Ok false).
Proof.
  apply (auto_commit_and_push_qa_gate env_qa_failed).
  intros (d & Hd & Hstatus). injection Hd as <-. vm_compute in Hstatus. discriminate.
Defined.

Lemma bind_Ok {A B : Type} (c : Py A) (k : A → Py B) (s s' : list (list string))
    (b : B) :
  bind c k s = (s', Ok b) → ∃ s1 a, c s = (s1, Ok a) ∧ k a s1 = (s', Ok b).
Proof.
  unfold bind. destruct (c s) as [s1 [a | e]]; [ | done ]. intros H. by exists s1, a.
Qed.

Lemma try_except_false (body : Py bool) (calls : list (list string)) :
  ∃ calls' r,
    try_except body is_Exception (λ _, ret false) calls = (calls', r) ∧
    match r with
    | Ok _ => True
    | Raise e => is_Exception e = false
    end ∧
    (r = Ok true → body calls = (calls', Ok true)).
Proof.
  unfold try_except. destruct (body calls) as [c' [b | e]].
  - exists c', (Ok b). split; [ done | ]. split; [ done | ]. by intros ->.
  - destruct (is_Exception e) eqn:He.
    + by exists c', (Ok false).
    + by exists c', (Raise e).
Qed.

Lemma create_feature_branch_returns (env : Env) (cfg : gmap string value)
    (task_id : string) (calls calls' : list (list string)) (name : string) :
  create_feature_branch env cfg task_id calls = (calls', Ok name) →
  ∃ prefix more,
    subscript2 cfg "git" "branch_prefix" = Ok prefix ∧
    name = fstr env prefix +:+ task_id ∧
    calls' = calls ++ more.
Proof.
  unfold create_feature_branch, config_get, bind at 1.
  destruct (subscript2 cfg "git" "branch_prefix") as [prefix | e]; [ | done ].
  set (branch_name := fstr env prefix +:+ task_id). unfold_run.
  run_cases env ["git"; "rev-parse"; "--verify"; branch_name] Hverify; cbn;
    try done.
  - run_cases env ["git"; "checkout"; branch_name] Hco; cbn; try done.
    intros [= <- <-]. exists prefix. eexists. by rewrite <- app_assoc.
  - run_cases env ["git"; "checkout"; "-b"; branch_name] Hco; cbn; try done.
    intros [= <- <-]. exists prefix. eexists. by rewrite <- app_assoc.
Qed.

Lemma commit_changes_returns (env : Env) (task_id message : string)
    (calls calls' : list (list string)) :
  commit_changes env task_id message calls = (calls', Ok true) →
  succeeds env git_add ∧ ∃ more, calls' = calls ++ more.
Proof.
  unfold commit_changes. unfold_run.
  run_cases env ["git"; "add"; "."] Hadd; cbn; try done.
  run_cases env ["git"; "diff"; "--cached"; "--quiet"] Hstaged; cbn; try done.
  { intros [= <-]. split; [ done | ]. eexists. by rewrite <- app_assoc. }
  run_cases env ["git"; "commit"; "-m"; message] Hcommit; cbn; try done.
  destruct (run env ["git"; "rev-parse"; "HEAD"]); cbn; try done.
  intros [= <-]. split; [ done | ]. eexists. by rewrite <- !app_assoc.
Qed.

Lemma create_pull_request_appends (env : Env) (task_id branch_name : string)
    (calls : list (list string)) :
  ∃ more, (create_pull_request env task_id branch_name calls).1 = calls ++ more.
Proof.
  unfold create_pull_request, pr_create. unfold_run.
  run_cases env ["gh"; "--version"] Hgh; cbn; try (by eexists [_]).
  match goal with |- context [run env ?argv] =>
    run_cases env argv Hcreate
  end; cbn; eexists [_; _]; by rewrite <- !app_assoc.
Qed.

(** X28.  [auto_commit_and_push] raises nothing of class [Exception],
    and it returns [True] only for a QA report that says "pass",
    changes that passed the validation, a successful [git add] and a
    successful push of the task's branch, run after the validation. *)
Theorem auto_commit_and_push_outcome (env : Env) (cfg : gmap string value)
    (task_id : string) (calls : list (list string)) :
  ∃ calls' r,
    auto_commit_and_push env cfg task_id calls = (calls', r) ∧
    match r with
    | Ok _ => True
    | Raise e => is_Exception e = false
    end ∧
    (r = Ok true →
       qa_passed env ∧
       ∃ c1 prefix more,
         validate_changes env task_id calls = (c1, Ok true) ∧
         subscript2 cfg "git" "branch_prefix" = Ok prefix ∧
         succeeds env git_add ∧
         succeeds env (git_push (fstr env prefix +:+ task_id)) ∧
         calls' = c1 ++ more ∧
         git_push (fstr env prefix +:+ task_id) ∈ more).
Proof.
  unfold auto_commit_and_push.
  match goal with |- context [try_except ?body _ _] =>
    destruct (try_except_false body calls) as (calls' & r & Hrun & Hclass & Htrue)
  end.
  exists calls', r. split; [ exact Hrun | ]. split; [ exact Hclass | ].
  intros Hr. specialize (Htrue Hr). clear Hrun Hclass Hr.
  apply bind_Ok in Htrue as (c0 & qa_status & Hqa & Htrue).
  destruct (check_qa_status_cases env calls) as (rq & Hq & Hpass & Hv).
  rewrite Hq in Hqa. injection Hqa as <- ->.
  destruct (eq_str qa_status "pass") eqn:Hs; [ | done ]. cbn [negb] in Htrue.
  split; [ apply Hpass; by rewrite (Hv eq_refl) | ].
  apply bind_Ok in Htrue as (c1 & valid & Hvalid & Htrue).
  destruct valid; [ | done ]. cbn [negb] in Htrue.
  apply bind_Ok in Htrue as (c2 & branch_name & Hbranch & Htrue).
  apply create_feature_branch_returns in Hbranch as (prefix & m2 & Hprefix & -> & ->).
  apply bind_Ok in Htrue as (c3 & template & Htemplate & Htrue).
  assert (c3 = c1 ++ m2) as ->.
  { unfold config_get in Htemplate. by injection Htemplate as <- _. }
  apply bind_Ok in Htrue as (c4 & message & Hmessage & Htrue).
  assert (c4 = c1 ++ m2) as ->.
  { unfold format_message, raise in Hmessage.
    destruct template; by injection Hmessage as <- _. }
  apply bind_Ok in Htrue as (c5 & committed & Hcommit & Htrue).
  destruct committed; [ | done ]. cbn [negb] in Htrue.
  apply commit_changes_returns in Hcommit as (Hadd & m5 & ->).
  apply bind_Ok in Htrue as (c6 & pushed & Hpush & Htrue).
  destruct pushed; [ | done ]. cbn [negb] in Htrue.
  destruct (push_branch_cases env (fstr env prefix +:+ task_id) ((c1 ++ m2) ++ m5))
    as (rp & Hp & Hp_true & _).
  rewrite Hp in Hpush. injection Hpush as <- ->.
  apply bind_Ok in Htrue as (c7 & auto_pr & Hauto & Htrue).
  assert (c7 = ((c1 ++ m2) ++ m5) ++ [git_push (fstr env prefix +:+ task_id)]) as ->.
  { unfold config_get in Hauto. by injection Hauto as <- _. }
  apply bind_Ok in Htrue as (c8 & [] & Hpr & Htrue).
  injection Htrue as <-.
  assert (Hc8 : ∃ m8, c8 = (((c1 ++ m2) ++ m5)
                            ++ [git_push (fstr env prefix +:+ task_id)]) ++ m8).
  { destruct (truthy auto_pr).
    - apply bind_Ok in Hpr as (c9 & o & Hpr & Hret). injection Hret as <-.
      match type of Hpr with create_pull_request ?e ?t ?b ?c = _ =>
        destruct (create_pull_request_appends e t b c) as (m8 & Hm8)
      end.
      rewrite Hpr in Hm8. by exists m8.
    - injection Hpr as <-. exists []. by rewrite app_nil_r. }
  destruct Hc8 as (m8 & ->).
  exists c1, prefix, (m2 ++ m5 ++ [git_push (fstr env prefix +:+ task_id)] ++ m8).
  split; [ exact Hvalid | ]. split; [ exact Hprefix | ]. split; [ exact Hadd | ].
  split; [ by apply Hp_true | ]. split; [ by rewrite <- !app_assoc | ].
  rewrite !elem_of_app. right. right. left. apply list_elem_of_here.
Qed.

End git_workflow_props.
